(** * SmartAgenticConverter: a shallow embedding of its calculators

    The development follows the JavaScript sources of the extension:

    - [lib/convert-units.js] and [unitConverter.js]   (modules [ConvertUnits], [ConvertUnits64],
                                                        [UnitConverter])
    - [currencyConverter.js]                           (module [CurrencyConverter])
    - [lib/dayjs.js]                                   (module [Dayjs])
    - [datetimeHelper.js]                              (module [DateTimeHelper])
    - [agent.js]                                       (module [Agent])

    Modules [JS], [Double] and [JSDate] hold what the sources use of the
    language itself: strings, property lookup, numbers, and [Date].
    Part I holds the definitions, Part II the properties.

    Conventions.  Strings are [string]s of ASCII characters.  JavaScript
    numbers are doubles, and their arithmetic is read in two ways.
    Module [Double] is the arithmetic of the program: an operation
    returns the double nearest to the exact result.  [ConvertUnits64]
    computes the unit conversions with it, and what is stated about the
    distance between a computed result and the exact one is stated
    there.  The operations of module [JS] are exact, over the rationals
    ([Qc]), a decimal literal being the rational it denotes; the modules
    that use them state which branch a call takes, what it looks up and
    what it throws, and what the formulas give over exact arithmetic.
    The one place where the code can produce [NaN] from [undefined] uses
    [jsnum].  A JavaScript exception is the [Throw] case of [completion]
    and carries the [message] of the thrown [Error]. *)

From Stdlib Require Import ZArith QArith Qcanon Qround Qabs Qpower Lqa Lia List
  String Ascii.
From stdpp Require Import base gmap strings list pretty.

Local Open Scope string_scope.
Local Open Scope Z_scope.

(* ===================================================================== *)
(** * Part I.  Definitions                                                *)
(* ===================================================================== *)

(** ** JavaScript values and string primitives *)

Module JS.

(** Completion of a call: a returned value or a thrown error message. *)
Inductive completion (A : Type) : Type :=
| Normal (a : A)
| Throw (message : string).
Arguments Normal {A} a.
Arguments Throw {A} message.

Definition is_upper (c : ascii) : bool :=
  let n := nat_of_ascii c in (65 <=? n)%nat && (n <=? 90)%nat.

Definition is_lower (c : ascii) : bool :=
  let n := nat_of_ascii c in (97 <=? n)%nat && (n <=? 122)%nat.

Definition is_digit (c : ascii) : bool :=
  let n := nat_of_ascii c in (48 <=? n)%nat && (n <=? 57)%nat.

(** The ASCII members of the [\s] class: TAB, LF, VT, FF, CR and space. *)
Definition is_space (c : ascii) : bool :=
  let n := nat_of_ascii c in ((9 <=? n)%nat && (n <=? 13)%nat) || (n =? 32)%nat.

Definition lower_char (c : ascii) : ascii :=
  if is_upper c then ascii_of_nat (nat_of_ascii c + 32) else c.

Definition upper_char (c : ascii) : ascii :=
  if is_lower c then ascii_of_nat (nat_of_ascii c - 32) else c.

Fixpoint map_chars (f : ascii -> ascii) (s : string) : string :=
  match s with
  | EmptyString => EmptyString
  | String c r => String (f c) (map_chars f r)
  end.

(** [String.prototype.toLowerCase] / [toUpperCase]. *)
Definition toLowerCase : string -> string := map_chars lower_char.
Definition toUpperCase : string -> string := map_chars upper_char.

Fixpoint trimStart (s : string) : string :=
  match s with
  | String c r => if is_space c then trimStart r else s
  | EmptyString => EmptyString
  end.

Fixpoint trimEnd (s : string) : string :=
  match s with
  | EmptyString => EmptyString
  | String c r =>
      match trimEnd r with
      | EmptyString => if is_space c then EmptyString else String c EmptyString
      | r' => String c r'
      end
  end.

(** [String.prototype.trim]. *)
Definition trim (s : string) : string := trimEnd (trimStart s).

(** [s.includes(c)] for a one-character needle. *)
Fixpoint includes_char (c : ascii) (s : string) : bool :=
  match s with
  | EmptyString => false
  | String d r => Ascii.eqb c d || includes_char c r
  end.

Definition digit_value (c : ascii) : Z := Z.of_nat (nat_of_ascii c) - 48.

Fixpoint parse_digits (acc : Z) (s : string) : Z :=
  match s with
  | String c r => if is_digit c then parse_digits (10 * acc + digit_value c) r else acc
  | EmptyString => acc
  end.

(** [parseInt] on a string that starts with a decimal digit (the only
    strings the modelled call sites pass). *)
Definition parseInt (s : string) : Z := parse_digits 0 s.

(** Reading a property [k] of an object literal whose own properties are
    [own].  A literal inherits from [Object.prototype], so a key that is not
    an own property but names a prototype member yields that member, which
    is truthy.  [inherited k] is the string the member converts to. *)
Definition object_prototype_members : list (string * string) :=
  [ ("constructor", "function Object() { [native code] }");
    ("__proto__", "[object Object]");
    ("hasOwnProperty", "function hasOwnProperty() { [native code] }");
    ("isPrototypeOf", "function isPrototypeOf() { [native code] }");
    ("propertyIsEnumerable", "function propertyIsEnumerable() { [native code] }");
    ("toLocaleString", "function toLocaleString() { [native code] }");
    ("toString", "function toString() { [native code] }");
    ("valueOf", "function valueOf() { [native code] }");
    ("__defineGetter__", "function __defineGetter__() { [native code] }");
    ("__defineSetter__", "function __defineSetter__() { [native code] }");
    ("__lookupGetter__", "function __lookupGetter__() { [native code] }");
    ("__lookupSetter__", "function __lookupSetter__() { [native code] }") ].

Fixpoint assoc {A : Type} (k : string) (l : list (string * A)) : option A :=
  match l with
  | [] => None
  | (k', v) :: r => if String.eqb k k' then Some v else assoc k r
  end.

Definition inherited (k : string) : option string := assoc k object_prototype_members.

(** Whether a string holds an uppercase ASCII letter. *)
Fixpoint has_upper (s : string) : bool :=
  match s with
  | EmptyString => false
  | String c r => is_upper c || has_upper r
  end.

(** Whether a string holds a lowercase ASCII letter. *)
Fixpoint has_lower (s : string) : bool :=
  match s with
  | EmptyString => false
  | String c r => is_lower c || has_lower r
  end.

Inductive property (A : Type) : Type :=
| OwnProp (v : A)
| ProtoProp (rendering : string)
| Undefined.
Arguments OwnProp {A} v.
Arguments ProtoProp {A} rendering.
Arguments Undefined {A}.

Definition get {A : Type} (own : list (string * A)) (k : string) : property A :=
  match assoc k own with
  | Some v => OwnProp v
  | None =>
      match inherited k with
      | Some r => ProtoProp r
      | None => Undefined
      end
  end.

(** A number that may be [NaN]. *)
Inductive jsnum : Type :=
| Num (q : Qc)
| NaN.

(** [ToNumber] of a property that may be missing: [undefined] is [NaN]. *)
Definition of_optional (o : option Qc) : jsnum :=
  match o with Some q => Num q | None => NaN end.

(** The operators over exact rationals; module [Double] has the rounded
    ones. *)
Definition lift2 (f : Qc -> Qc -> Qc) (a b : jsnum) : jsnum :=
  match a, b with
  | Num x, Num y => Num (f x y)
  | _, _ => NaN
  end.

Definition mul : jsnum -> jsnum -> jsnum := lift2 Qcmult.
Definition add : jsnum -> jsnum -> jsnum := lift2 Qcplus.
Definition sub : jsnum -> jsnum -> jsnum := lift2 Qcminus.
(** Division; every divisor in the sources is a non-zero constant or
    [NaN], so the infinities do not arise. *)
Definition div : jsnum -> jsnum -> jsnum := lift2 Qcdiv.

(** Truthiness of a number. *)
Definition nonzero (q : Qc) : bool := negb (bool_decide (q = Q2Qc 0)).

(** [value || 0] *)
Definition or_zero (v : jsnum) : jsnum :=
  match v with
  | Num q => if decide (q = Q2Qc 0) then Num (Q2Qc 0) else Num q
  | NaN => Num (Q2Qc 0)
  end.

(** Number-to-text conversions, left to the host: template-literal
    interpolation, [toFixed(digits)] and [Date.prototype.toISOString]. *)
Record rendering : Type := {
  numberToString : jsnum -> string;
  toFixed : nat -> jsnum -> string;
  toISOString : Z -> string
}.

End JS.

(** ** Double arithmetic

    The binary64 numbers of JavaScript over the rationals: a finite
    double is the rational it denotes, and an operation returns the
    double nearest to the exact result. *)

Module Double.
Local Open Scope Q_scope.

(** A double: a finite value (a rational), an infinity, or [NaN].  The
    two zeros are one value: the sources never divide by a computed
    number, so the sign of a zero shows nowhere. *)
Inductive double : Type :=
| Finite (q : Q)
| Infinity (negative : bool)
| NaN.

(** The integer nearest to [q], the even one of two that are equally
    near. *)
Definition roundHalfEven (q : Q) : Z :=
  let f := Qfloor q in
  match Qcompare (q - inject_Z f) (1 # 2) with
  | Lt => f
  | Gt => (f + 1)%Z
  | Eq => if Z.even f then f else (f + 1)%Z
  end.

(** For [q > 0], the exponent [e] with [2 ^ e <= q < 2 ^ (e + 1)]. *)
Definition exponent (q : Q) : Z :=
  let k := (Z.log2 (Qnum q) - Z.log2 (Zpos (Qden q)))%Z in
  if Qle_bool (2 ^ k) q then k else (k - 1)%Z.

(** The spacing of the doubles around [q]: 53 significant bits, and the
    spacing [2 ^ -1074] of the subnormal numbers below [2 ^ -1022]. *)
Definition ulp (q : Q) : Q := 2 ^ (Z.max (exponent (Qabs q)) (-1022) - 52).

Definition negative (q : Q) : bool := (Qnum q <? 0)%Z.

(** The double nearest to [q], ties to even; an infinity when the
    nearest value with 53 bits is [2 ^ 1024] or more in magnitude. *)
Definition round (q : Q) : double :=
  if Qeq_bool q 0 then Finite 0
  else
    let r := Qred (inject_Z (roundHalfEven (q / ulp q)) * ulp q) in
    if Qle_bool (2 ^ 1024) (Qabs r) then Infinity (negative r) else Finite r.

(** The arithmetic operators: the exact result, rounded. *)
Definition neg (a : double) : double :=
  match a with
  | Finite x => Finite (- x)
  | Infinity s => Infinity (negb s)
  | NaN => NaN
  end.

Definition add (a b : double) : double :=
  match a, b with
  | Finite x, Finite y => round (x + y)
  | Infinity s, Finite _ | Finite _, Infinity s => Infinity s
  | Infinity s, Infinity s' => if Bool.eqb s s' then Infinity s else NaN
  | _, _ => NaN
  end.

Definition sub (a b : double) : double := add a (neg b).

Definition mul (a b : double) : double :=
  match a, b with
  | Finite x, Finite y => round (x * y)
  | Infinity s, Finite y | Finite y, Infinity s =>
      if Qeq_bool y 0 then NaN else Infinity (xorb s (negative y))
  | Infinity s, Infinity s' => Infinity (xorb s s')
  | _, _ => NaN
  end.

Definition div (a b : double) : double :=
  match a, b with
  | Finite x, Finite y =>
      if Qeq_bool y 0 then
        if Qeq_bool x 0 then NaN else Infinity (negative x)
      else round (x / y)
  | Infinity s, Finite y => Infinity (xorb s (negative y))
  | Finite _, Infinity _ => Finite 0
  | _, _ => NaN
  end.

(** Half an ulp relative to the magnitude, and half the smallest ulp. *)
Definition unitRoundoff : Q := Eval vm_compute in 2 ^ (-53).
Definition halfMinimum : Q := Eval vm_compute in 2 ^ (-1075).
Definition overflowThreshold : Q := Eval vm_compute in 2 ^ 1023.
End Double.

(** ** The ECMAScript [Date] operations used by the sources

    The functions of this module take a local time value, the
    [LocalTime(t)] of ECMAScript: milliseconds since the local epoch.
    Module [Dayjs] relates local time to time values through the zone of
    the host; the statements about [getNextOccurrence] and
    [getThanksgiving] read their dates as local time.  [TimeClip] (the
    8.64e15 ms bound of a valid [Date]) is not part of the model; the
    properties that depend on it carry the bound as a hypothesis. *)

Module JSDate.

Definition msPerDay : Z := 86400000.
Definition msPerHour : Z := 3600000.
Definition msPerMinute : Z := 60000.
Definition msPerSecond : Z := 1000.
Definition maxTime : Z := 8640000000000000.

Definition Day (t : Z) : Z := t / msPerDay.
Definition TimeWithinDay (t : Z) : Z := t mod msPerDay.

Definition isLeap (y : Z) : bool :=
  (y mod 4 =? 0) && (negb (y mod 100 =? 0) || (y mod 400 =? 0)).

Definition DaysInYear (y : Z) : Z := if isLeap y then 366 else 365.

Definition DayFromYear (y : Z) : Z :=
  365 * (y - 1970) + (y - 1969) / 4 - (y - 1901) / 100 + (y - 1601) / 400.

(** The year [y] with [DayFromYear y <= d < DayFromYear (y + 1)]: the
    mean-year estimate is off by at most one. *)
Definition YearFromDay (d : Z) : Z :=
  let y := 1970 + (400 * d) / 146097 in
  if DayFromYear (y + 1) <=? d then y + 1
  else if DayFromYear y <=? d then y
  else y - 1.

Definition YearFromTime (t : Z) : Z := YearFromDay (Day t).

Definition DayWithinYear (d : Z) : Z := d - DayFromYear (YearFromDay d).

(** Number of days before month [m] (0-based) in a year. *)
Definition monthStart (leap : bool) (m : Z) : Z :=
  let l := if leap then 1 else 0 in
  match m with
  | 0 => 0
  | 1 => 31
  | 2 => 59 + l
  | 3 => 90 + l
  | 4 => 120 + l
  | 5 => 151 + l
  | 6 => 181 + l
  | 7 => 212 + l
  | 8 => 243 + l
  | 9 => 273 + l
  | 10 => 304 + l
  | 11 => 334 + l
  | _ => 365 + l
  end.

Definition MonthFromDay (d : Z) : Z :=
  let leap := isLeap (YearFromDay d) in
  let w := DayWithinYear d in
  if w <? monthStart leap 1 then 0
  else if w <? monthStart leap 2 then 1
  else if w <? monthStart leap 3 then 2
  else if w <? monthStart leap 4 then 3
  else if w <? monthStart leap 5 then 4
  else if w <? monthStart leap 6 then 5
  else if w <? monthStart leap 7 then 6
  else if w <? monthStart leap 8 then 7
  else if w <? monthStart leap 9 then 8
  else if w <? monthStart leap 10 then 9
  else if w <? monthStart leap 11 then 10
  else 11.

Definition DateFromDay (d : Z) : Z :=
  DayWithinYear d - monthStart (isLeap (YearFromDay d)) (MonthFromDay d) + 1.

Definition WeekDay (t : Z) : Z := (Day t + 4) mod 7.

Definition MakeTime (h m s ms : Z) : Z :=
  h * msPerHour + m * msPerMinute + s * msPerSecond + ms.

Definition MakeDay (year month date : Z) : Z :=
  let ym := year + month / 12 in
  let mn := month mod 12 in
  DayFromYear ym + monthStart (isLeap ym) mn + date - 1.

Definition MakeDate (day time : Z) : Z := day * msPerDay + time.

(** Length of month [m] (0-based). *)
Definition daysInMonth (leap : bool) (m : Z) : Z :=
  match m with
  | 1 => if leap then 29 else 28
  | 3 | 5 | 8 | 10 => 30
  | _ => 31
  end.

(** The year [new Date(year, ...)] means: a year in 0..99 is 1900 + year. *)
Definition fullYear (year : Z) : Z :=
  if (0 <=? year) && (year <=? 99) then 1900 + year else year.

(** [new Date(year, month, date)]: local midnight. *)
Definition newDate (year month date : Z) : Z :=
  MakeDate (MakeDay (fullYear year) month date) (MakeTime 0 0 0 0).

Definition getFullYear (t : Z) : Z := YearFromTime t.
Definition getMonth (t : Z) : Z := MonthFromDay (Day t).
Definition getDate (t : Z) : Z := DateFromDay (Day t).
Definition getDay (t : Z) : Z := WeekDay t.

(** [d.setHours(h, m, s, ms)]: the day of [d] at the time
    [MakeTime h m s ms] (which runs into a later day when it exceeds 24 h). *)
Definition setHours (t h m s ms : Z) : Z := MakeDate (Day t) (MakeTime h m s ms).

(** A clock reading of a running browser: at or after the epoch, and far
    enough from the end of the [Date] range for one more year to fit. *)
Definition clock_reading (t : Z) : Prop := 0 <= t <= maxTime - 367 * msPerDay.

(** The time-of-day getters. *)
Definition getHours (t : Z) : Z := (t / msPerHour) mod 24.
Definition getMinutes (t : Z) : Z := (t / msPerMinute) mod 60.
Definition getSeconds (t : Z) : Z := (t / msPerSecond) mod 60.
Definition getMilliseconds (t : Z) : Z := t mod msPerSecond.

End JSDate.

(** ** [lib/dayjs.js]: the date wrapper of [DateTimeHelper]

    An instance is represented by what its [$d] holds: [Some t] for the
    date with time value [t] (milliseconds since the epoch, UTC), [None]
    for the invalid date.  The host's time zone is [localTZA], the
    [LocalTZA(t, isUTC)] of ECMAScript: the offset of local time from
    UTC in milliseconds, at the moment [t] when [isUTC] holds and at the
    local time [t] otherwise.  It may change from one moment to another,
    as it does under daylight saving.  The getters of [JSDate] are
    applied to [LocalTime t].  An ISO string (the text [toISOString]
    produces) is represented by the moment it denotes.  [format] is
    modelled on valid instances, where the helper calls it; [diff] is
    modelled without its third argument, as the helper calls it. *)

Module Dayjs.
Import JS JSDate.

Definition MS_A_SECOND : Z := 1000.
Definition MS_A_MINUTE : Z := 60 * MS_A_SECOND.
Definition MS_A_HOUR : Z := 60 * 60 * MS_A_SECOND.
Definition MS_A_DAY : Z := 60 * 60 * 24 * MS_A_SECOND.
Definition MS_A_WEEK : Z := 60 * 60 * 24 * 7 * MS_A_SECOND.

Definition monthsShort : list string :=
  [ "Jan"; "Feb"; "Mar"; "Apr"; "May"; "Jun";
    "Jul"; "Aug"; "Sep"; "Oct"; "Nov"; "Dec" ].
Definition months : list string :=
  [ "January"; "February"; "March"; "April"; "May"; "June"; "July";
    "August"; "September"; "October"; "November"; "December" ].
Definition weekdaysShort : list string :=
  [ "Sun"; "Mon"; "Tue"; "Wed"; "Thu"; "Fri"; "Sat" ].
Definition weekdays : list string :=
  [ "Sunday"; "Monday"; "Tuesday"; "Wednesday"; "Thursday"; "Friday";
    "Saturday" ].

Fixpoint repeat_string (n : nat) (pad : string) : string :=
  match n with
  | O => ""
  | S k => pad ++ repeat_string k pad
  end.

(** [padStart(string, length, pad)] on a number, as text. *)
Definition padStart (n : Z) (length : nat) (pad : string) : string :=
  let s := pretty n in
  if (length <=? String.length s)%nat then s
  else repeat_string (length - String.length s) pad ++ s.

(** Numbers: an integer as a number, comparison with zero,
    [Math.abs], negation. *)
Definition num (z : Z) : jsnum := Num (Q2Qc (inject_Z z)).

Definition lt0 (n : jsnum) : bool :=
  match n with Num q => negb (Qle_bool 0 q) | NaN => false end.

Definition gt0 (n : jsnum) : bool :=
  match n with Num q => negb (Qle_bool q 0) | NaN => false end.

Definition abs (n : jsnum) : jsnum :=
  match n with Num q => if lt0 n then Num (- q)%Qc else Num q | NaN => NaN end.

Definition neg (n : jsnum) : jsnum :=
  match n with Num q => Num (- q)%Qc | NaN => NaN end.

(** [absFloor(n)]: [n < 0 ? Math.ceil(n) || 0 : Math.floor(n)] *)
Definition absFloor (n : jsnum) : jsnum :=
  match n with
  | Num q => if lt0 n then num (Qceiling q) else num (Qfloor q)
  | NaN => NaN
  end.

(** [s.replace(/s$/, '')] *)
Fixpoint dropFinalS (s : string) : string :=
  match s with
  | EmptyString => EmptyString
  | String c r =>
      match r with
      | EmptyString => if Ascii.eqb c "s" then EmptyString else s
      | _ => String c (dropFinalS r)
      end
  end.

Definition special : list (string * string) :=
  [ ("M", "months"); ("y", "years"); ("w", "weeks"); ("d", "days");
    ("D", "dates"); ("h", "hours"); ("m", "minutes"); ("s", "seconds");
    ("ms", "milliseconds") ].

(** [prettyUnit(u)].  An inherited member that [special[u]] reaches is
    returned as it is; it only serves as a property key afterwards, so it
    is represented by the string it converts to. *)
Definition prettyUnit (u : string) : string :=
  match get special u with
  | OwnProp v => v
  | ProtoProp r => r
  | Undefined => dropFinalS (toLowerCase u)
  end.

(** What [dayjs(date)] is called with by the helper. *)
Inductive input : Type :=
| Instance (d : option Z)
| DateObject (d : option Z)
| ISOString (t : Z).

(** [isValid()] *)
Definition isValid (d : option Z) : bool :=
  match d with Some _ => true | None => false end.

(** [toISOString()]: a [RangeError] on the invalid date. *)
Definition toISOString (d : option Z) : completion Z :=
  match d with
  | Some t => Normal t
  | None => Throw "Invalid time value"
  end.

(** [set(units, int)]: whichever branch is taken, the method goes on to
    call [this.init()], and the class defines no [init]. *)
Definition set (d : option Z) (units : string) (int : Z) : completion (option Z) :=
  Throw "this.init is not a function".

(** The table of [add]. *)
Definition steps : list (string * Z) :=
  [ ("minutes", MS_A_MINUTE); ("hours", MS_A_HOUR); ("seconds", MS_A_SECOND);
    ("milliseconds", 1) ].

(** The pattern letters of [format] with the longest run each forms. *)
Definition patternLetters : list (ascii * nat) :=
  [ ("Y"%char, 4%nat); ("M"%char, 4%nat); ("D"%char, 2%nat); ("d"%char, 4%nat);
    ("H"%char, 2%nat); ("h"%char, 2%nat); ("a"%char, 1%nat); ("A"%char, 1%nat);
    ("m"%char, 2%nat); ("s"%char, 2%nat); ("Z"%char, 2%nat) ].

Fixpoint letterRun (c : ascii) (l : list (ascii * nat)) : option nat :=
  match l with
  | [] => None
  | (c', n) :: r => if Ascii.eqb c c' then Some n else letterRun c r
  end.

(** The run of at most [n] characters [c] at the head of [s], and the rest. *)
Fixpoint takeRun (c : ascii) (n : nat) (s : string) : string * string :=
  match n, s with
  | S n', String c' r =>
      if Ascii.eqb c c' then
        let '(a, b) := takeRun c n' r in (String c' a, b)
      else (EmptyString, s)
  | _, _ => (EmptyString, s)
  end.

(** After an opening bracket: the text up to the first closing bracket,
    and what follows it. *)
Fixpoint untilBracket (s : string) : option (string * string) :=
  match s with
  | EmptyString => None
  | String c r =>
      if Ascii.eqb c "]" then Some (EmptyString, r)
      else
        match untilBracket r with
        | Some (a, b) => Some (String c a, b)
        | None => None
        end
  end.

(** [String(n).slice(-2)] *)
Definition lastTwo (s : string) : string :=
  substring (String.length s - 2) 2 s.

(** A number as a replacement: [0] is falsy. *)
Definition shown (n : Z) : option string :=
  if n =? 0 then None else Some (pretty n).

Section Host.
Variable localTZA : Z -> bool -> Z.

(** [LocalTime(t)] of a time value and [UTC(t)] of a local time. *)
Definition LocalTime (t : Z) : Z := t + localTZA t true.
Definition UTC (t : Z) : Z := t - localTZA t false.

(** [new Date(u)] for a time value [u]: its [TimeClip]. *)
Definition fromTimeValue (u : Z) : option Z :=
  if Z.abs u <=? maxTime then Some u else None.

(** [valueOf()] *)
Definition valueOf (d : option Z) : option Z := d.

(** [a - b] on two instances. *)
Definition minus (a b : option Z) : jsnum :=
  match valueOf a, valueOf b with
  | Some x, Some y => num (x - y)
  | _, _ => NaN
  end.

(** [dayjs(date)]: a clone of an instance, a copy of a [Date], or the
    moment an ISO string denotes. *)
Definition dayjs (date : input) : option Z :=
  match date with
  | Instance d => d
  | DateObject d => d
  | ISOString t => fromTimeValue t
  end.

(** [day()] *)
Definition day (d : option Z) : option Z :=
  option_map (fun t => getDay (LocalTime t)) d.

(** [utcOffset()] of the valid instance of [t]:
    [-Math.round(getTimezoneOffset() / 15) * 15], where
    [getTimezoneOffset()] is [(t - LocalTime(t)) / msPerMinute] and
    [Math.round(x)] is the floor of [x + 1/2]. *)
Definition utcOffset (t : Z) : Z :=
  - ((450000 - localTZA t true) / 900000) * 15.

(** [padZoneStr(instance)], and the same with its colon removed. *)
Definition zoneSign (t : Z) : string := if - utcOffset t <=? 0 then "+" else "-".
Definition zoneHours (t : Z) : string := padStart (Z.abs (- utcOffset t) / 60) 2 "0".
Definition zoneMinutes (t : Z) : string :=
  padStart (Z.abs (- utcOffset t) mod 60) 2 "0".
Definition padZoneStr (t : Z) : string :=
  zoneSign t ++ zoneHours t ++ ":" ++ zoneMinutes t.
Definition zoneDigits (t : Z) : string := zoneSign t ++ zoneHours t ++ zoneMinutes t.

(** [Date.prototype.setDate(dt)] on the date with time value [t]: the
    day of the month is replaced in local time, and the local time is
    turned back into a time value. *)
Definition setDate (t dt : Z) : option Z :=
  let local := LocalTime t in
  let newDate :=
    MakeDate (MakeDay (getFullYear local) (getMonth local) dt)
      (TimeWithinDay local) in
  fromTimeValue (UTC newDate).

(** [add(number, units)] *)
Definition add (d : option Z) (number : Z) (units : string)
  : completion (option Z) :=
  let unit := prettyUnit units in
  let instanceFactorySet (n : Z) : option Z :=
    match d with
    | Some t => setDate t (getDate (LocalTime t) + n * number)
    | None => None
    end in
  if String.eqb unit "months" then
    set d "months"
      (default 0 (option_map (fun t => getMonth (LocalTime t)) d) + number)
  else if String.eqb unit "years" then
    set d "years"
      (default 0 (option_map (fun t => getFullYear (LocalTime t)) d) + number)
  else if String.eqb unit "days" then Normal (instanceFactorySet 1)
  else if String.eqb unit "weeks" then Normal (instanceFactorySet 7)
  else
    match get steps unit with
    | ProtoProp _ => Normal None
    | found =>
        let step := match found with OwnProp v => v | _ => MS_A_DAY end in
        Normal match valueOf d with
               | Some u => fromTimeValue (u + number * step)
               | None => None
               end
    end.

(** [subtract(number, units)] *)
Definition subtract (d : option Z) (number : Z) (units : string)
  : completion (option Z) :=
  add d (number * -1) units.

(** [monthDiff(a, b)]; on an invalid date every operand is [NaN]. *)
Definition monthDiff (a b : option Z) : completion jsnum :=
  match a, b with
  | Some ta, Some tb =>
      let wholeMonthDiff :=
        (getFullYear (LocalTime tb) - getFullYear (LocalTime ta)) * 12
        + (getMonth (LocalTime tb) - getMonth (LocalTime ta)) in
      match add a wholeMonthDiff "months" with
      | Throw m => Throw m
      | Normal anchor =>
          let c := lt0 (minus b anchor) in
          match add a (wholeMonthDiff + (if c then -1 else 1)) "months" with
          | Throw m => Throw m
          | Normal anchor2 =>
              Normal
                (neg (JS.add (num wholeMonthDiff)
                        (JS.div (minus b anchor)
                           (if c then minus anchor anchor2
                            else minus anchor2 anchor))))
          end
      end
  | _, _ => Normal NaN
  end.

(** Truthiness of a number. *)
Definition truthy (n : jsnum) : bool :=
  match n with Num q => nonzero q | NaN => false end.

(** [diff(input, units)], [input] being an instance. *)
Definition diff (this that : option Z) (units : string) : completion jsnum :=
  let unit := prettyUnit units in
  let zoneDelta :=
    match this, that with
    | Some a, Some b => num ((utcOffset b - utcOffset a) * MS_A_MINUTE)
    | _, _ => NaN
    end in
  let diff := minus this that in
  match monthDiff this that with
  | Throw m => Throw m
  | Normal result =>
      let table :=
        [ ("years", JS.div result (num 12));
          ("months", result);
          ("weeks", JS.div (JS.sub diff zoneDelta) (num MS_A_WEEK));
          ("days", JS.div (JS.sub diff zoneDelta) (num MS_A_DAY));
          ("hours", JS.div diff (num MS_A_HOUR));
          ("minutes", JS.div diff (num MS_A_MINUTE));
          ("seconds", JS.div diff (num MS_A_SECOND));
          ("milliseconds", diff) ] in
      Normal match get table unit with
             | OwnProp v => absFloor (if truthy v then v else diff)
             | ProtoProp _ => NaN
             | Undefined => absFloor diff
             end
  end.

(** The [matches] table of [format] on the instance of [t]; [None] is
    a falsy entry. *)
Definition matches (t : Z) : list (string * option string) :=
  let local := LocalTime t in
  let y := getFullYear local in
  let M := getMonth local in
  let D := getDate local in
  let W := getDay local in
  let H := getHours local in
  let m := getMinutes local in
  let s := getSeconds local in
  let ms := getMilliseconds local in
  let h := if H mod 12 =? 0 then 12 else H mod 12 in
  [ ("YY", Some (lastTwo (pretty y)));
    ("YYYY", shown y);
    ("M", shown (M + 1));
    ("MM", Some (padStart (M + 1) 2 "0"));
    ("MMM", monthsShort !! Z.to_nat M);
    ("MMMM", months !! Z.to_nat M);
    ("D", shown D);
    ("DD", Some (padStart D 2 "0"));
    ("d", shown W);
    ("dd", weekdaysShort !! Z.to_nat W);
    ("ddd", weekdaysShort !! Z.to_nat W);
    ("dddd", weekdays !! Z.to_nat W);
    ("H", shown H);
    ("HH", Some (padStart H 2 "0"));
    ("h", shown h);
    ("hh", Some (padStart h 2 "0"));
    ("m", shown m);
    ("mm", Some (padStart m 2 "0"));
    ("s", shown s);
    ("ss", Some (padStart s 2 "0"));
    ("SSS", Some (padStart ms 3 "0"));
    ("Z", Some (padZoneStr t)) ].

(** The replacement of a matched token:
    [matches[match] || zoneStr.replace(':', '')]. *)
Definition replacement (t : Z) (token : string) : string :=
  match assoc token (matches t) with
  | Some (Some v) => v
  | _ => zoneDigits t
  end.

(** The scan of [format]: at each position an escaped text in brackets,
    a run of a pattern letter, the token SSS, or a character that stays. *)
Fixpoint formatFrom (fuel : nat) (t : Z) (s : string) : string :=
  match fuel, s with
  | S fuel', String c r =>
      let keep := String c (formatFrom fuel' t r) in
      if Ascii.eqb c "[" then
        match untilBracket r with
        | Some (String a b, rest) => String a b ++ formatFrom fuel' t rest
        | _ => keep
        end
      else if Ascii.eqb c "S" then
        match r with
        | String "S" (String "S" rest) =>
            replacement t "SSS" ++ formatFrom fuel' t rest
        | _ => keep
        end
      else
        match letterRun c patternLetters with
        | Some n =>
            let '(token, rest) := takeRun c n s in
            replacement t token ++ formatFrom fuel' t rest
        | None => keep
        end
  | _, _ => EmptyString
  end.

(** [format(formatStr)] on the valid instance of [t]. *)
Definition format (t : Z) (formatStr : string) : string :=
  formatFrom (String.length formatStr) t formatStr.

End Host.

(** *** Vocabulary of the statements about units *)

(** The keys of the table of [diff]. *)
Definition diffUnits : list string :=
  [ "years"; "months"; "weeks"; "days"; "hours"; "minutes"; "seconds";
    "milliseconds" ].

(** Whether [add] finds no case and no step for a unit name, and so
    steps by whole days. *)
Definition stepsByDays (units : string) : bool :=
  let unit := prettyUnit units in
  negb (String.eqb unit "months") && negb (String.eqb unit "years")
  && negb (String.eqb unit "days") && negb (String.eqb unit "weeks")
  && match get steps unit with Undefined => true | _ => false end.

(** Whether [diff] finds no entry for a unit name. *)
Definition diffFindsNone (units : string) : bool :=
  let unit := prettyUnit units in
  negb (existsb (String.eqb unit) diffUnits)
  && match inherited unit with None => true | Some _ => false end.

End Dayjs.

(** ** [datetimeHelper.js] *)

Module DateTimeHelper.
Import JS JSDate.

(** [getThanksgiving(year)] *)
Definition getThanksgiving (year : Z) : Z :=
  let november := newDate year 10 1 in
  let firstThursday :=
    4 - getDay november + (if getDay november =? 0 then -3 else 1) in
  newDate year 10 (firstThursday + 21).

(** [getNextThanksgiving(currentYear)]; [now] is its own [new Date()]. *)
Definition getNextThanksgiving (now : Z) (currentYear : Z) : Z :=
  let thanksgiving := getThanksgiving currentYear in
  if thanksgiving <? now then getThanksgiving (currentYear + 1) else thanksgiving.

(** The closure [getNextOccurrence(month, day)] of [parseSpecialDates]. *)
Definition getNextOccurrence (now currentYear month day : Z) : Z :=
  let date := newDate currentYear month day in
  if date <? now then newDate (currentYear + 1) month day else date.

(** The [specialDates] table; [now] is the reading taken by
    [parseSpecialDates], [now'] the later one of [getNextThanksgiving]. *)
Definition specialDates (now now' : Z) : list (string * Z) :=
  let currentYear := getFullYear now in
  [ ("christmas", getNextOccurrence now currentYear 11 25);
    ("new year", newDate (currentYear + 1) 0 1);
    ("new years", newDate (currentYear + 1) 0 1);
    ("halloween", getNextOccurrence now currentYear 9 31);
    ("valentine", getNextOccurrence now currentYear 1 14);
    ("valentines", getNextOccurrence now currentYear 1 14);
    ("thanksgiving", getNextThanksgiving now' currentYear) ].

(** [parseSpecialDates(dateString)].  An inherited member is truthy but
    has no [toDateString], so the logging call throws. *)
Definition parseSpecialDates (now now' : Z) (dateString : string)
  : completion (option Z) :=
  let normalized := trim (toLowerCase dateString) in
  match get (specialDates now now') normalized with
  | OwnProp d => Normal (Some d)
  | ProtoProp _ => Throw "result.toDateString is not a function"
  | Undefined => Normal None
  end.

(** The match of [/(\d{1,2})(?::(\d{2}))?\s*(AM|PM)?/i] at a position
    where a digit starts: the three capture groups. *)
Definition is_meridiem (a b : ascii) : bool :=
  let a' := upper_char a in
  let b' := upper_char b in
  (Ascii.eqb a' "A" || Ascii.eqb a' "P") && Ascii.eqb b' "M".

Fixpoint skip_spaces (s : string) : string :=
  match s with
  | String c r => if is_space c then skip_spaces r else s
  | EmptyString => EmptyString
  end.

Definition match_period (s : string) : option string :=
  match skip_spaces s with
  | String a (String b _) =>
      if is_meridiem a b then Some (String a (String b EmptyString)) else None
  | _ => None
  end.

Definition match_minutes (s : string) : option string * string :=
  match s with
  | String ":" (String a (String b r)) =>
      if is_digit a && is_digit b
      then (Some (String a (String b EmptyString)), r)
      else (None, s)
  | _ => (None, s)
  end.

Definition match_at_digit (c : ascii) (r : string)
  : string * option string * option string :=
  let '(hours, rest) :=
    match r with
    | String d r' =>
        if is_digit d then (String c (String d EmptyString), r')
        else (String c EmptyString, r)
    | EmptyString => (String c EmptyString, r)
    end in
  let '(minutes, rest') := match_minutes rest in
  (hours, minutes, match_period rest').

(** [timeStr.match(...)]: the leftmost match, at the first digit. *)
Fixpoint matchTimeParts (s : string)
  : option (string * option string * option string) :=
  match s with
  | EmptyString => None
  | String c r => if is_digit c then Some (match_at_digit c r) else matchTimeParts r
  end.

(** The two [if]s that turn a 12-hour reading into a 24-hour one. *)
Definition normalizeHours (hours : Z) (period : option string) : Z :=
  let hours :=
    if bool_decide (period = Some "PM") && negb (hours =? 12)
    then hours + 12 else hours in
  if bool_decide (period = Some "AM") && (hours =? 12) then 0 else hours.

(** The [timezone] case up to the call of [convertTimezone]:
    [todayWithTime] after the optional [setHours]. *)
Definition todayWithTime (today : Z) (time : string) : Z :=
  let timeStr := time ++ (if includes_char "M" time then "" else " PM") in
  match matchTimeParts timeStr with
  | Some (h, m, p) =>
      let hours := parseInt h in
      let minutes := parseInt (default "0" m) in
      let period := option_map toUpperCase p in
      setHours today (normalizeHours hours period) minutes 0 0
  | None => today
  end.

(** What [parseDateTimeQuery] extracts. *)
Inductive parsed : Type :=
| FutureDay (days : Z)
| PastDay (days : Z)
| DaysBetween (targetDate : string)
| Timezone (time fromTimezone toTimezone : string)
| CurrentTime (timezone : string).

Section Dispatch.
(** The result type and the operations that rest on regular
    expressions, Day.js and [Intl] are taken as given. *)
Context {R : Type}.
Variable parseDateTimeQuery : string -> option parsed.
Variable parseError : string -> R.
Variable dayOffset : Z -> parsed -> R.
Variable parseDate : string -> option Z.
Variable dateError : string -> string -> R.
Variable calculateDateDifference : Z -> Z -> string -> R.
Variable convertTimezone : Z -> string -> string -> R.

(** [handleDateTimeRequest(query)]; [t0], [t1], [t2] are the successive
    clock readings. *)
Definition handleDateTimeRequest (t0 t1 t2 : Z) (query : string)
  : completion R :=
  match parseDateTimeQuery query with
  | None => Normal (parseError query)
  | Some p =>
      match p with
      | FutureDay _ | PastDay _ => Normal (dayOffset t0 p)
      | DaysBetween target =>
          match parseSpecialDates t1 t2 target with
          | Throw m => Throw m
          | Normal special =>
              match (match special with Some d => Some d | None => parseDate target end) with
              | None => Normal (dateError target query)
              | Some d => Normal (calculateDateDifference t0 d "days")
              end
          end
      | Timezone time fromTz toTz =>
          Normal (convertTimezone (todayWithTime t1 time) fromTz toTz)
      | CurrentTime tz => Normal (convertTimezone t0 "UTC" tz)
      end
  end.
End Dispatch.

(** "The fourth Thursday of November of year [y]", as a predicate on dates. *)
Definition isFourthThursdayOfNovember (y t : Z) : bool :=
  (getFullYear t =? y) && (getMonth t =? 10) && (getDay t =? 4)
  && (22 <=? getDate t) && (getDate t <=? 28).

(** *** Vocabulary of the statements about the 12-hour clock *)








Definition echo (t : Z) (a b : string) : Z * string * string := (t, a, b).

(** *** The remaining tables of [DateTimeHelper] *)

(** [getTimezoneList()] *)
Definition timezones : list (string * string) :=
  [ ("utc", "UTC"); ("gmt", "UTC");
    ("est", "America/New_York"); ("eastern", "America/New_York");
    ("cst", "America/Chicago"); ("central", "America/Chicago");
    ("mst", "America/Denver"); ("mountain", "America/Denver");
    ("pst", "America/Los_Angeles"); ("pacific", "America/Los_Angeles");
    ("bst", "Europe/London"); ("cet", "Europe/Paris");
    ("jst", "Asia/Tokyo"); ("ist", "Asia/Kolkata");
    ("cst_china", "Asia/Shanghai"); ("aest", "Australia/Sydney");
    ("tokyo", "Asia/Tokyo"); ("japan", "Asia/Tokyo");
    ("london", "Europe/London"); ("paris", "Europe/Paris");
    ("berlin", "Europe/Berlin"); ("sydney", "Australia/Sydney");
    ("melbourne", "Australia/Melbourne"); ("shanghai", "Asia/Shanghai");
    ("beijing", "Asia/Shanghai"); ("mumbai", "Asia/Kolkata");
    ("delhi", "Asia/Kolkata"); ("dubai", "Asia/Dubai");
    ("moscow", "Europe/Moscow"); ("singapore", "Asia/Singapore");
    ("hongkong", "Asia/Hong_Kong"); ("seoul", "Asia/Seoul");
    ("bangkok", "Asia/Bangkok"); ("jakarta", "Asia/Jakarta") ].

(** What [normalizeTimezone] returns: a zone name, or the inherited
    member the table lookup reached. *)
Inductive zone : Type :=
| Zone (name : string)
| NoZone (rendering : string).

(** [normalizeTimezone(timezone)]; the empty string is falsy. *)
Definition normalizeTimezone (timezone : string) : zone :=
  if String.eqb timezone "" then Zone "UTC"
  else
    match get timezones (toLowerCase timezone) with
    | OwnProp normalized => Zone normalized
    | ProtoProp r => NoZone r
    | Undefined => Zone timezone
    end.

(** Whether [normalizeTimezone] leaves a name as it is. *)
Definition zone_fixed (name : string) : bool :=
  match normalizeTimezone name with
  | Zone n => String.eqb n name
  | NoZone _ => false
  end.

(** *** Vocabulary of the statements about special dates and clocks *)

(** The holidays of [specialDates] with a fixed month (0-based) and day. *)
Definition fixedHolidays : list (string * (Z * Z)) :=
  [ ("christmas", (11, 25)); ("halloween", (9, 31));
    ("valentine", (1, 14)); ("valentines", (1, 14)) ].

(** The names of the [specialDates] table. *)
Definition specialNames : list string :=
  [ "christmas"; "new year"; "new years"; "halloween"; "valentine";
    "valentines"; "thanksgiving" ].



(** *** The methods that rest on Day.js

    [loaded] tells whether [window.dayjs] was there when the helper was
    constructed.  A failure record repeats the arguments of the call. *)

Record dateDifference : Type := {
  date1 : Z;
  date2 : Z;
  difference : jsnum;
  differenceUnit : string;
  isInFuture : bool;
  differenceFormatted : string
}.

Inductive differenceResult : Type :=
| DifferenceUnavailable
| DifferenceFailed (error : string) (d1 d2 : Dayjs.input) (unitName : string)
| Difference (r : dateDifference).

Record dayShift : Type := {
  originalDate : Z;
  resultDate : Z;
  days : Z;
  operation : string;
  shiftFormatted : string
}.

Inductive shiftResult : Type :=
| ShiftUnavailable
| ShiftFailed (error : string) (d : Dayjs.input) (n : Z) (op : string)
| Shifted (r : dayShift).

Record weekDay : Type := {
  date : Z;
  dayOfWeek : Z;
  dayName : string;
  dayFormatted : string
}.

Inductive weekDayResult : Type :=
| WeekDayUnavailable
| WeekDayFailed (error : string) (d : Dayjs.input)
| WeekDayFound (r : weekDay).

(** The record of the [futureDay] / [pastDay] case: the fields of the
    shift, with [type], [dayInfo] and the final [formatted]. *)
Record dayAnswer : Type := {
  answerType : string;
  shift : dayShift;
  dayInfo : weekDayResult;
  answerFormatted : string
}.

Inductive dayOffsetResult : Type :=
| DayAnswered (r : dayAnswer)
| DayNotShifted (r : shiftResult).

(** What [handleDateTimeRequest] returns; [T] is what [convertTimezone]
    returns. *)
Inductive response (T : Type) : Type :=
| ParseFailed (error query : string)
| DayOffset (r : dayOffsetResult)
| DateFailed (error query : string)
| DateDifference (r : differenceResult)
| TimezoneConverted (r : T).
Arguments ParseFailed {T} error query.
Arguments DayOffset {T} r.
Arguments DateFailed {T} error query.
Arguments DateDifference {T} r.
Arguments TimezoneConverted {T} r.

Section Tools.
Variable loaded : bool.
Variable localTZA : Z -> bool -> Z.
Variable fmt : rendering.

(** [calculateDateDifference(date1, date2, unit)] *)
Definition calculateDateDifference (date1 date2 : Dayjs.input) (unit : string)
  : differenceResult :=
  if negb loaded then DifferenceUnavailable
  else
    match Dayjs.dayjs date1, Dayjs.dayjs date2 with
    | Some t1, Some t2 =>
        match Dayjs.diff localTZA (Some t2) (Some t1) unit with
        | Throw m => DifferenceFailed m date1 date2 unit
        | Normal result =>
            let absoluteResult := Dayjs.abs result in
            let isInFuture := Dayjs.gt0 result in
            let formattedMessage :=
              if isInFuture then
                "There are " ++ numberToString fmt absoluteResult ++ " " ++ unit
                ++ " until " ++ Dayjs.format localTZA t2 "MMM DD, YYYY"
              else
                Dayjs.format localTZA t2 "MMM DD, YYYY" ++ " was "
                ++ numberToString fmt absoluteResult ++ " " ++ unit ++ " ago" in
            Difference
              {| date1 := t1; date2 := t2; difference := absoluteResult;
                 differenceUnit := unit; isInFuture := isInFuture;
                 differenceFormatted := formattedMessage |}
        end
    | _, _ => DifferenceFailed "Invalid date format" date1 date2 unit
    end.

(** [addSubtractDays(date, days, operation)] *)
Definition addSubtractDays (date : Dayjs.input) (days : Z) (operation : string)
  : shiftResult :=
  if negb loaded then ShiftUnavailable
  else
    match Dayjs.dayjs date with
    | None => ShiftFailed "Invalid date format" date days operation
    | Some t =>
        let moved :=
          if String.eqb operation "subtract"
          then Dayjs.subtract localTZA (Some t) days "days"
          else Dayjs.add localTZA (Some t) days "days" in
        match moved with
        | Throw m => ShiftFailed m date days operation
        | Normal resultDate =>
            match Dayjs.toISOString resultDate with
            | Throw m => ShiftFailed m date days operation
            | Normal iso =>
                Shifted
                  {| originalDate := t; resultDate := iso; days := days;
                     operation := operation;
                     shiftFormatted :=
                       Dayjs.format localTZA t "MMM DD, YYYY" ++ " "
                       ++ (if String.eqb operation "add" then "+" else "-")
                       ++ " " ++ pretty days ++ " days = "
                       ++ Dayjs.format localTZA iso "MMM DD, YYYY" |}
            end
        end
    end.

(** [findDayOfWeek(date)] *)
Definition findDayOfWeek (date : Dayjs.input) : weekDayResult :=
  if negb loaded then WeekDayUnavailable
  else
    match Dayjs.dayjs date with
    | None => WeekDayFailed "Invalid date format" date
    | Some t =>
        let dayName := Dayjs.format localTZA t "dddd" in
        WeekDayFound
          {| date := t; dayOfWeek := getDay (Dayjs.LocalTime localTZA t);
             dayName := dayName;
             dayFormatted :=
               Dayjs.format localTZA t "MMM DD, YYYY" ++ " is a " ++ dayName |}
    end.

(** [this.dayjs ? this.dayjs() : new Date()] at the clock reading [t]. *)
Definition nowInput (t : Z) : Dayjs.input :=
  if loaded then Dayjs.Instance (Some t) else Dayjs.DateObject (Some t).

(** The [futureDay] / [pastDay] case of [handleDateTimeRequest].  The
    ISO string of the shifted date denotes a valid date, which the final
    text formats. *)
Definition dayOffset (now : Z) (type : string) (days : Z) (operation : string)
  : dayOffsetResult :=
  match addSubtractDays (nowInput now) days operation with
  | Shifted futureResult =>
      let dayResult := findDayOfWeek (Dayjs.ISOString (resultDate futureResult)) in
      DayAnswered
        {| answerType := type; shift := futureResult; dayInfo := dayResult;
           answerFormatted :=
             pretty days ++ " days "
             ++ (if String.eqb operation "add" then "from now" else "ago")
             ++ " will be "
             ++ match dayResult with
                | WeekDayFound r => dayName r
                | _ => "undefined"
                end
             ++ ", "
             ++ Dayjs.format localTZA (resultDate futureResult)
                  "MMMM DD, YYYY" |}
  | futureResult => DayNotShifted futureResult
  end.

(** [handleDateTimeRequest] with these methods in place; the two
    operations on regular expressions and [Intl] stay as given.  The
    dispatch enters the day case for the two day types only, each with
    the operation its patterns give it.  [t0] is the time value of the
    first clock reading; the target of a difference is a [Date] built
    from local time (by [parseSpecialDates], or by [parseDate], which
    gives the local time of the date it reads), whose time value is the
    [UTC] of that local time. *)
Definition handleDateTimeRequestWith {T : Type}
  (parseDateTimeQuery : string -> option parsed)
  (parseDate : string -> option Z)
  (convertTimezone : Z -> string -> string -> T)
  (t0 t1 t2 : Z) (query : string) : completion (response T) :=
  handleDateTimeRequest parseDateTimeQuery
    (fun query => ParseFailed "Could not parse date/time request from query" query)
    (fun now p =>
       DayOffset
         match p with
         | PastDay n => dayOffset now "pastDay" n "subtract"
         | FutureDay n => dayOffset now "futureDay" n "add"
         | _ => dayOffset now "" 0 ""
         end)
    parseDate
    (fun target query => DateFailed ("Could not parse date: " ++ target) query)
    (fun now target unit =>
       DateDifference
         (calculateDateDifference (nowInput now)
            (Dayjs.DateObject (Some (Dayjs.UTC localTZA target))) unit))
    (fun t fromTimezone toTimezone =>
       TimezoneConverted (convertTimezone t fromTimezone toTimezone))
    t0 t1 t2 query.
End Tools.

(** A zone for examples: New York time around the end of daylight
    saving in 2026.  Until 06:00 UTC on 1 November (02:00 local time) the
    offset is -4 h, from then on -5 h; a local time in the hour that is
    passed twice is read with the earlier offset. *)
Definition newYork2026 (t : Z) (isUTC : bool) : Z :=
  if isUTC then
    if t <? 1793512800000 then -14400000 else -18000000
  else
    if t <? 1793498400000 then -14400000 else -18000000.

(** A rendering for examples. *)
Definition plain_rendering : rendering :=
  {| numberToString := fun _ => "n"; toFixed := fun _ _ => "n";
     JS.toISOString := fun _ => "t" |}.

(** The unit names written out in full, singular and plural. *)
Definition spelledUnits : list string :=
  [ "milliseconds"; "millisecond"; "seconds"; "second"; "minutes"; "minute";
    "hours"; "hour"; "days"; "day"; "weeks"; "week"; "months"; "month";
    "years"; "year" ].

End DateTimeHelper.

(** ** [lib/convert-units.js] *)

Module ConvertUnits.
Import JS.

Record unit_data : Type := { name : string; ratio : option Qc }.

Definition with_ratio (n : string) (r : Q) : unit_data :=
  {| name := n; ratio := Some (Q2Qc r) |}.
Definition without_ratio (n : string) : unit_data :=
  {| name := n; ratio := None |}.

(** The [conversions] table, in source order. *)
Definition conversions : list (string * list (string * unit_data)) :=
  [ ("length",
      [ ("m", with_ratio "meter" 1);
        ("km", with_ratio "kilometer" 1000);
        ("cm", with_ratio "centimeter" 0.01);
        ("mm", with_ratio "millimeter" 0.001);
        ("in", with_ratio "inch" 0.0254);
        ("ft", with_ratio "foot" 0.3048);
        ("yd", with_ratio "yard" 0.9144);
        ("mi", with_ratio "mile" 1609.344) ]);
    ("mass",
      [ ("g", with_ratio "gram" 1);
        ("kg", with_ratio "kilogram" 1000);
        ("lb", with_ratio "pound" 453.592);
        ("oz", with_ratio "ounce" 28.3495);
        ("ton", with_ratio "ton" 1000000) ]);
    ("volume",
      [ ("l", with_ratio "liter" 1);
        ("ml", with_ratio "milliliter" 0.001);
        ("gal", with_ratio "gallon" 3.78541);
        ("qt", with_ratio "quart" 0.946353);
        ("pt", with_ratio "pint" 0.473176);
        ("cup", with_ratio "cup" 0.236588);
        ("fl-oz", with_ratio "fluid ounce" 0.0295735) ]);
    ("temperature",
      [ ("C", without_ratio "Celsius");
        ("F", without_ratio "Fahrenheit");
        ("K", without_ratio "Kelvin");
        ("R", without_ratio "Rankine") ]);
    ("time",
      [ ("s", with_ratio "second" 1);
        ("min", with_ratio "minute" 60);
        ("h", with_ratio "hour" 3600);
        ("d", with_ratio "day" 86400);
        ("week", with_ratio "week" 604800);
        ("month", with_ratio "month" 2629746);
        ("year", with_ratio "year" 31556952) ]);
    ("area",
      [ ("m2", with_ratio "square meter" 1);
        ("km2", with_ratio "square kilometer" 1000000);
        ("cm2", with_ratio "square centimeter" 0.0001);
        ("in2", with_ratio "square inch" 0.00064516);
        ("ft2", with_ratio "square foot" 0.092903);
        ("yd2", with_ratio "square yard" 0.836127);
        ("mi2", with_ratio "square mile" 2589988.11);
        ("acre", with_ratio "acre" 4046.86);
        ("hectare", with_ratio "hectare" 10000) ]) ].

Definition num (r : Q) : jsnum := Num (Q2Qc r).

(** [convertTemperature(value, from, to)] *)
Definition convertTemperature (value : jsnum) (from to : string)
  : completion jsnum :=
  if String.eqb from to then Normal value
  else
    let celsius :=
      if String.eqb from "C" then Normal value
      else if String.eqb from "F" then Normal (div (mul (sub value (num 32)) (num 5)) (num 9))
      else if String.eqb from "K" then Normal (sub value (num 273.15))
      else if String.eqb from "R" then Normal (div (mul (sub value (num 491.67)) (num 5)) (num 9))
      else Throw ("Unknown temperature unit: " ++ from) in
    match celsius with
    | Throw m => Throw m
    | Normal celsius =>
        if String.eqb to "C" then Normal celsius
        else if String.eqb to "F" then Normal (add (div (mul celsius (num 9)) (num 5)) (num 32))
        else if String.eqb to "K" then Normal (add celsius (num 273.15))
        else if String.eqb to "R" then Normal (add (div (mul celsius (num 9)) (num 5)) (num 491.67))
        else Throw ("Unknown temperature unit: " ++ to)
    end.

(** Truthiness of [units[unit]]: an own entry is an object, an inherited
    member a function or object. *)
Definition truthy {A : Type} (p : property A) : bool :=
  match p with
  | OwnProp _ | ProtoProp _ => true
  | Undefined => false
  end.

(** [findMeasure(unit)] over [Object.entries(conversions)]. *)
Fixpoint findMeasureIn (table : list (string * list (string * unit_data)))
  (unit : string) : option string :=
  match table with
  | [] => None
  | (measure, units) :: rest =>
      if truthy (get units unit) then Some measure else findMeasureIn rest unit
  end.

Definition findMeasure (unit : string) : option string :=
  findMeasureIn conversions unit.

(** [fromData.ratio] as a number: missing on a temperature entry and on
    an inherited member. *)
Definition ratio_of (p : property unit_data) : jsnum :=
  match p with
  | OwnProp d => of_optional (ratio d)
  | _ => NaN
  end.

(** [convert(value).from(fromUnit).to(unit)] *)
Definition to (value : jsnum) (fromUnit unit : string) : completion jsnum :=
  let value := or_zero value in
  if String.eqb fromUnit "" then Throw "Must specify from unit before to unit"
  else
    match findMeasure fromUnit with
    | None => Throw ("Unknown unit: " ++ fromUnit)
    | Some measure =>
        if String.eqb measure "temperature"
        then convertTemperature value fromUnit unit
        else
          let units := default [] (assoc measure conversions) in
          let fromData := get units fromUnit in
          let toData := get units unit in
          if negb (truthy fromData) || negb (truthy toData)
          then Throw ("Cannot convert from " ++ fromUnit ++ " to " ++ unit)
          else
            let baseValue := mul value (ratio_of fromData) in
            Normal (div baseValue (ratio_of toData))
    end.

Record description : Type := {
  measure : string;
  unit : string;
  data : option unit_data
}.

(** [describe(unit)]; spreading an inherited member adds no field. *)
Definition describe (u : string) : option description :=
  match findMeasure u with
  | None => None
  | Some m =>
      let d := match get (default [] (assoc m conversions)) u with
               | OwnProp d => Some d
               | _ => None
               end in
      Some {| measure := m; unit := u; data := d |}
  end.

(** *** Vocabulary of the statements about the table *)

(** A unit listed in the table under measure [m]. *)
Definition unit_of (m u : string) : Prop :=
  exists units d, assoc m conversions = Some units /\ assoc u units = Some d.

(** The ratio the table gives unit [u] of measure [m]. *)
Definition ratio_in (m u : string) : option Qc :=
  units ← assoc m conversions; d ← assoc u units; ratio d.

(** An entry is sound when [findMeasure] finds its unit under its own
    measure, the unit is not the empty string, and, outside temperature,
    it has a non-zero ratio. *)
Definition entry_ok (m : string) (p : string * unit_data) : bool :=
  bool_decide (findMeasure (fst p) = Some m)
  && negb (String.eqb (fst p) "")
  && (String.eqb m "temperature"
      || match ratio (snd p) with Some r => nonzero r | None => false end).

Definition measure_ok (p : string * list (string * unit_data)) : bool :=
  forallb (entry_ok (fst p)) (snd p).

(** *** The listing functions *)

(** An element of [list(measure)]: [{ abbr, measure, ...data }]. *)
Record listed : Type := {
  abbr : string;
  listed_measure : string;
  listed_data : unit_data
}.

(** [list(measure)]; a measure name that reaches an inherited member has
    no keys of its own to list. *)
Definition listUnits (m : string) : list listed :=
  match get conversions m with
  | OwnProp units =>
      map (fun p => {| abbr := fst p; listed_measure := m; listed_data := snd p |}) units
  | _ => []
  end.

(** [measures()]: [Object.keys(conversions)]. *)
Definition measures : list string := map fst conversions.

(** An entry's unit names no inherited member. *)
Definition entry_plain (p : string * unit_data) : bool :=
  match inherited (fst p) with Some _ => false | None => true end.

(** The ratio of an entry is positive (or absent). *)
Definition entry_positive (p : string * unit_data) : bool :=
  match ratio (snd p) with
  | Some r => bool_decide (Q2Qc 0 < r)%Qc
  | None => true
  end.

End ConvertUnits.

(** ** [lib/convert-units.js] in double arithmetic

    The conversions as the program computes them: the formulas of
    [ConvertUnits], every operation rounded to a double. *)

Module ConvertUnits64.
Import JS Double.
Import ConvertUnits (unit_data, ratio, conversions, findMeasure, truthy).
Local Open Scope Q_scope.

(** A numeric literal of the sources: the double nearest to the decimal. *)
Definition literal (decimal : Q) : double := round decimal.

(** [convertTemperature(value, from, to)] *)
Definition convertTemperature (value : double) (from to : string)
  : completion double :=
  if String.eqb from to then Normal value
  else
    let celsius :=
      if String.eqb from "C" then Normal value
      else if String.eqb from "F" then
        Normal (div (mul (sub value (literal 32)) (literal 5)) (literal 9))
      else if String.eqb from "K" then Normal (sub value (literal 273.15))
      else if String.eqb from "R" then
        Normal (div (mul (sub value (literal 491.67)) (literal 5)) (literal 9))
      else Throw ("Unknown temperature unit: " ++ from) in
    match celsius with
    | Throw m => Throw m
    | Normal celsius =>
        if String.eqb to "C" then Normal celsius
        else if String.eqb to "F" then
          Normal (add (div (mul celsius (literal 9)) (literal 5)) (literal 32))
        else if String.eqb to "K" then Normal (add celsius (literal 273.15))
        else if String.eqb to "R" then
          Normal (add (div (mul celsius (literal 9)) (literal 5)) (literal 491.67))
        else Throw ("Unknown temperature unit: " ++ to)
    end.

(** [value || 0]: zero and [NaN] are falsy. *)
Definition or_zero (v : double) : double :=
  match v with
  | Finite q => if Qeq_bool q 0 then Finite 0 else v
  | Infinity _ => v
  | NaN => Finite 0
  end.

(** The [ratio] of an entry as the program reads it: the literal of the
    table, and [undefined] (in arithmetic, [NaN]) where there is none. *)
Definition ratio64 (d : unit_data) : double :=
  match ratio d with
  | Some r => literal (this r)
  | None => NaN
  end.

Definition ratio_of (p : property unit_data) : double :=
  match p with
  | OwnProp d => ratio64 d
  | _ => NaN
  end.

(** [convert(value).from(fromUnit).to(unit)] *)
Definition to (value : double) (fromUnit unit : string) : completion double :=
  let value := or_zero value in
  if String.eqb fromUnit "" then Throw "Must specify from unit before to unit"
  else
    match findMeasure fromUnit with
    | None => Throw ("Unknown unit: " ++ fromUnit)
    | Some measure =>
        if String.eqb measure "temperature"
        then convertTemperature value fromUnit unit
        else
          let units := default [] (assoc measure conversions) in
          let fromData := get units fromUnit in
          let toData := get units unit in
          if negb (truthy fromData) || negb (truthy toData)
          then Throw ("Cannot convert from " ++ fromUnit ++ " to " ++ unit)
          else
            let baseValue := mul value (ratio_of fromData) in
            Normal (div baseValue (ratio_of toData))
    end.

(** *** Vocabulary of the error analysis *)

(** One operation with a constant operand. *)
Inductive step : Type :=
| Plus (c : Q)
| Minus (c : Q)
| Times (c : Q)
| Over (c : Q).

(** The operation as the program computes it, and over the rationals. *)
Definition computed (v : double) (s : step) : double :=
  match s with
  | Plus c => add v (Finite c)
  | Minus c => sub v (Finite c)
  | Times c => mul v (Finite c)
  | Over c => div v (Finite c)
  end.

Definition exactly (t : Q) (s : step) : Q :=
  match s with
  | Plus c => t + c
  | Minus c => t - c
  | Times c => t * c
  | Over c => t / c
  end.

Definition run (p : list step) (v : double) : double := fold_left computed p v.
Definition ideal (p : list step) (t : Q) : Q := fold_left exactly p t.

(** Bounds on a computed value [v] that stands for the exact value [t] of
    an input [x]: [|v - t| <= err_rel * |x| + err_abs] and
    [|t| <= size_rel * |x| + size_abs]. *)
Record bounds : Type := {
  err_rel : Q; err_abs : Q; size_rel : Q; size_abs : Q
}.

Definition exact_input : bounds :=
  {| err_rel := 0; err_abs := 0; size_rel := 1; size_abs := 0 |}.

Definition scaled (b : bounds) (k : Q) : bounds :=
  {| err_rel := err_rel b * k; err_abs := err_abs b * k;
     size_rel := size_rel b * k; size_abs := size_abs b * k |}.

(** The bounds before the rounding of a step. *)
Definition before_rounding (s : step) (b : bounds) : bounds :=
  match s with
  | Plus c | Minus c =>
      {| err_rel := err_rel b; err_abs := err_abs b;
         size_rel := size_rel b; size_abs := size_abs b + Qabs c |}
  | Times c => scaled b (Qabs c)
  | Over c => scaled b (/ Qabs c)
  end.

Definition divides_by_zero (s : step) : bool :=
  match s with
  | Over c => Qeq_bool c 0
  | _ => false
  end.

(** The bounds after a step, for inputs of magnitude at most [limit];
    [None] when the step may overflow or divides by zero. *)
Definition after (limit : Q) (b : option bounds) (s : step) : option bounds :=
  match b with
  | None => None
  | Some b =>
      let b' := before_rounding s b in
      let reach_rel := size_rel b' + err_rel b' in
      let reach_abs := size_abs b' + err_abs b' in
      if negb (divides_by_zero s)
         && Qle_bool (reach_rel * limit + reach_abs) overflowThreshold
      then Some {| err_rel := Qred (err_rel b' + unitRoundoff * reach_rel);
                   err_abs := Qred (err_abs b' + unitRoundoff * reach_abs + halfMinimum);
                   size_rel := Qred (size_rel b');
                   size_abs := Qred (size_abs b') |}
      else None
  end.

Definition through (limit : Q) (p : list step) (b : option bounds) : option bounds :=
  fold_left (after limit) p b.

Definition value_of (d : double) : Q :=
  match d with Finite q => q | _ => 0 end.

(** The doubles of the literals [273.15] and [491.67]. *)
Definition kelvinOffset : Q := Eval vm_compute in value_of (literal 273.15).
Definition rankineOffset : Q := Eval vm_compute in value_of (literal 491.67).

(** The steps of [convertTemperature] to and from Celsius. *)
Definition to_celsius (from : string) : list step :=
  if String.eqb from "F" then [Minus 32; Times 5; Over 9]
  else if String.eqb from "K" then [Minus kelvinOffset]
  else if String.eqb from "R" then [Minus rankineOffset; Times 5; Over 9]
  else [].

Definition from_celsius (to : string) : list step :=
  if String.eqb to "F" then [Times 9; Over 5; Plus 32]
  else if String.eqb to "K" then [Plus kelvinOffset]
  else if String.eqb to "R" then [Times 9; Over 5; Plus rankineOffset]
  else [].

Definition temperature_steps (from to : string) : list step :=
  if String.eqb from to then [] else to_celsius from ++ from_celsius to.

(** The steps of a conversion by ratios. *)
Definition ratio_steps (cFrom cTo : Q) : list step := [Times cFrom; Over cTo].

(** The steps of the conversion from [A] to [B], units of measure [m]. *)
Definition conversion_steps (m A B : string) : option (list step) :=
  if String.eqb m "temperature" then Some (temperature_steps A B)
  else
    let units := default [] (assoc m conversions) in
    match ratio_of (get units A), ratio_of (get units B) with
    | Finite cA, Finite cB => Some (ratio_steps cA cB)
    | _, _ => None
    end.

(** The bounds of a round trip on inputs of magnitude at most [limit]. *)
Definition round_trip_bounds (limit : Q) (there back : list step) : option bounds :=
  through limit back (through limit there (Some exact_input)).

(** Over the rationals a list of steps is an affine map [t => a * t + b];
    [affine] computes the pair [(a, b)]. *)
Definition affine_after (f : Q * Q) (s : step) : Q * Q :=
  match s with
  | Plus c => (fst f, snd f + c)
  | Minus c => (fst f, snd f - c)
  | Times c => (fst f * c, snd f * c)
  | Over c => (fst f / c, snd f / c)
  end.

Definition affine (p : list step) : Q * Q := fold_left affine_after p (1, 0).

(** The largest magnitude the statements consider: [2 ^ 980]. *)
Definition limit : Q := Eval vm_compute in 2 ^ 980.

Definition fahrenheit_rankine (A B : string) : bool :=
  (String.eqb A "F" && String.eqb B "R") || (String.eqb A "R" && String.eqb B "F").

(** The tolerances of the statements, checked on computed bounds. *)
Definition tolerance_ok (m A B : string) (b : bounds) : bool :=
  if String.eqb m "temperature" then
    Qle_bool (err_rel b) (2 ^ (-49)) && Qle_bool (err_abs b) (2 ^ (-39))
    && (fahrenheit_rankine A B
        || Qle_bool (err_rel b * 1000000 + err_abs b) (1 # 1000000000))
  else Qle_bool (err_rel b) (2 ^ (-50)) && Qle_bool (err_abs b) (2 ^ (-1030)).

(** The round trip from [A] to [B] and back: no step divides by zero,
    over the rationals the steps compose to the identity, and the
    computed bounds are within the tolerances. *)
Definition round_trip_ok (m A B : string) : bool :=
  match conversion_steps m A B, conversion_steps m B A with
  | Some there, Some back =>
      negb (existsb divides_by_zero (there ++ back))
      && Qeq_bool (fst (affine (there ++ back))) 1
      && Qeq_bool (snd (affine (there ++ back))) 0
      && match round_trip_bounds limit there back with
         | Some b => tolerance_ok m A B b
         | None => false
         end
  | _, _ => false
  end.

Definition measure_round_trips (p : string * list (string * unit_data)) : bool :=
  forallb (fun a => forallb (fun b => round_trip_ok (fst p) (fst a) (fst b)) (snd p))
    (snd p).

Definition well_formed (b : bounds) : Prop :=
  0 <= err_rel b /\ 0 <= err_abs b /\ 0 <= size_rel b /\ 0 <= size_abs b.

(** [v] stands for [t] within the bounds [b], for the input [x]. *)
Definition within (b : bounds) (x v t : Q) : Prop :=
  well_formed b
  /\ Qabs (v - t) <= err_rel b * Qabs x + err_abs b
  /\ Qabs t <= size_rel b * Qabs x + size_abs b.

End ConvertUnits64.

(** ** [unitConverter.js] (with the library loaded) *)

Module UnitConverter.
Import JS.

Record parsed : Type := { value : Qc; fromUnit : string; toUnit : string }.

Inductive result : Type :=
| ParseFailure (error query : string)
| Rejected (error query : string) (p : parsed)
| Converted (result : jsnum) (fromValue : Qc) (fromUnit toUnit formatted : string)
| Failed (error : string) (fromValue : Qc) (fromUnit toUnit : string).

Definition success (r : result) : bool :=
  match r with Converted _ _ _ _ _ => true | _ => false end.

Definition error_of (r : result) : option string :=
  match r with
  | ParseFailure e _ | Rejected e _ _ | Failed e _ _ _ => Some e
  | Converted _ _ _ _ _ => None
  end.

(** [canConvert(fromUnit, toUnit)] *)
Definition canConvert (fromUnit toUnit : string) : bool :=
  match ConvertUnits.describe fromUnit, ConvertUnits.describe toUnit with
  | Some f, Some t => String.eqb (ConvertUnits.measure f) (ConvertUnits.measure t)
  | _, _ => false
  end.

Definition tempMappings : list (string * string) :=
  [ ("°c", "C"); ("celsius", "C"); ("c", "C");
    ("°f", "F"); ("fahrenheit", "F"); ("f", "F");
    ("°k", "K"); ("kelvin", "K"); ("k", "K") ].

Definition unitMappings : list (string * string) :=
  [ ("meter", "m"); ("meters", "m"); ("metre", "m"); ("metres", "m");
    ("kilometer", "km"); ("kilometers", "km"); ("kilometre", "km"); ("kilometres", "km");
    ("mile", "mi"); ("miles", "mi");
    ("foot", "ft"); ("feet", "ft");
    ("inch", "in"); ("inches", "in");
    ("yard", "yd"); ("yards", "yd");
    ("kilogram", "kg"); ("kilograms", "kg");
    ("gram", "g"); ("grams", "g");
    ("pound", "lb"); ("pounds", "lb");
    ("ounce", "oz"); ("ounces", "oz");
    ("liter", "l"); ("liters", "l"); ("litre", "l"); ("litres", "l");
    ("gallon", "gal"); ("gallons", "gal");
    ("cup", "cup"); ("cups", "cup");
    ("celsius", "C"); ("fahrenheit", "F"); ("kelvin", "K") ].

(** [mappings[unit.toLowerCase()] || unit]; an inherited member is
    represented by the string it converts to. *)
Definition lookup_or (mappings : list (string * string)) (unit : string) : string :=
  match get mappings (toLowerCase unit) with
  | OwnProp v => v
  | ProtoProp r => r
  | Undefined => unit
  end.

Definition normalizeTemperatureUnit (unit : string) : string :=
  lookup_or tempMappings unit.

Definition normalizeUnit (unit : string) : string :=
  let tempUnit := normalizeTemperatureUnit unit in
  if negb (String.eqb tempUnit unit) then tempUnit
  else lookup_or unitMappings unit.

Section Rendering.
Variable fmt : rendering.
Variable parseConversionQuery : string -> option parsed.

(** [convertUnits(value, fromUnit, toUnit)] *)
Definition convertUnits (v : Qc) (fromUnit toUnit : string) : result :=
  match ConvertUnits.to (Num v) fromUnit toUnit with
  | Normal r =>
      Converted r v fromUnit toUnit
        (numberToString fmt (Num v) ++ " " ++ fromUnit ++ " = "
         ++ toFixed fmt 6 r ++ " " ++ toUnit)
  | Throw m => Failed m v fromUnit toUnit
  end.

(** [handleConversion(query)] *)
Definition handleConversion (query : string) : result :=
  match parseConversionQuery query with
  | None => ParseFailure "Could not parse unit conversion from query" query
  | Some p =>
      let fromUnit := normalizeUnit (fromUnit p) in
      let toUnit := normalizeUnit (toUnit p) in
      if negb (canConvert fromUnit toUnit)
      then Rejected
             ("Cannot convert from " ++ fromUnit ++ " to " ++ toUnit
              ++ ". Units may be incompatible or not supported.")
             query
             {| value := value p; fromUnit := fromUnit; toUnit := toUnit |}
      else convertUnits (value p) fromUnit toUnit
  end.
End Rendering.

(** [getUnitsForMeasure(measure)] and [getSupportedMeasures()]; the calls
    they guard do not throw. *)
Definition getUnitsForMeasure (m : string) : list ConvertUnits.listed :=
  ConvertUnits.listUnits m.

Definition getSupportedMeasures : list string := ConvertUnits.measures.

(** The aliases [normalizeUnit] knows, temperature first. *)
Definition aliases : list (string * string) := (tempMappings ++ unitMappings)%list.

Definition alias_ok (p : string * string) : bool :=
  bool_decide (ConvertUnits.findMeasure (snd p) <> None)
  && match inherited (snd p) with Some _ => false | None => true end
  && match get aliases (fst p) with
     | OwnProp v => String.eqb v (snd p)
     | _ => false
     end.

End UnitConverter.

(** ** [currencyConverter.js] *)

Module CurrencyConverter.
Import JS.

(** A cache entry [{ rate, timestamp }]. *)
Record entry : Type := { rate : Qc; timestamp : Z }.

(** What the converter does to the outside, in order. *)
Inductive event : Type :=
| Fetch (url : string)
| CacheGet (key : string)
| CacheSet (key : string) (e : entry).

(** The state a call runs in: the [cache] map, the wall clock
    ([Date.now()], in ms) and the events so far. *)
Record world : Type := {
  cache : gmap string entry;
  clock : Z;
  trace : list event
}.

(** What a [fetch] of the rates endpoint can come back with: a rejected
    request, a status that is not ok, a body that does not parse (or is
    not an object), or the parsed body's [rates], if it has any.  [rates]
    is read with an upper-case key only, so its own entries decide. *)
Inductive response : Type :=
| NetworkError (message : string)
| HttpError (status : Z) (statusText : string)
| InvalidBody (message : string)
| Json (rates : option (gmap string Qc)).

Record reply : Type := { answer : response; latency : N }.

(** Stateful, fallible computations. *)
Definition M (A : Type) : Type := world -> completion A * world.

Definition ret {A : Type} (a : A) : M A := fun w => (Normal a, w).
Definition throw {A : Type} (m : string) : M A := fun w => (Throw m, w).
Definition bind {A B : Type} (c : M A) (k : A -> M B) : M B :=
  fun w =>
    match c w with
    | (Normal a, w') => k a w'
    | (Throw m, w') => (Throw m, w')
    end.
(** [try { body } catch (error) { handler(error.message) }] *)
Definition try_catch {A : Type} (body : M A) (handler : string -> M A) : M A :=
  fun w =>
    match body w with
    | (Normal a, w') => (Normal a, w')
    | (Throw m, w') => handler m w'
    end.

Notation "x <- c ;; k" := (bind c (fun x => k))
  (at level 100, c at next level, right associativity).

Definition emit (e : event) : M () :=
  fun w => (Normal (), {| cache := cache w; clock := clock w; trace := (trace w ++ [e])%list |}).

(** [Date.now()] *)
Definition now : M Z := fun w => (Normal (clock w), w).

(** [this.cache.get(key)] *)
Definition cache_get (key : string) : M (option entry) :=
  _ <- emit (CacheGet key) ;;
  fun w => (Normal (cache w !! key), w).

(** [this.cache.set(key, e)] *)
Definition cache_set (key : string) (e : entry) : M () :=
  _ <- emit (CacheSet key e) ;;
  fun w => (Normal (), {| cache := <[key := e]> (cache w); clock := clock w; trace := trace w |}).

Definition apiBaseUrl : string := "https://api.exchangerate-api.com/v4/latest".
Definition cacheTimeout : Z := 10 * 60 * 1000.

(** The hardcoded [fallbackRates].  The table is read with an upper-case
    key, which names no inherited member, so the own entries decide. *)
Definition fallbackRates : list (string * Qc) :=
  [ ("USD-EUR", Q2Qc 0.85); ("EUR-USD", Q2Qc 1.18);
    ("USD-GBP", Q2Qc 0.73); ("GBP-USD", Q2Qc 1.37);
    ("USD-JPY", Q2Qc 110.0); ("JPY-USD", Q2Qc 0.009);
    ("EUR-GBP", Q2Qc 0.86); ("GBP-EUR", Q2Qc 1.16);
    ("USD-CAD", Q2Qc 1.25); ("CAD-USD", Q2Qc 0.80);
    ("USD-AUD", Q2Qc 1.35); ("AUD-USD", Q2Qc 0.74) ].

(** [getFallbackRate(fromCurrency, toCurrency)]: [fallbackRates[key] || null] *)
Definition getFallbackRate (fromCurrency toCurrency : string) : option Qc :=
  let from := toUpperCase fromCurrency in
  let to := toUpperCase toCurrency in
  match assoc (from ++ "-" ++ to) fallbackRates with
  | Some r => if nonzero r then Some r else None
  | None => None
  end.

Record result : Type := {
  success : bool;
  result_value : option Qc;
  result_rate : option Qc;
  error : option string;
  fromAmount : Qc;
  fromCurrency : string;
  toCurrency : string;
  formatted : option string;
  result_timestamp : option string
}.

(** The key of a pair in the cache. *)
Definition cacheKey (fromCurrency toCurrency : string) : string :=
  toLowerCase fromCurrency ++ "-" ++ toLowerCase toCurrency.

(** The address [getExchangeRate] requests. *)
Definition rateUrl (fromCurrency : string) : string :=
  apiBaseUrl ++ "/" ++ toUpperCase fromCurrency.

Section Host.
(** The network: what a request for [url] issued at time [t] returns,
    and after how long. *)
Variable network : string -> Z -> reply.
Variable fmt : rendering.

(** [await fetch(url)] followed by [await response.json()]. *)
Definition fetch (url : string) : M response :=
  _ <- emit (Fetch url) ;;
  fun w =>
    let r := network url (clock w) in
    (Normal (answer r),
     {| cache := cache w; clock := clock w + Z.of_N (latency r); trace := trace w |}).

(** The body of the [try] block of [getExchangeRate]. *)
Definition fetchRate (cacheKey fromCurrency toCurrency : string) : M Qc :=
  resp <- fetch (apiBaseUrl ++ "/" ++ toUpperCase fromCurrency) ;;
  match resp with
  | NetworkError m => throw m
  | HttpError status statusText =>
      throw ("HTTP " ++ pretty status ++ ": " ++ statusText)
  | InvalidBody m => throw m
  | Json rates =>
      match rates ≫= (fun r => r !! toUpperCase toCurrency) with
      | Some rate =>
          if nonzero rate then
            t <- now ;;
            _ <- cache_set cacheKey {| rate := rate; timestamp := t |} ;;
            ret rate
          else
            throw ("Exchange rate not available for " ++ fromCurrency
                   ++ " to " ++ toCurrency)
      | None =>
          throw ("Exchange rate not available for " ++ fromCurrency
                 ++ " to " ++ toCurrency)
      end
  end.

(** The [catch] block of [getExchangeRate]. *)
Definition fallback (fromCurrency toCurrency message : string) : M Qc :=
  match getFallbackRate fromCurrency toCurrency with
  | Some fallbackRate => ret fallbackRate
  | None => throw message
  end.

(** [cached && Date.now() - cached.timestamp < this.cacheTimeout] *)
Definition usable (cached : option entry) (t : Z) : option entry :=
  match cached with
  | Some c => if t - timestamp c <? cacheTimeout then Some c else None
  | None => None
  end.

(** [getExchangeRate(fromCurrency, toCurrency)] *)
Definition getExchangeRate (fromCurrency toCurrency : string) : M Qc :=
  let cacheKey := toLowerCase fromCurrency ++ "-" ++ toLowerCase toCurrency in
  cached <- cache_get cacheKey ;;
  t <- now ;;
  match usable cached t with
  | Some c => ret (rate c)
  | None =>
      try_catch (fetchRate cacheKey fromCurrency toCurrency)
        (fallback fromCurrency toCurrency)
  end.

(** [convertCurrency(amount, fromCurrency, toCurrency)] *)
Definition convertCurrency (amount : Qc) (fromCurrency toCurrency : string)
  : M result :=
  try_catch
    (if String.eqb (toLowerCase fromCurrency) (toLowerCase toCurrency) then
       ret {| success := true;
              result_value := Some amount;
              result_rate := Some (Q2Qc 1);
              error := None;
              fromAmount := amount;
              fromCurrency := toUpperCase fromCurrency;
              toCurrency := toUpperCase toCurrency;
              formatted :=
                Some (numberToString fmt (Num amount) ++ " " ++ toUpperCase fromCurrency
                      ++ " = " ++ numberToString fmt (Num amount) ++ " "
                      ++ toUpperCase toCurrency);
              result_timestamp := None |}
     else
       rate <- getExchangeRate fromCurrency toCurrency ;;
       let result := (amount * rate)%Qc in
       t <- now ;;
       ret {| success := true;
              result_value := Some result;
              result_rate := Some rate;
              error := None;
              fromAmount := amount;
              fromCurrency := toUpperCase fromCurrency;
              toCurrency := toUpperCase toCurrency;
              formatted :=
                Some (numberToString fmt (Num amount) ++ " " ++ toUpperCase fromCurrency
                      ++ " = " ++ toFixed fmt 2 (Num result) ++ " "
                      ++ toUpperCase toCurrency);
              result_timestamp := Some (toISOString fmt t) |})
    (fun message =>
       ret {| success := false;
              result_value := None;
              result_rate := None;
              error := Some message;
              fromAmount := amount;
              fromCurrency := fromCurrency;
              toCurrency := toCurrency;
              formatted := None;
              result_timestamp := None |}).

(** What the request for [fromCurrency] issued in [w] comes back with,
    and the time it arrives. *)
Definition answered (w : world) (fromCurrency : string) : reply :=
  network (rateUrl fromCurrency) (clock w).

Definition arrival (w : world) (fromCurrency : string) : Z :=
  clock w + Z.of_N (latency (answered w fromCurrency)).

End Host.

(** *** Vocabulary of the statements about the rate lookup *)

(** The entry the cache holds for [key], when it is younger than ten
    minutes at the time of [w]. *)
Definition fresh (w : world) (key : string) : option entry :=
  match cache w !! key with
  | Some c => if clock w - timestamp c <? cacheTimeout then Some c else None
  | None => None
  end.

(** The rate a response carries for the target currency, when the fetch
    succeeded and the rate is there (and truthy). *)
Definition fetched_rate (resp : response) (toCurrency : string) : option Qc :=
  match resp with
  | Json (Some rates) =>
      match rates !! toUpperCase toCurrency with
      | Some r => if nonzero r then Some r else None
      | None => None
      end
  | _ => None
  end.

(** The message of the error raised otherwise. *)
Definition failure_message (resp : response) (fromCurrency toCurrency : string)
  : string :=
  match resp with
  | NetworkError m => m
  | HttpError status statusText => "HTTP " ++ pretty status ++ ": " ++ statusText
  | InvalidBody m => m
  | Json _ => "Exchange rate not available for " ++ fromCurrency ++ " to " ++ toCurrency
  end.

(** The requests among some events. *)
Definition is_fetch (e : event) : bool :=
  match e with Fetch _ => true | _ => false end.

Definition fetches (es : list event) : list event := List.filter is_fetch es.

(** The events a run added to the trace. *)
Definition added (before after : world) : list event :=
  skipn (length (trace before)) (trace after).

Definition failed (message : string) (amount : Qc) (fromCurrency toCurrency : string)
  : result :=
  {| success := false; result_value := None; result_rate := None;
     error := Some message; fromAmount := amount;
     fromCurrency := fromCurrency; toCurrency := toCurrency;
     formatted := None; result_timestamp := None |}.

(** A network that is down, and a world fresh from the constructor. *)
Definition offline (url : string) (t : Z) : reply :=
  {| answer := NetworkError "Failed to fetch"; latency := 40 |}.

(** A server that answers 503, and one that serves euro rates. *)
Definition unavailable (url : string) (t : Z) : reply :=
  {| answer := HttpError 503 "Service Unavailable"; latency := 200 |}.

Definition serving (url : string) (t : Z) : reply :=
  {| answer := Json (Some {[ "USD" := Q2Qc 1.08; "GBP" := Q2Qc 0.84 ]});
     latency := 150 |}.

Definition plain : rendering :=
  {| numberToString := fun _ => "n"; toFixed := fun _ _ => "n";
     toISOString := fun _ => "t" |}.

Definition started (t : Z) : world := {| cache := ∅; clock := t; trace := [] |}.

(** *** The remaining methods of [CurrencyConverter] *)

(** The list of [initializeCommonCurrencies]. *)
Definition commonCurrencies : list string :=
  [ "USD"; "EUR"; "GBP"; "JPY"; "CAD"; "AUD"; "CHF"; "CNY"; "INR"; "KRW";
    "SEK"; "NOK"; "DKK"; "PLN"; "CZK"; "HUF"; "BGN"; "RON"; "HRK";
    "RUB"; "TRY"; "BRL"; "MXN"; "ARS"; "CLP"; "COP"; "PEN";
    "ZAR"; "EGP"; "MAD"; "NGN"; "KES"; "GHS";
    "AED"; "SAR"; "QAR"; "KWD"; "BHD"; "OMR";
    "SGD"; "HKD"; "TWD"; "THB"; "MYR"; "IDR"; "PHP"; "VND" ].

(** [supportedCurrencies] after [initializeCommonCurrencies()] ran on the
    constructor's empty set. *)
Definition initializeCommonCurrencies : gset string :=
  foldl (fun s currency => {[ toLowerCase currency ]} ∪ s) ∅ commonCurrencies.

Definition currencyMappings : list (string * string) :=
  [ ("dollar", "USD"); ("dollars", "USD");
    ("euro", "EUR"); ("euros", "EUR");
    ("pound", "GBP"); ("pounds", "GBP");
    ("yen", "JPY"); ("yuan", "CNY"); ("won", "KRW");
    ("rupee", "INR"); ("rupees", "INR") ].

(** What a lookup that may reach an inherited member hands on: a string,
    or the member itself (not a string: it has no string methods). *)
Inductive value : Type :=
| Text (s : string)
| Member (rendering : string).

(** [normalizeCurrency(currency)]: [currencyMappings[lower] || upper]. *)
Definition normalizeCurrency (currency : string) : value :=
  match get currencyMappings (toLowerCase currency) with
  | OwnProp code => Text code
  | ProtoProp r => Member r
  | Undefined => Text (toUpperCase currency)
  end.

(** [isCurrencySupported(currency)] on the set [supported]; calling
    [toLowerCase] on a member that is no string throws. *)
Definition isCurrencySupported (supported : gset string) (currency : string)
  : completion bool :=
  match normalizeCurrency currency with
  | Text normalizedCurrency =>
      Normal (bool_decide (toLowerCase normalizedCurrency ∈ supported)
              || bool_decide (toLowerCase currency ∈ supported))
  | Member _ => Throw "normalizedCurrency.toLowerCase is not a function"
  end.

(** [clearCache()] *)
Definition clearCache : M () :=
  fun w => (Normal (), {| cache := ∅; clock := clock w; trace := trace w |}).

(** What [parseCurrencyQuery] extracts. *)
Record parsed : Type := {
  amount : Qc;
  parsedFrom : string;
  parsedTo : string
}.

(** What [handleConversion] returns: the two early failures, or the
    result of [convertCurrency]. *)
Inductive handled : Type :=
| Unparsed (error query : string)
| Unsupported (error query : string) (p : parsed)
| Handled (r : result).

Section Methods.
Variable network : string -> Z -> reply.
Variable fmt : rendering.
Variable parseCurrencyQuery : string -> option parsed.

(** [loadSupportedCurrencies()] on the set [supported]: the set
    afterwards.  Every failure is caught and leaves the set alone. *)
Definition loadSupportedCurrencies (supported : gset string) : M (gset string) :=
  try_catch
    (resp <- fetch network (apiBaseUrl ++ "/USD") ;;
     match resp with
     | NetworkError m => throw m
     | HttpError status statusText =>
         throw ("HTTP " ++ pretty status ++ ": " ++ statusText)
     | InvalidBody m => throw m
     | Json (Some rates) =>
         ret ({[ "usd" ]} ∪ (set_map toLowerCase (dom rates) ∪ supported))
     | Json None => throw "API response format invalid"
     end)
    (fun _ => ret supported).

(** [handleConversion(query)] with the set [supported]. *)
Definition handleConversion (supported : gset string) (query : string) : M handled :=
  match parseCurrencyQuery query with
  | None => ret (Unparsed "Could not parse currency conversion from query" query)
  | Some p =>
      let unsupported :=
        ret (Unsupported
               ("Unsupported currency. From: " ++ parsedFrom p ++ ", To: " ++ parsedTo p)
               query p) in
      match isCurrencySupported supported (parsedFrom p) with
      | Throw m => throw m
      | Normal false => unsupported
      | Normal true =>
          match isCurrencySupported supported (parsedTo p) with
          | Throw m => throw m
          | Normal false => unsupported
          | Normal true =>
              r <- convertCurrency network fmt (amount p) (parsedFrom p) (parsedTo p) ;;
              ret (Handled r)
          end
      end
  end.
End Methods.

(** The currency tokens the patterns of [parseCurrencyQuery] accept, in
    lowercase (the patterns ignore case). *)
Definition currencyTokens : list string :=
  [ "usd"; "eur"; "gbp"; "jpy"; "cad"; "aud"; "chf"; "cny"; "inr"; "krw";
    "dollar"; "dollars"; "euro"; "euros"; "pound"; "pounds";
    "yen"; "yuan"; "won"; "rupee"; "rupees" ].

(** Every cached entry was stamped no later than the clock reads. *)
Definition stamped (w : world) : Prop :=
  forall k e, cache w !! k = Some e -> timestamp e <= clock w.

End CurrencyConverter.

(** ** [agent.js]: the conversation history of [SmartConverterAgent] *)

Module Agent.
Import JS.

(** A history entry [{ role, parts: [{ text }] }]. *)
Record message : Type := { role : string; text : string }.

(** [a.slice(-n)] *)
Definition slice_last {A : Type} (n : nat) (a : list A) : list A :=
  skipn (length a - n) a.

Section Steps.
(** The three awaited steps; each reads the history it is given and
    may throw. *)
Context {A T : Type}.
Variable analyzeQuery : list message -> string -> completion A.
Variable executeToolCalls : string -> A -> completion T.
Variable generateFinalResponse : list message -> string -> T -> completion string.

Inductive outcome : Type :=
| Answered (query : string) (analysis : A) (toolResults : T) (finalResponse : string)
| Errored (query error finalResponse : string).

Definition errored (userQuery m : string) : outcome :=
  Errored userQuery m ("I encountered an error processing your request: " ++ m).

(** [processQuery(userQuery)] on the history [h]: the value returned
    and the history afterwards. *)
Definition processQuery (h : list message) (userQuery : string)
  : outcome * list message :=
  match analyzeQuery h userQuery with
  | Throw m => (errored userQuery m, h)
  | Normal analysis =>
      match executeToolCalls userQuery analysis with
      | Throw m => (errored userQuery m, h)
      | Normal toolResults =>
          match generateFinalResponse h userQuery toolResults with
          | Throw m => (errored userQuery m, h)
          | Normal finalResponse =>
              let h1 := (h ++ [ {| role := "user"; text := userQuery |};
                                {| role := "model"; text := finalResponse |} ])%list in
              let h2 := if (10 <? length h1)%nat then slice_last 10 h1 else h1 in
              (Answered userQuery analysis toolResults finalResponse, h2)
          end
      end
  end.

(** What a session does with the agent. *)
Inductive request : Type :=
| Query (userQuery : string)
| ClearHistory.

Definition step (h : list message) (r : request) : list message :=
  match r with
  | Query q => snd (processQuery h q)
  | ClearHistory => []
  end.

(** The history after a session, from the constructor's empty one. *)
Definition session (rs : list request) : list message :=
  fold_left step rs [].

(** *** Vocabulary of the statements about the history *)

(** The two entries of one exchange. *)
Definition exchange (userQuery finalResponse : string) : list message :=
  [ {| role := "user"; text := userQuery |};
    {| role := "model"; text := finalResponse |} ].

(** The session replayed from history [h], keeping next to the history
    the untrimmed record [full] of every answered exchange since the
    last clearing. *)
Fixpoint replay (h full : list message) (rs : list request)
  : list message * list message :=
  match rs with
  | [] => (h, full)
  | ClearHistory :: rs' => replay [] [] rs'
  | Query q :: rs' =>
      match processQuery h q with
      | (Answered _ _ _ f, h') => replay h' (full ++ exchange q f)%list rs'
      | (Errored _ _ _, h') => replay h' full rs'
      end
  end.
End Steps.

(** *** The three steps of [processQuery]

    The model is reached through [callLLM], which returns the text of
    the answer or throws.  The prompts, [JSON.parse] and the tools are
    taken as given; [J] is a parsed JSON object, of which only the
    truthiness of a property is used ([flag]), and [R] is the result of a
    tool, with the truthiness of its [success], its [formatted] when
    that is truthy, and its [JSON.stringify].  Logging is left out. *)

(** [s.includes(k)] *)
Fixpoint includes (k s : string) : bool :=
  String.prefix k s
  || match s with
     | EmptyString => false
     | String _ r => includes k r
     end.

Definition unitKeywords : list string :=
  [ "convert"; "miles"; "km"; "pounds"; "kg"; "celsius"; "fahrenheit"; "feet";
    "meters"; "liters"; "gallons" ].
Definition currencyKeywords : list string :=
  [ "usd"; "eur"; "gbp"; "jpy"; "dollars"; "euros"; "pounds"; "currency" ].
Definition dateTimeKeywords : list string :=
  [ "days"; "date"; "time"; "ago"; "from now"; "until"; "timezone";
    "christmas"; "today" ].

Record keywordAnalysis : Type := {
  needsUnitConversion : bool;
  needsCurrencyConversion : bool;
  needsDateTimeCalculation : bool;
  reasoning : string
}.

(** [fallbackAnalysis(query)] *)
Definition fallbackAnalysis (query : string) : keywordAnalysis :=
  let lowerQuery := toLowerCase query in
  {| needsUnitConversion :=
       existsb (fun keyword => includes keyword lowerQuery) unitKeywords;
     needsCurrencyConversion :=
       existsb (fun keyword => includes keyword lowerQuery) currencyKeywords;
     needsDateTimeCalculation :=
       existsb (fun keyword => includes keyword lowerQuery) dateTimeKeywords;
     reasoning := "Fallback keyword-based analysis" |}.

(** The match of [/\{[\s\S]*\}/]: from the first opening brace to the
    last closing brace after it. *)
Fixpoint upToLastBrace (s : string) : option string :=
  match s with
  | EmptyString => None
  | String c r =>
      match upToLastBrace r with
      | Some p => Some (String c p)
      | None => if Ascii.eqb c "}" then Some (String c EmptyString) else None
      end
  end.

Fixpoint jsonMatch (s : string) : option string :=
  match s with
  | EmptyString => None
  | String c r =>
      if Ascii.eqb c "{" then
        match upToLastBrace r with
        | Some p => Some (String c p)
        | None => jsonMatch r
        end
      else jsonMatch r
  end.

(** [tool.charAt(0).toUpperCase() + tool.slice(1)] *)
Definition capitalize (s : string) : string :=
  match s with
  | EmptyString => EmptyString
  | String c r => String (upper_char c) r
  end.

Definition newline : string := String "010"%char EmptyString.

(** [a.join(sep)] *)
Fixpoint join (sep : string) (a : list string) : string :=
  match a with
  | [] => ""
  | [x] => x
  | x :: r => x ++ sep ++ join sep r
  end.

Section Loop.
Context {J R : Type}.
Variable callLLM : string -> list message -> completion string.
Variable analysisPrompt : string -> string.
Variable responsePrompt : string -> list (string * R) -> string.
Variable parseJSON : string -> completion J.
Variable flag : J -> string -> bool.
Variable success : R -> bool.
Variable formatted : R -> option string.
Variable stringify : R -> string.
Variable unitTool currencyTool dateTimeTool : string -> completion R.

(** What [analyzeQuery] returns: the object the model sent, or the
    keyword analysis. *)
Inductive analysis : Type :=
| FromModel (j : J)
| FromKeywords (a : keywordAnalysis).

(** [analyzeQuery(query)] on the history [h]; whatever is thrown inside
    is caught. *)
Definition analyzeQuery (h : list message) (query : string) : analysis :=
  match callLLM (analysisPrompt query) h with
  | Throw _ => FromKeywords (fallbackAnalysis query)
  | Normal response =>
      match jsonMatch response with
      | Some text =>
          match parseJSON text with
          | Normal j => FromModel j
          | Throw _ => FromKeywords (fallbackAnalysis query)
          end
      | None => FromKeywords (fallbackAnalysis query)
      end
  end.

Definition needsUnit (a : analysis) : bool :=
  match a with
  | FromModel j => flag j "needsUnitConversion"
  | FromKeywords k => needsUnitConversion k
  end.

Definition needsCurrency (a : analysis) : bool :=
  match a with
  | FromModel j => flag j "needsCurrencyConversion"
  | FromKeywords k => needsCurrencyConversion k
  end.

Definition needsDateTime (a : analysis) : bool :=
  match a with
  | FromModel j => flag j "needsDateTimeCalculation"
  | FromKeywords k => needsDateTimeCalculation k
  end.

(** One [if] of [executeToolCalls]: the awaited call and the push. *)
Definition callTool (needed : bool) (name : string)
  (tool : string -> completion R) (query : string) (results : list (string * R))
  : completion (list (string * R)) :=
  if needed then
    match tool query with
    | Normal r => Normal (results ++ [(name, r)])%list
    | Throw m => Throw m
    end
  else Normal results.

(** [executeToolCalls(query, analysis)] *)
Definition executeToolCalls (query : string) (a : analysis)
  : completion (list (string * R)) :=
  match callTool (needsUnit a) "unit" unitTool query [] with
  | Throw m => Throw m
  | Normal results =>
      match callTool (needsCurrency a) "currency" currencyTool query results with
      | Throw m => Throw m
      | Normal results =>
          callTool (needsDateTime a) "datetime" dateTimeTool query results
      end
  end.

(** [generateFallbackResponse(toolResults)] *)
Definition generateFallbackResponse (toolResults : list (string * R)) : string :=
  let successResults := List.filter (fun tr => success (snd tr)) toolResults in
  if (length successResults =? 0)%nat then
    "I'm sorry, I couldn't process your conversion request. Please check your query format and try again."
  else
    join (newline ++ newline)
      (map (fun tr =>
              match formatted (snd tr) with
              | Some text => text
              | None => capitalize (fst tr) ++ " result: " ++ stringify (snd tr)
              end)
         successResults).

(** [generateFinalResponse(query, toolResults)] on the history [h]. *)
Definition generateFinalResponse (h : list message) (query : string)
  (toolResults : list (string * R)) : string :=
  match callLLM (responsePrompt query toolResults) h with
  | Normal response => response
  | Throw _ => generateFallbackResponse toolResults
  end.

(** [processQuery] with these three steps. *)
Definition processQueryWith (h : list message) (userQuery : string)
  : outcome (A := analysis) (T := list (string * R)) * list message :=
  processQuery (fun h query => Normal (analyzeQuery h query))
    executeToolCalls
    (fun h query toolResults => Normal (generateFinalResponse h query toolResults))
    h userQuery.

(** The tools an analysis asks for, in the order they are called. *)
Definition toolsCalled (a : analysis) : list string :=
  (if needsUnit a then ["unit"] else [])
  ++ (if needsCurrency a then ["currency"] else [])
  ++ (if needsDateTime a then ["datetime"] else []).
End Loop.

End Agent.

(* ===================================================================== *)
(** * Part II.  Properties                                                *)
(* ===================================================================== *)

(** ** Inherited members and upper-case keys

    [getFallbackRate] and [getExchangeRate] index their objects with
    upper-cased keys.  Every member an object inherits has a lowercase
    letter in its name, so such a key never reaches one; this is why those
    two lookups are modelled on the own properties alone. *)

Module JSFacts.
Import JS.

Lemma upper_char_not_lower (c : ascii) : is_lower (upper_char c) = false.
Proof. destruct c as [[] [] [] [] [] [] [] []]; reflexivity. Qed.

Lemma toUpperCase_no_lower (s : string) : has_lower (toUpperCase s) = false.
Proof.
  induction s as [| c r IH]; [reflexivity |].
  cbn [toUpperCase map_chars has_lower]. rewrite upper_char_not_lower.
  exact IH.
Qed.

Lemma has_lower_app (a b : string) :
  has_lower (a ++ b) = has_lower a || has_lower b.
Proof.
  induction a as [| c r IH]; [reflexivity |].
  simpl. rewrite IH. apply orb_assoc.
Qed.

Lemma inherited_has_lower (k r : string) :
  inherited k = Some r -> has_lower k = true.
Proof.
  unfold inherited, object_prototype_members. cbn [assoc].
  repeat match goal with
    | |- context [String.eqb k ?n] =>
        destruct (String.eqb_spec k n) as [-> | _]; [intros _; reflexivity |]
    end.
  discriminate.
Qed.

Lemma inherited_upper_key (s : string) : inherited (toUpperCase s) = None.
Proof.
  destruct (inherited (toUpperCase s)) as [r |] eqn:E; [| reflexivity].
  apply inherited_has_lower in E. rewrite toUpperCase_no_lower in E. discriminate.
Qed.

Lemma inherited_pair_key (a b : string) :
  inherited (toUpperCase a ++ "-" ++ toUpperCase b) = None.
Proof.
  destruct (inherited _) as [r |] eqn:E; [| reflexivity].
  apply inherited_has_lower in E.
  rewrite !has_lower_app, !toUpperCase_no_lower in E. discriminate.
Qed.

End JSFacts.

(** ** Calendar arithmetic *)

Module JSDateFacts.
Import JSDate.

Ltac floor_arith := Z.div_mod_to_equations; lia.

Lemma isLeap_spec (y : Z) :
  isLeap y = true <-> (y mod 4 = 0 /\ (y mod 100 <> 0 \/ y mod 400 = 0)).
Proof.
  unfold isLeap.
  rewrite andb_true_iff, orb_true_iff, negb_true_iff, !Z.eqb_eq, Z.eqb_neq.
  tauto.
Qed.

Lemma DayFromYear_next (y : Z) :
  DayFromYear (y + 1) = DayFromYear y + DaysInYear y.
Proof.
  unfold DaysInYear, DayFromYear.
  destruct (isLeap y) eqn:L.
  - apply isLeap_spec in L. floor_arith.
  - assert (~ (y mod 4 = 0 /\ (y mod 100 <> 0 \/ y mod 400 = 0))) as N
      by (rewrite <- isLeap_spec, L; discriminate).
    floor_arith.
Qed.

Lemma DaysInYear_range (y : Z) : 365 <= DaysInYear y <= 366.
Proof. unfold DaysInYear. destruct (isLeap y); lia. Qed.

Lemma DayFromYear_lt (y1 y2 : Z) : y1 < y2 -> DayFromYear y1 < DayFromYear y2.
Proof. unfold DayFromYear. intros H. floor_arith. Qed.

Lemma DayFromYear_le (y1 y2 : Z) : y1 <= y2 -> DayFromYear y1 <= DayFromYear y2.
Proof. unfold DayFromYear. intros H. floor_arith. Qed.

Lemma YearFromDay_bracket (d : Z) :
  DayFromYear (YearFromDay d) <= d < DayFromYear (YearFromDay d + 1).
Proof.
  unfold YearFromDay.
  set (y := 1970 + 400 * d / 146097).
  assert (DayFromYear (y - 1) <= d < DayFromYear (y + 2)) as B
    by (subst y; unfold DayFromYear; floor_arith).
  destruct (DayFromYear (y + 1) <=? d) eqn:E1.
  - apply Z.leb_le in E1. replace (y + 1 + 1) with (y + 2) by lia. lia.
  - apply Z.leb_gt in E1.
    destruct (DayFromYear y <=? d) eqn:E2.
    + apply Z.leb_le in E2. lia.
    + apply Z.leb_gt in E2. replace (y - 1 + 1) with y by lia. lia.
Qed.

Lemma YearFromDay_unique (d y : Z) :
  DayFromYear y <= d < DayFromYear (y + 1) -> YearFromDay d = y.
Proof.
  intros H. pose proof (YearFromDay_bracket d) as B.
  destruct (Z.lt_trichotomy (YearFromDay d) y) as [L | [E | G]]; [| exact E |].
  - pose proof (DayFromYear_le (YearFromDay d + 1) y ltac:(lia)). lia.
  - pose proof (DayFromYear_le (y + 1) (YearFromDay d) ltac:(lia)). lia.
Qed.

Lemma YearFromDay_within (y k : Z) :
  0 <= k < DaysInYear y -> YearFromDay (DayFromYear y + k) = y.
Proof.
  intros H. apply YearFromDay_unique. rewrite DayFromYear_next. lia.
Qed.

Lemma Day_MakeDate (d t : Z) : 0 <= t < msPerDay -> Day (MakeDate d t) = d.
Proof. unfold Day, MakeDate, msPerDay. intros H. floor_arith. Qed.



Lemma fullYear_id (year : Z) : 100 <= year -> fullYear year = year.
Proof.
  intros H. unfold fullYear.
  destruct (0 <=? year) eqn:A, (year <=? 99) eqn:B; simpl; try reflexivity.
  apply Z.leb_le in B. lia.
Qed.

Lemma Day_newDate (year month date : Z) :
  Day (newDate year month date) = MakeDay (fullYear year) month date.
Proof. unfold newDate. apply Day_MakeDate. unfold MakeTime, msPerDay. lia. Qed.

Lemma MakeDay_in_year (y m d : Z) :
  0 <= m <= 11 ->
  MakeDay y m d = DayFromYear y + (monthStart (isLeap y) m + (d - 1)).
Proof.
  intros H. unfold MakeDay.
  rewrite (Z.div_small m 12), (Z.mod_small m 12), Z.add_0_r by lia. lia.
Qed.

(** The constructor and the getters agree on every date of the calendar. *)
Lemma newDate_fields (year m d : Z) :
  0 <= m <= 11 -> 1 <= d <= daysInMonth (isLeap (fullYear year)) m ->
  getFullYear (newDate year m d) = fullYear year
  /\ getMonth (newDate year m d) = m
  /\ getDate (newDate year m d) = d.
Proof.
  intros Hm Hd. unfold getFullYear, YearFromTime, getMonth, getDate.
  rewrite Day_newDate, MakeDay_in_year by exact Hm.
  set (y := fullYear year) in *.
  assert (m = 0 \/ m = 1 \/ m = 2 \/ m = 3 \/ m = 4 \/ m = 5 \/ m = 6
          \/ m = 7 \/ m = 8 \/ m = 9 \/ m = 10 \/ m = 11) as Cases by lia.
  assert (YearFromDay (DayFromYear y + (monthStart (isLeap y) m + (d - 1))) = y) as Y.
  { apply YearFromDay_within. unfold DaysInYear.
    destruct (isLeap y);
      repeat (destruct Cases as [-> | Cases];
              [cbn [daysInMonth monthStart] in Hd |- *; lia |]);
      subst m; cbn [daysInMonth monthStart] in Hd |- *; lia. }
  unfold DateFromDay, MonthFromDay, DayWithinYear. rewrite Y.
  replace (DayFromYear y + (monthStart (isLeap y) m + (d - 1)) - DayFromYear y)
    with (monthStart (isLeap y) m + (d - 1)) by lia.
  split; [reflexivity |].
  assert (forall a b, a < b -> (a <? b) = true) as Lt by (intros; now apply Z.ltb_lt).
  assert (forall a b, b <= a -> (a <? b) = false) as Ge by (intros; now apply Z.ltb_ge).
  destruct (isLeap y);
    repeat (destruct Cases as [-> | Cases];
            [cbn [daysInMonth monthStart] in Hd |- *;
             repeat first [rewrite Ge by lia | rewrite Lt by lia];
             cbn [monthStart]; split; lia |]);
    subst m; cbn [daysInMonth monthStart] in Hd |- *;
    repeat first [rewrite Ge by lia | rewrite Lt by lia];
    cbn [monthStart]; split; lia.
Qed.

(** A day of November, as the constructor builds it. *)
Lemma MakeDay_november (y k : Z) :
  MakeDay y 10 k = DayFromYear y + (304 + (if isLeap y then 1 else 0) + (k - 1)).
Proof. rewrite MakeDay_in_year by lia. unfold monthStart. lia. Qed.

Lemma november_fields (year k : Z) :
  1 <= k <= 30 ->
  getFullYear (newDate year 10 k) = fullYear year
  /\ getMonth (newDate year 10 k) = 10
  /\ getDate (newDate year 10 k) = k.
Proof.
  intros H. apply newDate_fields; [lia | exact H].
Qed.

Lemma getDay_november (year k : Z) :
  getDay (newDate year 10 k) = (getDay (newDate year 10 1) + (k - 1)) mod 7.
Proof.
  unfold getDay, WeekDay. rewrite !Day_newDate, !MakeDay_november.
  floor_arith.
Qed.

Lemma getDay_range (t : Z) : 0 <= getDay t <= 6.
Proof. unfold getDay, WeekDay. floor_arith. Qed.

(** The first day of a year. *)
Lemma january_first_fields (year : Z) :
  getFullYear (newDate year 0 1) = fullYear year
  /\ getMonth (newDate year 0 1) = 0
  /\ getDate (newDate year 0 1) = 1.
Proof.
  apply newDate_fields; [lia | cbn [daysInMonth]; lia].
Qed.

(** Known dates: the epoch was a Thursday, 29 February 2000 a Tuesday,
    2 November 2026 a Monday. *)
Example known_dates :
  newDate 1970 0 1 = 0 /\ getDay 0 = 4
  /\ newDate 2000 1 29 = 951782400000 /\ getDay (newDate 2000 1 29) = 2
  /\ getDay (newDate 2026 10 2) = 1
  /\ getFullYear (-1) = 1969 /\ getMonth (-1) = 11 /\ getDate (-1) = 31.
Proof. repeat split; vm_compute; reflexivity. Qed.

Lemma getFullYear_monotone (t1 t2 : Z) :
  t1 <= t2 -> getFullYear t1 <= getFullYear t2.
Proof.
  intros H. unfold getFullYear, YearFromTime.
  assert (Day t1 <= Day t2) as D by (unfold Day, msPerDay; floor_arith).
  pose proof (YearFromDay_bracket (Day t1)) as B1.
  pose proof (YearFromDay_bracket (Day t2)) as B2.
  destruct (Z_le_gt_dec (YearFromDay (Day t1)) (YearFromDay (Day t2))) as [L | G];
    [exact L |].
  pose proof (DayFromYear_le (YearFromDay (Day t2) + 1) (YearFromDay (Day t1))
                ltac:(lia)).
  lia.
Qed.

Lemma clock_reading_year (now : Z) : clock_reading now -> 1970 <= getFullYear now.
Proof.
  intros [H _]. change 1970 with (getFullYear 0).
  now apply getFullYear_monotone.
Qed.
End JSDateFacts.

(** ** [datetimeHelper.js]: special dates and the 12-hour clock *)

Module DateTimeHelperFacts.
Import JS JSDate JSDateFacts DateTimeHelper.

(** The day of November [getThanksgiving] picks, from the weekday of
    November 1st. *)
Lemma getThanksgiving_day (year : Z) :
  let w := getDay (newDate year 10 1) in
  getThanksgiving year = newDate year 10 (if w =? 0 then 22 else 26 - w).
Proof.
  intros w. unfold getThanksgiving. fold w.
  destruct (w =? 0) eqn:E.
  - apply Z.eqb_eq in E. rewrite E. reflexivity.
  - f_equal. lia.
Qed.

(** It is a Thursday unless November starts on a Sunday. *)
Lemma getThanksgiving_weekday (year : Z) :
  getDay (getThanksgiving year)
  = if getDay (newDate year 10 1) =? 0 then 0 else 4.
Proof.
  rewrite getThanksgiving_day. cbv zeta.
  pose proof (getDay_range (newDate year 10 1)) as R.
  rewrite getDay_november.
  destruct (getDay (newDate year 10 1) =? 0) eqn:E.
  - apply Z.eqb_eq in E. rewrite E. reflexivity.
  - apply Z.eqb_neq in E.
    replace (getDay (newDate year 10 1) + (26 - getDay (newDate year 10 1) - 1))
      with 25 by lia.
    reflexivity.
Qed.

(** [getThanksgiving] returns the fourth Thursday exactly in the years
    whose November starts on a Monday, Tuesday, Wednesday or Thursday. *)
Lemma getThanksgiving_fourth_thursday_iff (year : Z) :
  isFourthThursdayOfNovember (fullYear year) (getThanksgiving year) = true
  <-> 1 <= getDay (newDate year 10 1) <= 4.
Proof.
  pose proof (getDay_range (newDate year 10 1)) as R.
  pose proof (getThanksgiving_weekday year) as W.
  unfold isFourthThursdayOfNovember. rewrite W.
  rewrite getThanksgiving_day. cbv zeta.
  set (w := getDay (newDate year 10 1)) in *. clearbody w.
  destruct (november_fields year (if w =? 0 then 22 else 26 - w)) as (Y & M & D).
  { destruct (w =? 0) eqn:E; [lia | apply Z.eqb_neq in E; lia]. }
  rewrite Y, M, D, !Z.eqb_refl. cbn [andb].
  destruct (w =? 0) eqn:E.
  - apply Z.eqb_eq in E. cbn. split; [discriminate | intros; exfalso; lia].
  - apply Z.eqb_neq in E. change (4 =? 4) with true. cbn [andb].
    rewrite andb_true_iff, !Z.leb_le. lia.
Qed.

(** C1.  [getThanksgiving] does not always return the fourth Thursday of
    November: for 2024, whose November starts on a Friday, it returns
    November 21 (the third Thursday) where the fourth Thursday is
    November 28; for 2026, whose November starts on a Sunday, it returns
    November 22, a Sunday, and that is the date the special name
    "thanksgiving" resolves to on 2 November 2026. *)
Theorem getThanksgiving_misses_fourth_thursday :
  getDay (newDate 2024 10 1) = 5
  /\ getThanksgiving 2024 = newDate 2024 10 21
  /\ isFourthThursdayOfNovember 2024 (getThanksgiving 2024) = false
  /\ isFourthThursdayOfNovember 2024 (newDate 2024 10 28) = true
  /\ getThanksgiving 2026 = newDate 2026 10 22
  /\ getDay (getThanksgiving 2026) = 0
  /\ parseSpecialDates (newDate 2026 10 2) (newDate 2026 10 2) "thanksgiving"
     = Normal (Some (newDate 2026 10 22)).
Proof. repeat split; vm_compute; reflexivity. Qed.

Lemma specialDates_new_year (now now' : Z) (key : string) :
  key = "new year" \/ key = "new years" ->
  get (specialDates now now') key = OwnProp (newDate (getFullYear now + 1) 0 1).
Proof. intros [-> | ->]; reflexivity. Qed.

(** C5.  Whatever the clock reads, "new year" and "new years" (in any
    letter case, surrounding blanks ignored) resolve to January 1 of the
    year after the current one. *)
Theorem new_year_is_next_january_first (now now' : Z) (dateString : string) :
  clock_reading now ->
  trim (toLowerCase dateString) = "new year"
  \/ trim (toLowerCase dateString) = "new years" ->
  exists d,
    parseSpecialDates now now' dateString = Normal (Some d)
    /\ getFullYear d = getFullYear now + 1
    /\ getMonth d = 0
    /\ getDate d = 1
    /\ getFullYear now < getFullYear d.
Proof.
  intros C K. exists (newDate (getFullYear now + 1) 0 1).
  pose proof (clock_reading_year now C) as Y.
  destruct (january_first_fields (getFullYear now + 1)) as (A & B & D).
  rewrite fullYear_id in A by lia.
  unfold parseSpecialDates. rewrite (specialDates_new_year now now' _ K).
  repeat split; try assumption. lia.
Qed.

Lemma new_year_is_next_january_first_witness :
  exists d,
    parseSpecialDates (newDate 2026 11 31) (newDate 2026 11 31) " New Years "
    = Normal (Some d)
    /\ getFullYear d = getFullYear (newDate 2026 11 31) + 1
    /\ getMonth d = 0
    /\ getDate d = 1
    /\ getFullYear (newDate 2026 11 31) < getFullYear d.
Proof.
  apply (new_year_is_next_january_first (newDate 2026 11 31) (newDate 2026 11 31)
           " New Years ").
  - vm_compute. split; discriminate.
  - right. reflexivity.
Defined.


(** *** The 12-hour clock of the [timezone] case *)








Section TimezoneCase.
Context {R : Type}.
Variable parseDateTimeQuery : string -> option parsed.
Variable parseError : string -> R.
Variable dayOffset : Z -> parsed -> R.
Variable parseDate : string -> option Z.
Variable dateError : string -> string -> R.
Variable calculateDateDifference : Z -> Z -> string -> R.
Variable convertTimezone : Z -> string -> string -> R.

End TimezoneCase.


End DateTimeHelperFacts.

(** ** [lib/convert-units.js]: the table and the round trip *)

Module ConvertUnitsFacts.
Import JS ConvertUnits.

Lemma assoc_In {A : Type} (k : string) (l : list (string * A)) (v : A) :
  assoc k l = Some v -> In (k, v) l.
Proof.
  induction l as [| [k' v'] l IH]; simpl; [discriminate |].
  destruct (String.eqb_spec k k') as [-> | N].
  - intros [= ->]. now left.
  - intros H. right. now apply IH.
Qed.

Lemma get_own {A : Type} (k : string) (l : list (string * A)) (v : A) :
  assoc k l = Some v -> get l k = OwnProp v.
Proof. intros H. unfold get. now rewrite H. Qed.

Lemma or_zero_num (x : Qc) : or_zero (Num x) = Num x.
Proof. unfold or_zero. destruct (decide (x = Q2Qc 0)) as [-> |]; reflexivity. Qed.

Lemma nonzero_neq (q : Qc) : nonzero q = true -> q <> Q2Qc 0.
Proof.
  unfold nonzero. rewrite negb_true_iff. apply bool_decide_eq_false_1.
Qed.

Lemma const_neq (a : Q) : Qeq_bool a 0 = false -> Q2Qc a <> Q2Qc 0.
Proof.
  intros H E. apply Qeq_bool_neq in H. apply H.
  apply (f_equal this) in E. simpl in E.
  rewrite <- (Qred_correct a). rewrite E. reflexivity.
Qed.

Lemma table_ok : forallb measure_ok conversions = true.
Proof. vm_compute. reflexivity. Qed.

(** What membership in the table gives. *)
Lemma unit_of_inv (m u : string) :
  unit_of m u ->
  exists units d,
    assoc m conversions = Some units /\ assoc u units = Some d
    /\ findMeasure u = Some m /\ u <> ""
    /\ (m = "temperature" \/ exists r, ratio d = Some r /\ r <> Q2Qc 0).
Proof.
  intros (units & d & Hm & Hu). exists units, d.
  pose proof table_ok as T. rewrite forallb_forall in T.
  specialize (T _ (assoc_In _ _ _ Hm)). unfold measure_ok in T.
  rewrite forallb_forall in T. specialize (T _ (assoc_In _ _ _ Hu)).
  unfold entry_ok in T. cbn [fst snd] in T.
  rewrite !andb_true_iff, negb_true_iff, orb_true_iff, bool_decide_eq_true in T.
  destruct T as [[F E] Rt].
  repeat split; try assumption.
  - intros ->. discriminate.
  - destruct Rt as [Rt | Rt].
    + left. now apply String.eqb_eq.
    + right. destruct (ratio d) as [r |]; [| discriminate].
      exists r. split; [reflexivity | now apply nonzero_neq].
Qed.

Lemma temperature_units (u : string) :
  unit_of "temperature" u -> u = "C" \/ u = "F" \/ u = "K" \/ u = "R".
Proof.
  intros (units & d & Hm & Hu). vm_compute in Hm. injection Hm as <-.
  apply assoc_In in Hu. simpl in Hu.
  destruct Hu as [H | [H | [H | [H | []]]]]; injection H as <- _; tauto.
Qed.

(** Temperature goes through [convertTemperature], never through ratios. *)
Lemma to_temperature (v : jsnum) (A B : string) :
  unit_of "temperature" A -> to v A B = convertTemperature (or_zero v) A B.
Proof.
  intros H. destruct (unit_of_inv _ _ H) as (units & d & _ & _ & F & E & _).
  unfold to. rewrite (proj2 (String.eqb_neq A "")) by exact E.
  rewrite F. reflexivity.
Qed.

(** Within another measure the result is [value * fromRatio / toRatio]. *)
Lemma to_ratio (x : Qc) (m A B : string) :
  m <> "temperature" -> unit_of m A -> unit_of m B ->
  exists rA rB,
    ratio_in m A = Some rA /\ ratio_in m B = Some rB
    /\ rA <> Q2Qc 0 /\ rB <> Q2Qc 0
    /\ to (Num x) A B = Normal (Num (x * rA / rB)%Qc).
Proof.
  intros Hm HA HB.
  destruct (unit_of_inv _ _ HA) as (units & dA & Um & UA & FA & EA & [-> | (rA & RA & NA)]);
    [congruence |].
  destruct (unit_of_inv _ _ HB) as (units' & dB & Um' & UB & FB & EB & [-> | (rB & RB & NB)]);
    [congruence |].
  assert (units' = units) as -> by congruence.
  exists rA, rB. unfold ratio_in. rewrite Um. cbn.
  rewrite UA, UB. cbn. rewrite RA, RB.
  repeat split; try assumption.
  unfold to. rewrite or_zero_num.
  rewrite (proj2 (String.eqb_neq A "")) by exact EA.
  rewrite FA, (proj2 (String.eqb_neq m "temperature")) by exact Hm.
  rewrite Um. change (default [] (Some units)) with units.
  rewrite (get_own _ _ _ UA), (get_own _ _ _ UB). cbn.
  rewrite RA, RB. reflexivity.
Qed.

Lemma ratio_round_trip (x rA rB : Qc) :
  rA <> Q2Qc 0 -> rB <> Q2Qc 0 -> (x * rA / rB * rB / rA)%Qc = x.
Proof. intros. field. split; assumption. Qed.

Lemma to_and_back_affine (x a b c : Qc) :
  a <> Q2Qc 0 -> b <> Q2Qc 0 ->
  (((x - c) * a / b) * b / a + c)%Qc = x.
Proof. intros. field. split; assumption. Qed.

Lemma back_and_to_affine (x a b c : Qc) :
  a <> Q2Qc 0 -> b <> Q2Qc 0 ->
  (((x * a / b + c) - c) * b / a)%Qc = x.
Proof. intros. field. split; assumption. Qed.

Lemma temperature_round_trip (x : Qc) (A B : string) :
  unit_of "temperature" A -> unit_of "temperature" B ->
  exists y,
    convertTemperature (Num x) A B = Normal (Num y)
    /\ convertTemperature (Num y) B A = Normal (Num x).
Proof.
  intros HA HB.
  apply temperature_units in HA, HB.
  assert (Q2Qc 5 <> Q2Qc 0) as N5 by (now apply const_neq).
  assert (Q2Qc 9 <> Q2Qc 0) as N9 by (now apply const_neq).
  destruct HA as [-> | [-> | [-> | ->]]], HB as [-> | [-> | [-> | ->]]];
    eexists; (split; [reflexivity |]); cbn;
    unfold convertTemperature; cbn; f_equal; f_equal;
    try reflexivity; field; auto.
Qed.


(** Over exact arithmetic, converting [x] from a unit [A] to a unit [B]
    of the same measure and converting the result back yields [x] again:
    both conversions return a number, and the second one returns [x]
    itself. *)
Lemma convert_round_trip (x : Qc) (m A B : string) :
  unit_of m A -> unit_of m B ->
  exists y,
    to (Num x) A B = Normal (Num y) /\ to (Num y) B A = Normal (Num x).
Proof.
  intros HA HB.
  destruct (String.eqb_spec m "temperature") as [-> | Hm].
  - destruct (temperature_round_trip x A B HA HB) as (y & There & Back).
    exists y. rewrite !to_temperature, !or_zero_num by assumption.
    split; assumption.
  - destruct (to_ratio x m A B Hm HA HB) as (rA & rB & RA & RB & NA & NB & There).
    exists (x * rA / rB)%Qc. split; [exact There |].
    destruct (to_ratio (x * rA / rB)%Qc m B A Hm HB HA)
      as (rB' & rA' & RB' & RA' & _ & _ & Back).
    assert (rA' = rA) as -> by congruence.
    assert (rB' = rB) as -> by congruence.
    rewrite Back. now rewrite ratio_round_trip.
Qed.

(** The round trip of miles and kilometres, with the intermediate value. *)
Lemma miles_kilometres_round_trip (x : Qc) :
  to (Num x) "mi" "km" = Normal (Num (x * Q2Qc 1609.344 / Q2Qc 1000)%Qc)
  /\ to (Num (x * Q2Qc 1609.344 / Q2Qc 1000)%Qc) "km" "mi" = Normal (Num x).
Proof.
  assert (unit_of "length" "mi") as Hmi by (eexists _, _; split; reflexivity).
  assert (unit_of "length" "km") as Hkm by (eexists _, _; split; reflexivity).
  destruct (to_ratio x "length" "mi" "km") as (rA & rB & RA & RB & NA & NB & There);
    [discriminate | assumption | assumption |].
  injection RA as <-. injection RB as <-.
  split; [exact There |].
  destruct (to_ratio (x * Q2Qc 1609.344 / Q2Qc 1000)%Qc "length" "km" "mi")
    as (rB & rA & RB & RA & _ & _ & Back); [discriminate | assumption | assumption |].
  injection RA as <-. injection RB as <-.
  rewrite Back. now rewrite ratio_round_trip.
Qed.

End ConvertUnitsFacts.

(** ** Double arithmetic: the error of a rounding *)

Module DoubleFacts.
Import Double.
Local Open Scope Q_scope.

Lemma roundHalfEven_error (q : Q) :
  Qabs (inject_Z (roundHalfEven q) - q) <= 1 # 2.
Proof.
  unfold roundHalfEven. cbv zeta.
  pose proof (Qfloor_le q) as L. pose proof (Qlt_floor q) as U.
  rewrite inject_Z_plus in U. change (inject_Z 1) with 1 in U.
  apply Qabs_Qle_condition.
  destruct (Qcompare_spec (q - inject_Z (Qfloor q)) (1 # 2)) as [E | E | E].
  - destruct (Z.even (Qfloor q)); rewrite ?inject_Z_plus; change (inject_Z 1) with 1; lra.
  - lra.
  - rewrite inject_Z_plus. change (inject_Z 1) with 1. lra.
Qed.

Lemma exponent_le (q : Q) : 0 < q -> 2 ^ exponent q <= q.
Proof.
  intros P. unfold exponent. cbv zeta.
  destruct (Qle_bool _ q) eqn:T; [now apply Qle_bool_iff |].
  destruct q as [n d]. cbn [Qnum Qden].
  assert (0 < n)%Z as Pn by (unfold Qlt in P; cbn in P; lia).
  destruct (Z.log2_spec n Pn) as [Ln _].
  destruct (Z.log2_spec (Z.pos d) eq_refl) as [_ Ud].
  pose proof (Z.log2_nonneg n) as N1. pose proof (Z.log2_nonneg (Z.pos d)) as N2.
  replace (Z.log2 n - Z.log2 (Z.pos d) - 1)%Z
    with (Z.log2 n - Z.succ (Z.log2 (Z.pos d)))%Z by lia.
  rewrite Qpower_minus by discriminate.
  rewrite <- !(Zpower_Qpower 2) by lia.
  set (a := (2 ^ Z.log2 n)%Z) in *. set (b := (2 ^ Z.succ (Z.log2 (Z.pos d)))%Z) in *.
  apply Qle_shift_div_r; [unfold Qlt; cbn; lia |].
  unfold Qle, Qmult, inject_Z. cbn [Qnum Qden]. nia.
Qed.

Lemma exponent_lt (q : Q) : 0 < q -> q < 2 ^ (exponent q + 1).
Proof.
  intros P. unfold exponent. cbv zeta.
  destruct q as [n d]. cbn [Qnum Qden].
  assert (0 < n)%Z as Pn by (unfold Qlt in P; cbn in P; lia).
  destruct (Z.log2_spec n Pn) as [_ Un].
  destruct (Z.log2_spec (Z.pos d) eq_refl) as [Ld _].
  pose proof (Z.log2_nonneg n) as N1. pose proof (Z.log2_nonneg (Z.pos d)) as N2.
  set (k := (Z.log2 n - Z.log2 (Z.pos d))%Z).
  destruct (Qle_bool (2 ^ k) (n # d)) eqn:T.
  - subst k.
    replace (Z.log2 n - Z.log2 (Z.pos d) + 1)%Z
      with (Z.succ (Z.log2 n) - Z.log2 (Z.pos d))%Z by lia.
    rewrite Qpower_minus by discriminate.
    rewrite <- !(Zpower_Qpower 2) by lia.
    set (a := (2 ^ Z.succ (Z.log2 n))%Z) in *. set (b := (2 ^ Z.log2 (Z.pos d))%Z) in *.
    apply Qlt_shift_div_l; [unfold Qlt; cbn; lia |].
    unfold Qlt, Qmult, inject_Z. cbn [Qnum Qden]. nia.
  - replace (k - 1 + 1)%Z with k by lia.
    apply Qnot_le_lt. intros C. apply Qle_bool_iff in C. congruence.
Qed.

Lemma ulp_positive (q : Q) : 0 < ulp q.
Proof. unfold ulp. now apply Qpower_0_lt. Qed.

(** Half an ulp is at most the relative bound or the absolute one. *)
Lemma half_ulp (q : Q) :
  ~ q == 0 -> ulp q * (1 # 2) <= unitRoundoff * Qabs q + halfMinimum.
Proof.
  intros N. unfold ulp.
  assert (0 < Qabs q) as P.
  { pose proof (Qabs_nonneg q) as A. apply Qle_lteq in A. destruct A as [A | A]; [exact A |].
    exfalso. apply N. revert A. apply Qabs_case; intros; lra. }
  pose proof (exponent_le (Qabs q) P) as L.
  destruct (Z.max_spec (exponent (Qabs q)) (-1022)) as [[_ ->] | [_ ->]].
  - change (2 ^ (-1022 - 52) * (1 # 2)) with (2 ^ (-1074) * (1 # 2)).
    assert (2 ^ (-1074) * (1 # 2) == halfMinimum) as -> by reflexivity.
    assert (0 <= unitRoundoff * Qabs q) by (apply Qmult_le_0_compat; [discriminate | lra]).
    lra.
  - unfold Z.sub. rewrite Qpower_plus by discriminate.
    assert (0 <= halfMinimum) by discriminate.
    assert (2 ^ (- (52)) * (1 # 2) == unitRoundoff) as E by reflexivity.
    set (p := 2 ^ exponent (Qabs q)) in *.
    rewrite <- Qmult_assoc, E.
    assert (p * unitRoundoff <= Qabs q * unitRoundoff)
      by (apply Qmult_le_compat_r; [exact L | discriminate]).
    lra.
Qed.

(** The error of one rounding: relative [unitRoundoff], or absolute
    [halfMinimum] under the smallest normal number; a magnitude of at
    most [2 ^ 1023] does not overflow. *)
Lemma round_error (q : Q) :
  Qabs q <= overflowThreshold ->
  exists v, round q = Finite v
            /\ Qabs (v - q) <= unitRoundoff * Qabs q + halfMinimum.
Proof.
  intros B. unfold round.
  destruct (Qeq_bool q 0) eqn:Z0.
  - apply Qeq_bool_iff in Z0. exists 0. split; [reflexivity |].
    rewrite Z0. vm_compute. discriminate.
  - apply Qeq_bool_neq in Z0. cbv zeta.
    pose proof (ulp_positive q) as U. pose proof (half_ulp q Z0) as H.
    pose proof (roundHalfEven_error (q / ulp q)) as R.
    set (m := inject_Z (roundHalfEven (q / ulp q))) in *.
    assert (Qabs (m * ulp q - q) <= ulp q * (1 # 2)) as E.
    { assert (m * ulp q - q == (m - q / ulp q) * ulp q) as -> by (field; lra).
      rewrite Qabs_Qmult, (Qabs_pos (ulp q)) by lra.
      rewrite (Qmult_comm (ulp q)). apply Qmult_le_compat_r; lra. }
    assert (Qabs (Qred (m * ulp q)) < 2 ^ 1024) as F.
    { rewrite Qred_correct.
      assert (Qabs (m * ulp q) <= Qabs q + Qabs (m * ulp q - q)) as T.
      { assert (m * ulp q == q + (m * ulp q - q)) as E' by ring.
        rewrite E' at 1. apply Qabs_triangle. }
      assert (unitRoundoff * Qabs q <= unitRoundoff * overflowThreshold) as M
        by (rewrite !(Qmult_comm unitRoundoff); apply Qmult_le_compat_r; [exact B | discriminate]).
      assert (overflowThreshold + unitRoundoff * overflowThreshold + halfMinimum < 2 ^ 1024) as C
        by (vm_compute; reflexivity).
      lra. }
    destruct (Qle_bool _ _) eqn:O.
    + apply Qle_bool_iff in O. lra.
    + eexists. split; [reflexivity |]. rewrite Qred_correct. lra.
Qed.

(** The rounding on decimals whose doubles are well known, at a tie in
    the subnormal range, and at the edge of overflow. *)
Lemma round_examples :
  round 0.1 = Finite (3602879701896397 # 36028797018963968)
  /\ add (round 0.1) (round 0.2) = Finite (1351079888211149 # 4503599627370496)
  /\ round (5 # 2 ^ 1075) = Finite (1 # 2 ^ 1073)
  /\ round (1 # 2 ^ 1076) = Finite 0
  /\ round (inject_Z (2 ^ 1024 - 2 ^ 970 - 1))
     = Finite (inject_Z (2 ^ 1024 - 2 ^ 971))
  /\ round (inject_Z (2 ^ 1024 - 2 ^ 970)) = Infinity false.
Proof. vm_compute. repeat split. Qed.

End DoubleFacts.

(** ** [lib/convert-units.js]: round trips in double arithmetic *)

Module ConvertUnits64Facts.
Import JS Double DoubleFacts ConvertUnits64.
Import ConvertUnits (unit_of, conversions, findMeasure, truthy, ratio).
Import ConvertUnitsFacts.
Local Open Scope Q_scope.

(** Rounding a value [q] that is within [E] of a target [t] of magnitude
    at most [M]. *)
Lemma round_step (q t E M : Q) :
  Qabs (q - t) <= E -> Qabs t <= M -> M + E <= overflowThreshold ->
  exists v, round q = Finite v
            /\ Qabs (v - t) <= E + unitRoundoff * (M + E) + halfMinimum.
Proof.
  intros HE HM HO.
  assert (Qabs q <= M + E) as HQ.
  { pose proof (Qabs_triangle t (q - t)) as T.
    assert (t + (q - t) == q) as C by ring. rewrite C in T. lra. }
  destruct (round_error q) as (v & R & Ev); [now apply Qle_trans with (M + E) |].
  exists v. split; [exact R |].
  assert (Qabs (v - t) <= Qabs (v - q) + Qabs (q - t)) as T.
  { pose proof (Qabs_triangle (v - q) (q - t)) as T.
    assert (v - q + (q - t) == v - t) as C by ring. now rewrite C in T. }
  unfold unitRoundoff, halfMinimum in *. lra.
Qed.

Lemma within_scaled (b : bounds) (x v t k : Q) :
  within b x v t -> within (scaled b (Qabs k)) x (v * k) (t * k).
Proof.
  intros ((R & A & SR & SA) & E & M).
  pose proof (Qabs_nonneg k) as K. pose proof (Qabs_nonneg x) as X.
  split; [| split]; cbn [scaled err_rel err_abs size_rel size_abs].
  - refine (conj _ (conj _ (conj _ _))); apply Qmult_le_0_compat; assumption.
  - assert (v * k - t * k == (v - t) * k) as -> by ring.
    rewrite Qabs_Qmult.
    apply (Qmult_le_compat_r _ _ (Qabs k)) in E; [| exact K].
    eapply Qle_trans; [exact E |]. apply Qle_lteq. right. ring.
  - rewrite Qabs_Qmult.
    apply (Qmult_le_compat_r _ _ (Qabs k)) in M; [| exact K].
    eapply Qle_trans; [exact M |]. apply Qle_lteq. right. ring.
Qed.

Lemma within_shifted (b : bounds) (x v t c : Q) :
  within b x v t ->
  within {| err_rel := err_rel b; err_abs := err_abs b;
            size_rel := size_rel b; size_abs := size_abs b + Qabs c |}
    x (v + c) (t + c).
Proof.
  intros ((R & A & SR & SA) & E & M).
  pose proof (Qabs_nonneg c) as C.
  split; [| split]; cbn [err_rel err_abs size_rel size_abs].
  - refine (conj R (conj A (conj SR _))). cbn [size_abs]. lra.
  - assert (v + c - (t + c) == v - t) as -> by ring. exact E.
  - eapply Qle_trans; [apply Qabs_triangle |]. lra.
Qed.

Lemma Qabs_opp_eq (c : Q) : Qabs (- c) = Qabs c.
Proof. destruct c as [[| p | p] d]; reflexivity. Qed.

Lemma Qabs_inv_eq (c : Q) : Qabs (/ c) = / Qabs c.
Proof. destruct c as [[| p | p] d]; reflexivity. Qed.

(** The value a step rounds. *)
Lemma before_rounding_sound (s : step) (b : bounds) (x v t : Q) :
  within b x v t -> divides_by_zero s = false ->
  exists q, computed (Finite v) s = round q
            /\ within (before_rounding s b) x q (exactly t s).
Proof.
  intros W Z. destruct s as [c | c | c | c]; cbn [computed exactly before_rounding].
  - exists (v + c). split; [reflexivity |]. now apply within_shifted.
  - exists (v + - c). split; [reflexivity |].
    rewrite <- (Qabs_opp_eq c). now apply (within_shifted b x v t (- c)).
  - exists (v * c). split; [reflexivity |]. now apply within_scaled.
  - cbn [divides_by_zero] in Z. exists (v * / c). split.
    + unfold div. now rewrite Z.
    + rewrite <- Qabs_inv_eq. now apply (within_scaled b x v t (/ c)).
Qed.

Lemma after_sound (limit : Q) (s : step) (b b' : bounds) (x v t : Q) :
  Qabs x <= limit -> within b x v t -> after limit (Some b) s = Some b' ->
  exists v', computed (Finite v) s = Finite v' /\ within b' x v' (exactly t s).
Proof.
  intros L W. unfold after. cbv zeta.
  destruct (negb (divides_by_zero s)) eqn:Z; [| discriminate].
  apply negb_true_iff in Z. cbn [andb].
  destruct (Qle_bool _ _) eqn:O; [| discriminate]. intros [= <-].
  apply Qle_bool_iff in O.
  destruct (before_rounding_sound s b x v t W Z) as (q & C & (R & A & SR & SA) & E & M).
  set (b0 := before_rounding s b) in *.
  pose proof (Qabs_nonneg x) as X.
  assert ((size_rel b0 + err_rel b0) * Qabs x <= (size_rel b0 + err_rel b0) * limit) as P
    by (rewrite !(Qmult_comm (size_rel b0 + err_rel b0)); apply Qmult_le_compat_r; lra).
  destruct (round_step q (exactly t s) _ _ E M) as (v' & Rv & Ev).
  { eapply Qle_trans; [| exact O]. eapply Qle_trans; [| apply Qplus_le_l, P].
    apply Qle_lteq. right. ring. }
  exists v'. split; [now rewrite C |].
  split; [| split]; unfold well_formed; cbn [err_rel err_abs size_rel size_abs];
    rewrite ?Qred_correct.
  - assert (0 <= unitRoundoff) by discriminate.
    assert (0 <= halfMinimum) by discriminate.
    refine (conj _ (conj _ (conj SR SA))).
    + assert (0 <= unitRoundoff * (size_rel b0 + err_rel b0))
        by (apply Qmult_le_0_compat; lra). lra.
    + assert (0 <= unitRoundoff * (size_abs b0 + err_abs b0))
        by (apply Qmult_le_0_compat; lra). lra.
  - eapply Qle_trans; [exact Ev |]. apply Qle_lteq. right. ring.
  - exact M.
Qed.

Lemma through_none (limit : Q) (p : list step) : through limit p None = None.
Proof. induction p as [| s p IH]; [reflexivity | exact IH]. Qed.

(** The bounds computed for a list of steps hold of its run. *)
Lemma through_sound (limit : Q) (p : list step) (b b' : bounds) (x v t : Q) :
  Qabs x <= limit -> within b x v t -> through limit p (Some b) = Some b' ->
  exists v', run p (Finite v) = Finite v' /\ within b' x v' (ideal p t).
Proof.
  intros L. revert b v t.
  induction p as [| s p IH]; intros b v t W T.
  - injection T as <-. exists v. split; [reflexivity | exact W].
  - unfold through in T. cbn [fold_left] in T.
    destruct (after limit (Some b) s) as [b1 |] eqn:A;
      [| fold (through limit p None) in T; now rewrite through_none in T].
    destruct (after_sound limit s b b1 x v t L W A) as (v1 & C & W1).
    destruct (IH b1 v1 (exactly t s) W1 T) as (v' & R & W').
    exists v'. split; [| exact W'].
    unfold run. cbn [fold_left]. now rewrite C.
Qed.

Lemma exact_input_within (x v : Q) : v == x -> within exact_input x v x.
Proof.
  intros E. split; [| split]; unfold well_formed;
    cbn [exact_input err_rel err_abs size_rel size_abs].
  - refine (conj _ (conj _ (conj _ _))); discriminate.
  - assert (v - x == 0) as -> by (rewrite E; ring).
    change (Qabs 0) with 0. lra.
  - lra.
Qed.

Lemma within_eq (b : bounds) (x v v' t t' : Q) :
  v' == v -> t' == t -> within b x v t -> within b x v' t'.
Proof.
  intros Ev Et (W & E & M). split; [exact W |]. rewrite Ev, Et. now split.
Qed.

Lemma or_zero_finite (x : Q) : exists v, or_zero (Finite x) = Finite v /\ v == x.
Proof.
  unfold or_zero. destruct (Qeq_bool x 0) eqn:Z.
  - exists 0. split; [reflexivity |]. apply Qeq_bool_iff in Z. now rewrite Z.
  - exists x. split; reflexivity.
Qed.

Lemma ideal_app (p p' : list step) (t : Q) :
  ideal (p ++ p') t = ideal p' (ideal p t).
Proof. apply fold_left_app. Qed.

(** Over the rationals the steps are the affine map that [affine]
    computes. *)
Lemma affine_sound (p : list step) (t : Q) :
  existsb divides_by_zero p = false ->
  ideal p t == fst (affine p) * t + snd (affine p).
Proof.
  unfold ideal, affine.
  assert (forall f u, u == fst f * t + snd f ->
                      existsb divides_by_zero p = false ->
                      fold_left exactly p u
                      == fst (fold_left affine_after p f) * t
                         + snd (fold_left affine_after p f)) as G.
  { induction p as [| s p IH]; intros f u E Z; [exact E |].
    cbn [existsb] in Z. apply orb_false_iff in Z. destruct Z as [Zs Zp].
    cbn [fold_left]. apply IH; [| exact Zp].
    destruct s as [c | c | c | c]; cbn [exactly affine_after fst snd]; rewrite E.
    - ring.
    - ring.
    - ring.
    - cbn [divides_by_zero] in Zs. apply Qeq_bool_neq in Zs. now field. }
  intros Z. apply G; [cbn [fst snd]; ring | exact Z].
Qed.

(** The error of a round trip is within the computed bounds. *)
Lemma round_trip_sound (bound x : Q) (there back : list step) (b : bounds) :
  Qabs x <= bound ->
  round_trip_bounds bound there back = Some b ->
  ideal (there ++ back) x == x ->
  exists y z,
    run there (or_zero (Finite x)) = Finite y
    /\ run back (or_zero (Finite y)) = Finite z
    /\ 0 <= err_rel b
    /\ Qabs (z - x) <= err_rel b * Qabs x + err_abs b.
Proof.
  intros L T I. unfold round_trip_bounds in T.
  destruct (through bound there (Some exact_input)) as [b1 |] eqn:T1;
    [| now rewrite through_none in T].
  destruct (or_zero_finite x) as (x0 & -> & E0).
  destruct (through_sound bound there exact_input b1 x x0 x L
              (exact_input_within x x0 E0) T1) as (y & Ry & Wy).
  destruct (or_zero_finite y) as (y0 & Oy & Ey).
  destruct (through_sound bound back b1 b x y0 (ideal there x) L
              (within_eq b1 x y y0 _ _ Ey (Qeq_refl _) Wy) T)
    as (z & Rz & (Rb & _) & Ez & _).
  exists y, z. rewrite Oy. rewrite <- ideal_app, I in Ez.
  repeat (split; [assumption |]). exact Ez.
Qed.

Lemma literals :
  literal 32 = Finite 32 /\ literal 5 = Finite 5 /\ literal 9 = Finite 9
  /\ literal 273.15 = Finite kelvinOffset
  /\ literal 491.67 = Finite rankineOffset.
Proof. vm_compute. repeat split. Qed.

(** [convertTemperature] runs the steps of its two scales. *)
Lemma convertTemperature_run (v : double) (A B : string) :
  unit_of "temperature" A -> unit_of "temperature" B ->
  convertTemperature v A B = Normal (run (temperature_steps A B) v).
Proof.
  intros HA HB. apply temperature_units in HA, HB.
  destruct literals as (L32 & L5 & L9 & LK & LR).
  unfold convertTemperature. rewrite L32, L5, L9, LK, LR.
  destruct HA as [-> | [-> | [-> | ->]]], HB as [-> | [-> | [-> | ->]]];
    reflexivity.
Qed.

(** [to] runs the steps of its two units. *)
Lemma to_run (m A B : string) (p : list step) (v : double) :
  unit_of m A -> unit_of m B -> conversion_steps m A B = Some p ->
  to v A B = Normal (run p (or_zero v)).
Proof.
  intros HA HB. unfold conversion_steps, to.
  destruct (unit_of_inv _ _ HA) as (units & dA & Um & UA & FA & EA & _).
  destruct (unit_of_inv _ _ HB) as (units' & dB & Um' & UB & _).
  assert (units' = units) as -> by congruence.
  rewrite (proj2 (String.eqb_neq A "")) by exact EA. rewrite FA.
  destruct (String.eqb_spec m "temperature") as [-> | N].
  - intros [= <-]. now apply convertTemperature_run.
  - rewrite Um. change (default [] (Some units)) with units.
    rewrite (get_own _ _ _ UA), (get_own _ _ _ UB). cbn [truthy negb orb].
    destruct (ratio_of (OwnProp dA)) as [cA | |]; try discriminate.
    destruct (ratio_of (OwnProp dB)) as [cB | |]; try discriminate.
    intros [= <-]. reflexivity.
Qed.

Lemma table_round_trips : forallb measure_round_trips conversions = true.
Proof. vm_compute. reflexivity. Qed.

Lemma round_trip_checked (m A B : string) :
  unit_of m A -> unit_of m B -> round_trip_ok m A B = true.
Proof.
  intros (units & dA & Um & UA) (units' & dB & Um' & UB).
  assert (units' = units) as -> by congruence.
  pose proof table_round_trips as T. rewrite forallb_forall in T.
  specialize (T _ (assoc_In _ _ _ Um)). unfold measure_round_trips in T.
  cbn [fst snd] in T. rewrite forallb_forall in T.
  specialize (T _ (assoc_In _ _ _ UA)). cbn [fst] in T. rewrite forallb_forall in T.
  exact (T _ (assoc_In _ _ _ UB)).
Qed.

Lemma bound_scaled (r r' a a' X e : Q) :
  0 <= X -> r <= r' -> a <= a' -> e <= r * X + a -> e <= r' * X + a'.
Proof.
  intros HX Hr Ha He.
  assert (r * X <= r' * X) by (apply Qmult_le_compat_r; assumption).
  eapply Qle_trans; [exact He |]. now apply Qplus_le_compat.
Qed.

Lemma bound_at (r a X L e tol : Q) :
  0 <= r -> X <= L -> r * L + a <= tol -> e <= r * X + a -> e <= tol.
Proof.
  intros Hr HX Ht He.
  assert (r * X <= r * L)
    by (rewrite !(Qmult_comm r); apply Qmult_le_compat_r; assumption).
  eapply Qle_trans; [exact He |]. eapply Qle_trans; [| exact Ht].
  now apply Qplus_le_l.
Qed.

(** C2.  A conversion from a unit [A] to a unit [B] of the same measure
    and back.  Over exact rationals the result is the input itself.  In
    double arithmetic, as the program computes, an input [x] of magnitude
    at most [2 ^ 980] gives a number [z] with
    [|z - x| <= 2 ^ -50 * |x| + 2 ^ -1030] for the measures converted by
    ratios and [|z - x| <= 2 ^ -49 * |x| + 2 ^ -39] for temperature; and
    for [|x| <= 1000000] every temperature round trip other than the one
    between Fahrenheit and Rankine (so F to C to F, and K to C to K)
    reproduces [x] within [1e-9]. *)
Theorem convert_round_trip_tolerance (x : Q) (m A B : string) :
  unit_of m A -> unit_of m B ->
  (forall q : Qc,
     exists y, ConvertUnits.to (JS.Num q) A B = Normal (JS.Num y)
               /\ ConvertUnits.to (JS.Num y) B A = Normal (JS.Num q))
  /\ (Qabs x <= 2 ^ 980 ->
      exists y z,
        to (Finite x) A B = Normal (Finite y)
        /\ to (Finite y) B A = Normal (Finite z)
        /\ (m <> "temperature" ->
            Qabs (z - x) <= 2 ^ (-50) * Qabs x + 2 ^ (-1030))
        /\ (m = "temperature" ->
            Qabs (z - x) <= 2 ^ (-49) * Qabs x + 2 ^ (-39))
        /\ (m = "temperature" -> Qabs x <= 1000000 ->
            fahrenheit_rankine A B = false ->
            Qabs (z - x) <= 1 # 1000000000)).
Proof.
  intros HA HB. split; [intros q; now apply (convert_round_trip q m) |].
  intros L. pose proof (round_trip_checked m A B HA HB) as C.
  unfold round_trip_ok in C.
  destruct (conversion_steps m A B) as [there |] eqn:S1; [| discriminate].
  destruct (conversion_steps m B A) as [back |] eqn:S2; [| discriminate].
  destruct (round_trip_bounds limit there back) as [b |] eqn:T;
    [| now rewrite andb_false_r in C].
  rewrite !andb_true_iff, negb_true_iff in C.
  destruct C as [[[Z A1] A0] Tol].
  apply Qeq_bool_iff in A1, A0.
  assert (ideal (there ++ back) x == x) as I
    by (rewrite (affine_sound _ _ Z), A1, A0; ring).
  destruct (round_trip_sound limit x there back b L T I)
    as (y & z & Ry & Rz & Rb & E).
  exists y, z.
  rewrite (to_run m A B there _ HA HB S1), Ry.
  rewrite (to_run m B A back _ HB HA S2), Rz.
  split; [reflexivity |]. split; [reflexivity |].
  pose proof (Qabs_nonneg x) as X.
  unfold tolerance_ok in Tol.
  destruct (String.eqb_spec m "temperature") as [Hm | Hm].
  - rewrite !andb_true_iff, orb_true_iff in Tol.
    destruct Tol as [[R1 R2] R3]. apply Qle_bool_iff in R1, R2.
    split; [intros N; now destruct N |]. split.
    + intros _. exact (bound_scaled _ _ _ _ _ _ X R1 R2 E).
    + intros _ S F. rewrite F in R3. destruct R3 as [R3 | R3]; [discriminate |].
      apply Qle_bool_iff in R3. exact (bound_at _ _ _ _ _ _ Rb S R3 E).
  - rewrite !andb_true_iff in Tol. destruct Tol as [R1 R2].
    apply Qle_bool_iff in R1, R2.
    split; [| split; intros N; now destruct Hm].
    intros _. exact (bound_scaled _ _ _ _ _ _ X R1 R2 E).
Qed.

Lemma convert_round_trip_tolerance_witness :
  exists y z,
    to (Finite 100) "F" "C" = Normal (Finite y)
    /\ to (Finite y) "C" "F" = Normal (Finite z)
    /\ Qabs (z - 100) <= 1 # 1000000000.
Proof.
  destruct (convert_round_trip_tolerance 100 "temperature" "F" "C")
    as [_ D].
  - eexists _, _. split; reflexivity.
  - eexists _, _. split; reflexivity.
  - destruct D as (y & z & There & Back & _ & _ & T).
    + vm_compute. discriminate.
    + exists y, z. split; [exact There | split; [exact Back |]].
      apply T; [reflexivity | vm_compute; discriminate | reflexivity].
Defined.

(** The round trips that do not reproduce the input.  The double of
    [7549824.154], taken from Fahrenheit to Celsius and back, comes back
    two units in the last place higher, [2 ^ -29] away, which is more than
    [1e-9]; and 3 yards, taken to feet and back, come back as
    [2.9999999999999996]. *)
Lemma round_trip_not_within_tolerance :
  literal 7549824.154 = Finite (8106561957995217 # 1073741824)
  /\ (exists y,
        to (Finite (8106561957995217 # 1073741824)) "F" "C" = Normal (Finite y)
        /\ to (Finite y) "C" "F" = Normal (Finite (8106561957995219 # 1073741824))
        /\ (1 # 1000000000)
           < Qabs ((8106561957995219 # 1073741824) - (8106561957995217 # 1073741824)))
  /\ to (Finite 3) "yd" "ft" = Normal (Finite (5066549580791807 # 562949953421312))
  /\ to (Finite (5066549580791807 # 562949953421312)) "ft" "yd"
     = Normal (Finite (6755399441055743 # 2251799813685248))
  /\ (6755399441055743 # 2251799813685248) < 3.
Proof.
  split; [vm_compute; reflexivity |]. split.
  - eexists. split; [vm_compute; reflexivity |].
    split; vm_compute; reflexivity.
  - repeat split; vm_compute; reflexivity.
Qed.

End ConvertUnits64Facts.

(** ** [unitConverter.js]: which pairs are accepted *)

Module UnitConverterFacts.
Import JS ConvertUnits ConvertUnitsFacts UnitConverter.

Lemma describe_unit (m u : string) :
  unit_of m u -> exists d, describe u = Some d /\ measure d = m.
Proof.
  intros H. destruct (unit_of_inv _ _ H) as (units & d & _ & _ & F & _).
  unfold describe. rewrite F. eexists. split; reflexivity.
Qed.

(** Two table units of one measure are accepted. *)
Lemma canConvert_same_measure (m A B : string) :
  unit_of m A -> unit_of m B -> canConvert A B = true.
Proof.
  intros HA HB. unfold canConvert.
  destruct (describe_unit _ _ HA) as (dA & -> & MA).
  destruct (describe_unit _ _ HB) as (dB & -> & MB).
  rewrite MA, MB. apply String.eqb_refl.
Qed.

(** Two table units of different measures are refused. *)
Lemma canConvert_cross_measure (m1 m2 A B : string) :
  unit_of m1 A -> unit_of m2 B -> m1 <> m2 -> canConvert A B = false.
Proof.
  intros HA HB N. unfold canConvert.
  destruct (describe_unit _ _ HA) as (dA & -> & MA).
  destruct (describe_unit _ _ HB) as (dB & -> & MB).
  rewrite MA, MB. now apply String.eqb_neq.
Qed.

(** A name [findMeasure] does not find is refused. *)
Lemma canConvert_not_found (A B : string) :
  findMeasure A = None \/ findMeasure B = None -> canConvert A B = false.
Proof.
  unfold canConvert, describe.
  intros [H | H]; rewrite H; [reflexivity |].
  destruct (findMeasure A); reflexivity.
Qed.

Lemma findMeasureIn_none (table : list (string * list (string * unit_data)))
  (u : string) :
  (forall m units, In (m, units) table -> assoc u units = None) ->
  inherited u = None -> findMeasureIn table u = None.
Proof.
  intros H I. induction table as [| [m units] table IH]; [reflexivity |].
  simpl. unfold get. rewrite (H m units) by now left. rewrite I. simpl.
  apply IH. intros m' units' In'. apply (H m' units'). now right.
Qed.

(** A name that is in no measure of the table and names no inherited
    member is found nowhere, and so refused with any partner. *)
Lemma canConvert_foreign (A B : string) :
  (forall m, ~ unit_of m A) \/ (forall m, ~ unit_of m B) ->
  inherited A = None -> inherited B = None ->
  canConvert A B = false.
Proof.
  assert (forall u, (forall m, ~ unit_of m u) -> inherited u = None ->
                    findMeasure u = None) as F.
  { intros u N I. apply findMeasureIn_none; [| exact I].
    intros m units Hin. destruct (assoc u units) as [d |] eqn:E; [| reflexivity].
    exfalso. apply (N m). exists units, d. split; [| exact E].
    simpl in Hin.
    repeat (destruct Hin as [Hin | Hin]; [injection Hin as <- <-; reflexivity |]).
    destruct Hin. }
  intros [N | N] IA IB; apply canConvert_not_found; [left | right]; now apply F.
Qed.

Section Pipeline.
Variable fmt : rendering.
Variable parseConversionQuery : string -> option parsed.

(** A refused pair yields a failure whose message names both units. *)
Lemma handleConversion_refused (query : string) (p : parsed) :
  parseConversionQuery query = Some p ->
  canConvert (normalizeUnit (fromUnit p)) (normalizeUnit (toUnit p)) = false ->
  handleConversion fmt parseConversionQuery query
  = Rejected
      ("Cannot convert from " ++ normalizeUnit (fromUnit p) ++ " to "
       ++ normalizeUnit (toUnit p)
       ++ ". Units may be incompatible or not supported.")
      query
      {| value := value p;
         fromUnit := normalizeUnit (fromUnit p);
         toUnit := normalizeUnit (toUnit p) |}.
Proof.
  intros Hp Hc. unfold handleConversion. rewrite Hp, Hc. reflexivity.
Qed.

(** Two table units of one measure other than temperature are
    converted through the base unit. *)
Lemma handleConversion_ratio (query : string) (p : parsed) (m : string) :
  parseConversionQuery query = Some p ->
  m <> "temperature" ->
  unit_of m (normalizeUnit (fromUnit p)) ->
  unit_of m (normalizeUnit (toUnit p)) ->
  exists rA rB text,
    ratio_in m (normalizeUnit (fromUnit p)) = Some rA
    /\ ratio_in m (normalizeUnit (toUnit p)) = Some rB
    /\ handleConversion fmt parseConversionQuery query
       = Converted (Num (value p * rA / rB)%Qc) (value p)
           (normalizeUnit (fromUnit p)) (normalizeUnit (toUnit p)) text.
Proof.
  intros Hp Hm HA HB.
  destruct (to_ratio (value p) m _ _ Hm HA HB) as (rA & rB & RA & RB & _ & _ & T).
  exists rA, rB. eexists. split; [exact RA | split; [exact RB |]].
  unfold handleConversion. rewrite Hp.
  rewrite (canConvert_same_measure m) by assumption. cbn [negb].
  unfold convertUnits. rewrite T. reflexivity.
Qed.
End Pipeline.

Lemma toString_is_no_unit (m : string) : ~ unit_of m "toString".
Proof.
  intros (units & d & Hm & Hu). apply assoc_In in Hm. simpl in Hm.
  repeat (destruct Hm as [Hm | Hm];
          [injection Hm as <- <-; vm_compute in Hu; discriminate |]).
  exact Hm.
Qed.

(** C4.  The pipeline does not refuse every unknown unit.  "toString" is
    in no measure of the table, yet [findMeasure] finds it under "length"
    (the lookup reaches the member every object inherits), the pair
    ("toString", "m") passes [canConvert], and the query
    "5 toString to m" is answered with a success whose result is [NaN]. *)
Theorem handleConversion_accepts_inherited_name (fmt : rendering) :
  let parse := fun _ : string =>
    Some {| value := Q2Qc 5; fromUnit := "toString"; toUnit := "m" |} in
  (forall m, ~ unit_of m "toString")
  /\ findMeasure "toString" = Some "length"
  /\ canConvert "toString" "m" = true
  /\ handleConversion fmt parse "5 toString to m"
     = Converted NaN (Q2Qc 5) "toString" "m"
         (numberToString fmt (Num (Q2Qc 5)) ++ " toString = "
          ++ toFixed fmt 6 NaN ++ " m")
  /\ success (handleConversion fmt parse "5 toString to m") = true.
Proof.
  intros parse. split; [exact toString_is_no_unit |].
  repeat split; reflexivity.
Qed.

(** Two ordinary queries: miles to kilometres, and metres to kilograms. *)
Example five_miles (fmt : rendering) :
  handleConversion fmt
    (fun _ => Some {| value := Q2Qc 5; fromUnit := "miles"; toUnit := "km" |})
    "Convert 5 miles to km"
  = Converted (Num (Q2Qc 8.04672)) (Q2Qc 5) "mi" "km"
      (numberToString fmt (Num (Q2Qc 5)) ++ " mi = "
       ++ toFixed fmt 6 (Num (Q2Qc 8.04672)) ++ " km").
Proof.
  unfold handleConversion. cbn [fromUnit toUnit value].
  change (normalizeUnit "miles") with "mi". change (normalizeUnit "km") with "km".
  change (canConvert "mi" "km") with true. cbn [negb]. unfold convertUnits.
  replace (ConvertUnits.to (Num (Q2Qc 5)) "mi" "km")
    with (Normal (Num (Q2Qc 8.04672))); [reflexivity |].
  destruct (miles_kilometres_round_trip (Q2Qc 5)) as [-> _].
  do 2 f_equal. apply Qc_is_canon. reflexivity.
Qed.

Example metres_to_kilograms (fmt : rendering) :
  handleConversion fmt
    (fun _ => Some {| value := Q2Qc 5; fromUnit := "meters"; toUnit := "kg" |})
    "5 meters to kg"
  = Rejected
      "Cannot convert from m to kg. Units may be incompatible or not supported."
      "5 meters to kg"
      {| value := Q2Qc 5; fromUnit := "m"; toUnit := "kg" |}.
Proof. reflexivity. Qed.

End UnitConverterFacts.

(** ** [currencyConverter.js]: cache, fetch and fallback *)

Module CurrencyConverterFacts.
Import JS CurrencyConverter.

Lemma usable_fresh (w : world) (key : string) :
  usable (cache w !! key) (clock w) = fresh w key.
Proof. reflexivity. Qed.

Lemma fresh_spec (w : world) (key : string) (c : entry) :
  fresh w key = Some c
  <-> cache w !! key = Some c /\ clock w - timestamp c < 10 * 60 * 1000.
Proof.
  unfold fresh. destruct (cache w !! key) as [c' |].
  - destruct (Z.ltb_spec (clock w - timestamp c') cacheTimeout) as [L | G].
    + split; [intros [= ->]; split; [reflexivity | exact L] | intros [[= ->] _]; reflexivity].
    + split; [discriminate |]. intros [[= ->] L]. unfold cacheTimeout in G. lia.
  - split; [discriminate | intros [[=] _]].
Qed.

Section Host.
Variable network : string -> Z -> reply.
Variable fmt : rendering.

(** [getExchangeRate] run in [w], case by case. *)
Lemma getExchangeRate_run (fromCurrency toCurrency : string) (w : world) :
  let key := cacheKey fromCurrency toCurrency in
  getExchangeRate network fromCurrency toCurrency w
  = match fresh w key with
    | Some c =>
        (Normal (rate c),
         {| cache := cache w; clock := clock w;
            trace := (trace w ++ [CacheGet key])%list |})
    | None =>
        let t := arrival network w fromCurrency in
        match fetched_rate (answer (answered network w fromCurrency)) toCurrency with
        | Some r =>
            let e := {| rate := r; timestamp := t |} in
            (Normal r,
             {| cache := <[key := e]> (cache w); clock := t;
                trace := (trace w ++ [CacheGet key; Fetch (rateUrl fromCurrency);
                                      CacheSet key e])%list |})
        | None =>
            let w' := {| cache := cache w; clock := t;
                         trace := (trace w ++ [CacheGet key;
                                               Fetch (rateUrl fromCurrency)])%list |} in
            match getFallbackRate fromCurrency toCurrency with
            | Some fr => (Normal fr, w')
            | None =>
                (Throw (failure_message (answer (answered network w fromCurrency))
                          fromCurrency toCurrency), w')
            end
        end
    end.
Proof.
  intros key. unfold getExchangeRate. fold (cacheKey fromCurrency toCurrency). fold key.
  unfold bind at 1. unfold cache_get, bind at 1. cbn [emit].
  unfold bind at 1. cbn [now cache clock trace].
  rewrite usable_fresh.
  destruct (fresh w key) as [c |]; [reflexivity |].
  unfold try_catch, fetchRate, bind at 1. unfold fetch, bind at 1. cbn [emit cache clock trace].
  fold (rateUrl fromCurrency). unfold arrival, answered.
  rewrite <- !app_assoc. cbn [app].
  destruct (network (rateUrl fromCurrency) (clock w)) as [resp lat]. cbn [answer latency].
  unfold fallback, fetched_rate, failure_message.
  destruct resp as [m | st tx | m | [rates |]]; cbn;
    try (destruct (getFallbackRate fromCurrency toCurrency); reflexivity).
  destruct (rates !! toUpperCase toCurrency) as [r |]; cbn;
    [| destruct (getFallbackRate fromCurrency toCurrency); reflexivity].
  destruct (nonzero r); cbn;
    [| destruct (getFallbackRate fromCurrency toCurrency); reflexivity].
  rewrite <- !app_assoc. reflexivity.
Qed.

Lemma added_app (w w' : world) (es : list event) :
  trace w' = (trace w ++ es)%list -> added w w' = es.
Proof.
  intros E. unfold added. rewrite E. now rewrite drop_app_length.
Qed.

(** [convertCurrency] never throws: it returns the identity result, a
    converted amount, or the failure record built from the error. *)
Lemma convertCurrency_run
  (amount : Qc) (fromCurrency toCurrency : string) (w : world) :
  convertCurrency network fmt amount fromCurrency toCurrency w
  = if String.eqb (toLowerCase fromCurrency) (toLowerCase toCurrency) then
      (Normal
         {| success := true; result_value := Some amount;
            result_rate := Some (Q2Qc 1); error := None; fromAmount := amount;
            fromCurrency := toUpperCase fromCurrency;
            toCurrency := toUpperCase toCurrency;
            formatted :=
              Some (numberToString fmt (Num amount) ++ " " ++ toUpperCase fromCurrency
                    ++ " = " ++ numberToString fmt (Num amount) ++ " "
                    ++ toUpperCase toCurrency);
            result_timestamp := None |}, w)
    else
      match getExchangeRate network fromCurrency toCurrency w with
      | (Normal r, w') =>
          (Normal
             {| success := true; result_value := Some (amount * r)%Qc;
                result_rate := Some r; error := None; fromAmount := amount;
                fromCurrency := toUpperCase fromCurrency;
                toCurrency := toUpperCase toCurrency;
                formatted :=
                  Some (numberToString fmt (Num amount) ++ " "
                        ++ toUpperCase fromCurrency ++ " = "
                        ++ toFixed fmt 2 (Num (amount * r)%Qc) ++ " "
                        ++ toUpperCase toCurrency);
                result_timestamp := Some (toISOString fmt (clock w')) |}, w')
      | (Throw m, w') => (Normal (failed m amount fromCurrency toCurrency), w')
      end.
Proof.
  unfold convertCurrency, try_catch.
  destruct (String.eqb _ _); [reflexivity |].
  unfold bind at 1.
  destruct (getExchangeRate network fromCurrency toCurrency w) as [[r | m] w'];
    reflexivity.
Qed.

Lemma convertCurrency_returns
  (amount : Qc) (fromCurrency toCurrency : string) (w : world) :
  exists r, fst (convertCurrency network fmt amount fromCurrency toCurrency w)
            = Normal r.
Proof.
  rewrite convertCurrency_run.
  destruct (String.eqb _ _); [eexists; reflexivity |].
  destruct (getExchangeRate network fromCurrency toCurrency w) as [[r | m] w'];
    eexists; reflexivity.
Qed.

(** C3.  When the two currency tokens are equal up to letter case,
    [convertCurrency] returns a success whose rate is 1 and whose result
    is the amount it was given, and leaves the world as it was: no
    request, no cache read, no cache write. *)
Theorem convertCurrency_same_currency
  (amount : Qc) (fromCurrency toCurrency : string) (w : world) :
  toLowerCase fromCurrency = toLowerCase toCurrency ->
  exists r,
    convertCurrency network fmt amount fromCurrency toCurrency w = (Normal r, w)
    /\ success r = true
    /\ result_rate r = Some (Q2Qc 1)
    /\ result_value r = Some amount
    /\ added w (snd (convertCurrency network fmt amount fromCurrency toCurrency w))
       = [].
Proof.
  intros E. rewrite convertCurrency_run, E, String.eqb_refl.
  eexists. repeat split. cbn [snd]. apply added_app. now rewrite app_nil_r.
Qed.


(** Without a usable entry exactly one request goes out. *)
Lemma getExchangeRate_requests (fromCurrency toCurrency : string) (w : world) :
  fresh w (cacheKey fromCurrency toCurrency) = None ->
  fetches (added w (snd (getExchangeRate network fromCurrency toCurrency w)))
  = [Fetch (rateUrl fromCurrency)].
Proof.
  intros F. rewrite getExchangeRate_run. cbv zeta. rewrite F.
  destruct (fetched_rate _ _) as [r |];
    [| destruct (getFallbackRate fromCurrency toCurrency)];
    cbn [snd]; erewrite added_app by reflexivity; reflexivity.
Qed.

(** C7.  With [key] the lowercase "from-to" string: [getExchangeRate]
    adds no request to the trace exactly when the cache holds an entry
    for [key] that is less than ten minutes old, and it then returns
    that entry's rate; otherwise it issues one request, and when that
    request brings a rate, it returns the rate and stores it under [key]
    with the clock reading of that moment. *)
Theorem getExchangeRate_cache (fromCurrency toCurrency : string) (w : world) :
  let key := toLowerCase fromCurrency ++ "-" ++ toLowerCase toCurrency in
  let run := getExchangeRate network fromCurrency toCurrency w in
  (forall c, fresh w key = Some c
             <-> cache w !! key = Some c /\ clock w - timestamp c < 10 * 60 * 1000)
  /\ (fetches (added w (snd run)) = [] <-> is_Some (fresh w key))
  /\ (forall c, fresh w key = Some c ->
        fst run = Normal (rate c) /\ cache (snd run) = cache w)
  /\ (fresh w key = None ->
        fetches (added w (snd run)) = [Fetch (rateUrl fromCurrency)])
  /\ (forall r, fresh w key = None ->
        fetched_rate (answer (answered network w fromCurrency)) toCurrency = Some r ->
        fst run = Normal r
        /\ clock (snd run) = arrival network w fromCurrency
        /\ cache (snd run)
           = <[key := {| rate := r; timestamp := clock (snd run) |}]> (cache w)).
Proof.
  intros key run.
  pose proof (getExchangeRate_run fromCurrency toCurrency w) as Run.
  cbv zeta in Run. fold key run in Run. unfold cacheKey in Run. fold key in Run.
  split; [intros c; apply fresh_spec |].
  destruct (fresh w key) as [c |] eqn:F.
  - rewrite Run. cbn [fst snd cache].
    rewrite (added_app _ _ [CacheGet key]) by reflexivity.
    split; [split; [intros _; eexists; reflexivity | reflexivity] |].
    split; [intros c' [= ->]; split; reflexivity |].
    split; [discriminate | intros r; discriminate].
  - pose proof (getExchangeRate_requests fromCurrency toCurrency w F) as A.
    fold run in A. rewrite A.
    split; [split; [discriminate | intros [x [=]]] |].
    split; [intros c [=] |].
    split; [reflexivity |].
    intros r _ R. rewrite Run, R. repeat split.
Qed.

Lemma stays_stale (w w2 : world) (key : string) :
  fresh w key = None -> cache w2 = cache w -> clock w <= clock w2 ->
  fresh w2 key = None.
Proof.
  unfold fresh. intros F C T. rewrite C.
  destruct (cache w !! key) as [c |]; [| reflexivity].
  destruct (Z.ltb_spec (clock w - timestamp c) cacheTimeout); [discriminate |].
  destruct (Z.ltb_spec (clock w2 - timestamp c) cacheTimeout); [lia | reflexivity].
Qed.

(** C10.  [getExchangeRate] changes the cache in one case only: the
    request it issued brought a rate, which it stores.  A lookup that is
    answered from the hardcoded table leaves the cache as it was, so the
    pair has no usable entry afterwards, and any later lookup of the
    pair on that cache issues a request again. *)
Theorem cache_written_only_on_fetched_rate
  (fromCurrency toCurrency : string) (w : world) (fr : Qc) :
  let key := cacheKey fromCurrency toCurrency in
  let run := getExchangeRate network fromCurrency toCurrency w in
  fresh w key = None ->
  fetched_rate (answer (answered network w fromCurrency)) toCurrency = None ->
  getFallbackRate fromCurrency toCurrency = Some fr ->
  (forall f t w0,
     cache (snd (getExchangeRate network f t w0)) = cache w0
     \/ exists r,
          fresh w0 (cacheKey f t) = None
          /\ fetched_rate (answer (answered network w0 f)) t = Some r
          /\ cache (snd (getExchangeRate network f t w0))
             = <[cacheKey f t := {| rate := r; timestamp := arrival network w0 f |}]>
                 (cache w0))
  /\ fst run = Normal fr
  /\ cache (snd run) = cache w
  /\ fresh (snd run) key = None
  /\ (forall w2, cache w2 = cache (snd run) -> clock w <= clock w2 ->
        fetches (added w2 (snd (getExchangeRate network fromCurrency toCurrency w2)))
        = [Fetch (rateUrl fromCurrency)]).
Proof.
  intros key run F R B.
  pose proof (getExchangeRate_run fromCurrency toCurrency w) as Run.
  cbv zeta in Run. fold key run in Run. rewrite F, R, B in Run.
  assert (cache (snd run) = cache w) as C by (rewrite Run; reflexivity).
  assert (forall w2, cache w2 = cache (snd run) -> clock w <= clock w2 ->
                     fresh w2 key = None) as Later.
  { intros w2 C2 T. apply (stays_stale w); [exact F | congruence | exact T]. }
  split; [| repeat split].
  - intros f t w0.
    pose proof (getExchangeRate_run f t w0) as Run0. cbv zeta in Run0.
    destruct (fresh w0 (cacheKey f t)) as [c |] eqn:F0;
      [left; rewrite Run0; reflexivity |].
    destruct (fetched_rate (answer (answered network w0 f)) t) as [r |] eqn:R0.
    + right. exists r. rewrite Run0. repeat split.
    + left. rewrite Run0. destruct (getFallbackRate f t); reflexivity.
  - rewrite Run. reflexivity.
  - exact C.
  - apply Later; [reflexivity |]. rewrite Run. cbn [snd clock]. unfold arrival. lia.
  - intros w2 C2 T. apply getExchangeRate_requests. apply (Later w2 C2 T).
Qed.
End Host.

Lemma convertCurrency_same_currency_witness :
  exists r,
    convertCurrency offline plain (Q2Qc 250) "usd" "USD" (started 0)
    = (Normal r, started 0)
    /\ success r = true
    /\ result_rate r = Some (Q2Qc 1)
    /\ result_value r = Some (Q2Qc 250)
    /\ added (started 0)
         (snd (convertCurrency offline plain (Q2Qc 250) "usd" "USD" (started 0)))
       = [].
Proof.
  apply (convertCurrency_same_currency offline plain (Q2Qc 250) "usd" "USD" (started 0)).
  reflexivity.
Defined.


Lemma cache_written_only_on_fetched_rate_witness :
  fst (getExchangeRate offline "usd" "eur" (started 0)) = Normal (Q2Qc 0.85)
  /\ cache (snd (getExchangeRate offline "usd" "eur" (started 0))) = ∅.
Proof.
  destruct (cache_written_only_on_fetched_rate offline "usd" "eur" (started 0) (Q2Qc 0.85))
    as (_ & A & B & _).
  - reflexivity.
  - reflexivity.
  - reflexivity.
  - split; [exact A | exact B].
Defined.

(** A 503 on a pair outside the table: the failure record carries the
    HTTP message. *)
Example unavailable_pair :
  fst (convertCurrency unavailable plain (Q2Qc 20) "CHF" "INR" (started 0))
  = Normal (failed "HTTP 503: Service Unavailable" (Q2Qc 20) "CHF" "INR").
Proof. reflexivity. Qed.

(** A served rate is cached; the second lookup, five minutes later, is
    answered from the cache without a request; a third one, eleven minutes
    after the first, asks again. *)
Example served_then_cached :
  let w1 := snd (getExchangeRate serving "eur" "usd" (started 1000)) in
  let later (t : Z) := {| cache := cache w1; clock := t; trace := [] |} in
  fst (getExchangeRate serving "eur" "usd" (started 1000)) = Normal (Q2Qc 1.08)
  /\ cache w1 !! "eur-usd" = Some {| rate := Q2Qc 1.08; timestamp := 1150 |}
  /\ getExchangeRate serving "EUR" "USD" (later 301150)
     = (Normal (Q2Qc 1.08),
        {| cache := cache w1; clock := 301150; trace := [CacheGet "eur-usd"] |})
  /\ fetches (trace (snd (getExchangeRate serving "EUR" "USD" (later 661150))))
     = [Fetch "https://api.exchangerate-api.com/v4/latest/EUR"].
Proof. repeat split; vm_compute; reflexivity. Qed.

End CurrencyConverterFacts.

(** ** [agent.js]: the bounded conversation history *)

Module AgentFacts.
Import JS Agent.

Lemma slice_last_length {A : Type} (n : nat) (a : list A) :
  (length (slice_last n a) <= n)%nat.
Proof. unfold slice_last. rewrite length_skipn. lia. Qed.

Lemma slice_last_short {A : Type} (n : nat) (a : list A) :
  (length a <= n)%nat -> slice_last n a = a.
Proof.
  intros H. unfold slice_last.
  replace (length a - n)%nat with 0%nat by lia. reflexivity.
Qed.

Lemma slice_last_rev {A : Type} (n : nat) (a : list A) :
  slice_last n a = rev (firstn n (rev a)).
Proof. unfold slice_last. now rewrite firstn_rev, rev_involutive. Qed.

Lemma firstn_app_firstn {A : Type} (n : nat) (a b : list A) :
  firstn n (a ++ firstn n b) = firstn n (a ++ b).
Proof.
  rewrite !firstn_app. f_equal.
  rewrite firstn_firstn. f_equal. lia.
Qed.

(** Trimming, appending and trimming again is trimming once. *)
Lemma slice_last_app {A : Type} (n : nat) (a e : list A) :
  slice_last n (slice_last n a ++ e) = slice_last n (a ++ e).
Proof.
  rewrite !slice_last_rev, !rev_app_distr, rev_involutive.
  now rewrite firstn_app_firstn.
Qed.

Section Steps.
Context {A T : Type}.
Variable analyzeQuery : list message -> string -> completion A.
Variable executeToolCalls : string -> A -> completion T.
Variable generateFinalResponse : list message -> string -> T -> completion string.

Local Abbreviation processQuery :=
  (processQuery analyzeQuery executeToolCalls generateFinalResponse).
Local Abbreviation step := (step analyzeQuery executeToolCalls generateFinalResponse).
Local Abbreviation session :=
  (session analyzeQuery executeToolCalls generateFinalResponse).
Local Abbreviation replay :=
  (replay analyzeQuery executeToolCalls generateFinalResponse).

(** One call: an answer appends the exchange and keeps the last ten
    entries; an error keeps the history. *)
Lemma processQuery_history (h : list message) (q : string) :
  match processQuery h q with
  | (Answered _ _ _ f, h') => h' = slice_last 10 (h ++ exchange q f)
  | (Errored _ _ _, h') => h' = h
  end.
Proof.
  unfold Agent.processQuery, errored.
  destruct (analyzeQuery h q) as [a | m]; [| reflexivity].
  destruct (executeToolCalls q a) as [t | m]; [| reflexivity].
  destruct (generateFinalResponse h q t) as [f | m]; [| reflexivity].
  fold (exchange q f).
  destruct (Nat.ltb_spec 10 (length (h ++ exchange q f))) as [L | L];
    [reflexivity |].
  symmetry. now apply slice_last_short.
Qed.

Lemma step_bounded (h : list message) (r : request) :
  (length h <= 10)%nat -> (length (step h r) <= 10)%nat.
Proof.
  intros H. destruct r as [q |]; [| simpl; lia].
  unfold Agent.step. pose proof (processQuery_history h q) as P.
  destruct (processQuery h q) as [[? ? ? f | ? ? ?] h']; cbn [snd]; subst h'.
  - apply slice_last_length.
  - exact H.
Qed.

Lemma fold_step_bounded (rs : list request) (h : list message) :
  (length h <= 10)%nat -> (length (fold_left step rs h) <= 10)%nat.
Proof.
  revert h. induction rs as [| r rs IH]; intros h H; [exact H |].
  simpl. apply IH. now apply step_bounded.
Qed.

(** The history is the end of the untrimmed record. *)
Lemma replay_history (rs : list request) (h full : list message) :
  h = slice_last 10 full ->
  fst (replay h full rs) = fold_left step rs h
  /\ fst (replay h full rs) = slice_last 10 (snd (replay h full rs)).
Proof.
  revert h full. induction rs as [| r rs IH]; intros h full H; [split; [reflexivity | exact H] |].
  destruct r as [q |]; cbn [Agent.replay fold_left Agent.step].
  - pose proof (processQuery_history h q) as P.
    destruct (processQuery h q) as [[? ? ? f | ? ? ?] h']; cbn [snd]; apply IH.
    + rewrite P, H. apply slice_last_app.
    + now rewrite P.
  - apply IH. reflexivity.
Qed.

(** The untrimmed record is made of whole exchanges. *)
Lemma replay_exchanges (rs : list request) (h full : list message) :
  (exists xs, full = concat (map (fun x => exchange (fst x) (snd x)) xs)) ->
  exists xs : list (string * string),
    snd (replay h full rs) = concat (map (fun x => exchange (fst x) (snd x)) xs).
Proof.
  revert h full. induction rs as [| r rs IH]; intros h full H; [exact H |].
  destruct r as [q |]; cbn [Agent.replay].
  - destruct (processQuery h q) as [[? ? ? f | ? ? ?] h']; apply IH; [| exact H].
    destruct H as [xs ->]. exists (xs ++ [(q, f)])%list.
    rewrite map_app, concat_app. cbn [map concat fst snd].
    now rewrite app_nil_r.
  - apply IH. now exists [].
Qed.

(** C9.  However a session goes, the history holds at most ten entries
    after it.  A call that is answered appends the user entry and the
    model entry and keeps the last ten entries of the result; a call
    that fails leaves the history as it was.  The history is thereby
    always the last ten entries of the record of all answered exchanges
    (a record of whole user/model pairs, so its last five). *)
Theorem history_bounded (rs : list request) (h : list message) (q : string) :
  (length (session rs) <= 10)%nat
  /\ match processQuery h q with
     | (Answered _ _ _ f, h') =>
         h' = slice_last 10
                (h ++ [ {| role := "user"; text := q |};
                        {| role := "model"; text := f |} ])
         /\ (length h' <= 10)%nat
     | (Errored _ _ _, h') => h' = h
     end
  /\ (exists xs : list (string * string),
        snd (replay [] [] rs) = concat (map (fun x => exchange (fst x) (snd x)) xs)
        /\ session rs = slice_last 10 (snd (replay [] [] rs))).
Proof.
  split; [| split].
  - apply fold_step_bounded. simpl. lia.
  - pose proof (processQuery_history h q) as P.
    destruct (processQuery h q) as [[? ? ? f | ? ? ?] h']; [| exact P].
    split; [exact P |]. rewrite P. apply slice_last_length.
  - destruct (replay_exchanges rs [] []) as [xs E]; [now exists [] |].
    exists xs. split; [exact E |].
    destruct (replay_history rs [] []) as [S L]; [reflexivity |].
    unfold Agent.session. now rewrite <- S.
Qed.
End Steps.

(** Seven answered queries leave the last five exchanges. *)
Example seven_queries :
  session (fun _ _ => Normal ()) (fun _ _ => Normal ())
    (fun _ q _ => Normal ("re: " ++ q))
    (map Query ["q1"; "q2"; "q3"; "q4"; "q5"; "q6"; "q7"])
  = concat (map (fun q => exchange q ("re: " ++ q)) ["q3"; "q4"; "q5"; "q6"; "q7"]).
Proof. reflexivity. Qed.

(** A failing step leaves the history alone. *)
Example failed_query (h : list message) :
  processQuery (fun _ _ => Normal ()) (fun _ _ => Throw "TypeError")
    (fun _ q (_ : ()) => Normal q) h "q"
  = (Errored "q" "TypeError"
       "I encountered an error processing your request: TypeError", h).
Proof. reflexivity. Qed.

End AgentFacts.

(** ** [lib/convert-units.js] and [unitConverter.js]: further properties *)

Module ConvertUnitsMore.
Import JS ConvertUnits ConvertUnitsFacts UnitConverter UnitConverterFacts.

Lemma truthy_false {A : Type} (own : list (string * A)) (u : string) :
  truthy (get own u) = false -> assoc u own = None /\ inherited u = None.
Proof.
  unfold get. destruct (assoc u own); [discriminate |].
  destruct (inherited u); [discriminate | split; reflexivity].
Qed.

Lemma truthy_plain {A : Type} (own : list (string * A)) (u : string) :
  truthy (get own u) = true -> inherited u = None ->
  exists d, assoc u own = Some d.
Proof.
  unfold get. intros T I. destruct (assoc u own) as [d |]; [now exists d |].
  rewrite I in T. discriminate.
Qed.

(** Where [findMeasure] finds a name. *)
Lemma findMeasure_found (u m : string) :
  findMeasure u = Some m ->
  exists units,
    assoc m conversions = Some units
    /\ truthy (get units u) = true
    /\ (m <> "length" -> inherited u = None).
Proof.
  unfold findMeasure, conversions. cbn [findMeasureIn].
  repeat match goal with
    | |- context [truthy (get ?l u)] =>
        let E := fresh "E" in
        destruct (truthy (get l u)) eqn:E;
        [ intros [= <-]; eexists; split; [reflexivity |]; split; [exact E |];
          first [ intros N; now contradiction N
                | intros _;
                  match goal with
                  | H : truthy (get _ u) = false |- _ =>
                      exact (proj2 (truthy_false _ _ H))
                  end ]
        | ]
    end.
  discriminate.
Qed.

Lemma table_plain :
  forallb (fun p => forallb entry_plain (snd p)) conversions = true.
Proof. vm_compute. reflexivity. Qed.

Lemma unit_of_plain (m u : string) : unit_of m u -> inherited u = None.
Proof.
  intros (units & d & Hm & Hu).
  pose proof table_plain as T. rewrite forallb_forall in T.
  specialize (T _ (assoc_In _ _ _ Hm)). cbn [snd] in T.
  rewrite forallb_forall in T. specialize (T _ (assoc_In _ _ _ Hu)).
  unfold entry_plain in T. cbn [fst] in T.
  destruct (inherited u); [discriminate | reflexivity].
Qed.

(** A name found under a measure and inheriting nothing is a unit of it. *)
Lemma findMeasure_unit (u m : string) :
  findMeasure u = Some m -> inherited u = None -> unit_of m u.
Proof.
  intros F I. destruct (findMeasure_found u m F) as (units & Hm & T & _).
  destruct (truthy_plain units u T I) as [d Hu]. now exists units, d.
Qed.

Lemma findMeasure_nonempty (u m : string) : findMeasure u = Some m -> u <> "".
Proof. intros F ->. vm_compute in F. discriminate. Qed.

Lemma temperature_target (v : jsnum) (A B : string) :
  unit_of "temperature" A ->
  B <> "C" -> B <> "F" -> B <> "K" -> B <> "R" ->
  convertTemperature v A B = Throw ("Unknown temperature unit: " ++ B).
Proof.
  intros HA NC NF NK NR. apply temperature_units in HA.
  unfold convertTemperature.
  rewrite (proj2 (String.eqb_neq B "C")), (proj2 (String.eqb_neq B "F")),
    (proj2 (String.eqb_neq B "K")), (proj2 (String.eqb_neq B "R")) by assumption.
  destruct HA as [-> | [-> | [-> | ->]]];
    rewrite (proj2 (String.eqb_neq _ B)) by congruence; reflexivity.
Qed.

(** X2.  Across measures [Convert.to] never returns a number: from a
    temperature scale it reports the target as an unknown temperature
    unit, from any other unit it reports that the pair cannot be
    converted; [convertUnits] turns either into a failure that repeats the
    message, the value and the two units. *)
Theorem to_across_measures
  (fmt : rendering) (x : Qc) (m1 m2 A B : string) :
  unit_of m1 A -> unit_of m2 B -> m1 <> m2 ->
  let message :=
    if String.eqb m1 "temperature"
    then "Unknown temperature unit: " ++ B
    else "Cannot convert from " ++ A ++ " to " ++ B in
  to (Num x) A B = Throw message
  /\ convertUnits fmt x A B = Failed message x A B.
Proof.
  intros HA HB N message.
  assert (to (Num x) A B = Throw message) as T.
  { subst message.
    destruct (unit_of_inv _ _ HA) as (units & dA & Um & UA & FA & EA & _).
    destruct (unit_of_inv _ _ HB) as (units' & dB & _ & _ & FB & _ & _).
    destruct (String.eqb_spec m1 "temperature") as [-> | Hm].
    - rewrite to_temperature by assumption.
      apply temperature_target; [assumption | | | |];
        intros ->; vm_compute in FB; congruence.
    - unfold to. rewrite (proj2 (String.eqb_neq A "")) by exact EA.
      rewrite FA, (proj2 (String.eqb_neq m1 "temperature")) by exact Hm.
      rewrite Um. change (default [] (Some units)) with units.
      rewrite (get_own _ _ _ UA).
      assert (get units B = Undefined) as ->; [| reflexivity].
      unfold get. rewrite (unit_of_plain _ _ HB).
      destruct (assoc B units) as [d |] eqn:E; [| reflexivity].
      assert (unit_of m1 B) as HB' by (now exists units, d).
      destruct (unit_of_inv _ _ HB') as (_ & _ & _ & _ & FB' & _). congruence. }
  split; [exact T |]. unfold convertUnits. now rewrite T.
Qed.

Lemma to_across_measures_witness :
  to (num 5) "m" "kg" = Throw "Cannot convert from m to kg"
  /\ convertUnits CurrencyConverter.plain (Q2Qc 5) "m" "kg"
     = Failed "Cannot convert from m to kg" (Q2Qc 5) "m" "kg".
Proof.
  apply (to_across_measures CurrencyConverter.plain (Q2Qc 5) "length" "mass" "m" "kg").
  - eexists _, _. split; reflexivity.
  - eexists _, _. split; reflexivity.
  - discriminate.
Defined.

(** X3.  A name that is in no measure and inherits nothing is an unknown unit
    for [Convert.to], whatever the target. *)
Theorem to_unknown_unit (fmt : rendering) (x : Qc) (A B : string) :
  (forall m, ~ unit_of m A) -> inherited A = None -> A <> "" ->
  to (Num x) A B = Throw ("Unknown unit: " ++ A)
  /\ convertUnits fmt x A B = Failed ("Unknown unit: " ++ A) x A B.
Proof.
  intros N I E.
  assert (findMeasure A = None) as F.
  { destruct (findMeasure A) as [m |] eqn:F; [| reflexivity].
    exfalso. apply (N m). now apply findMeasure_unit. }
  assert (to (Num x) A B = Throw ("Unknown unit: " ++ A)) as T.
  { unfold to. rewrite (proj2 (String.eqb_neq A "")) by exact E. now rewrite F. }
  split; [exact T |]. unfold convertUnits. now rewrite T.
Qed.

Lemma parsec_is_no_unit (m : string) : ~ unit_of m "parsec".
Proof.
  intros (units & d & Hm & Hu). apply assoc_In in Hm. simpl in Hm.
  repeat (destruct Hm as [Hm | Hm];
          [injection Hm as <- <-; vm_compute in Hu; discriminate |]).
  exact Hm.
Qed.

Lemma to_unknown_unit_witness :
  to (num 2) "parsec" "km" = Throw "Unknown unit: parsec"
  /\ convertUnits CurrencyConverter.plain (Q2Qc 2) "parsec" "km"
     = Failed "Unknown unit: parsec" (Q2Qc 2) "parsec" "km".
Proof.
  apply (to_unknown_unit CurrencyConverter.plain (Q2Qc 2) "parsec" "km").
  - exact parsec_is_no_unit.
  - reflexivity.
  - discriminate.
Defined.

Lemma canConvert_found (A B : string) :
  canConvert A B = true ->
  exists m, findMeasure A = Some m /\ findMeasure B = Some m.
Proof.
  unfold canConvert, describe.
  destruct (findMeasure A) as [mA |]; [| discriminate].
  destruct (findMeasure B) as [mB |]; [| discriminate].
  cbn [measure]. intros E. apply String.eqb_eq in E. subst mB. now exists mA.
Qed.

Lemma convertTemperature_returns (v : jsnum) (A B : string) :
  unit_of "temperature" A -> unit_of "temperature" B ->
  exists r, convertTemperature v A B = Normal r.
Proof.
  intros HA HB. apply temperature_units in HA, HB.
  destruct HA as [-> | [-> | [-> | ->]]], HB as [-> | [-> | [-> | ->]]];
    eexists; reflexivity.
Qed.

(** X4.  Whatever pair of names [canConvert] accepts, [Convert.to] returns for
    it.  So [handleConversion] never ends in the [catch] of
    [convertUnits]: it reports an unparsed query, a refused pair, or a
    converted value. *)
Theorem canConvert_then_to_returns
  (fmt : rendering) (parseConversionQuery : string -> option parsed)
  (v : jsnum) (A B query : string) :
  (canConvert A B = true -> exists r, to v A B = Normal r)
  /\ match handleConversion fmt parseConversionQuery query with
     | Failed _ _ _ _ => False
     | _ => True
     end.
Proof.
  assert (forall v A B, canConvert A B = true -> exists r, to v A B = Normal r) as S.
  { clear. intros v A B H.
    destruct (canConvert_found A B H) as (m & FA & FB).
    pose proof (findMeasure_nonempty A m FA) as EA.
    unfold to. rewrite (proj2 (String.eqb_neq A "")) by exact EA. rewrite FA.
    destruct (String.eqb_spec m "temperature") as [-> | Hm].
    - destruct (findMeasure_found A _ FA) as (_ & _ & _ & IA); specialize (IA ltac:(discriminate)).
      destruct (findMeasure_found B _ FB) as (_ & _ & _ & IB); specialize (IB ltac:(discriminate)).
      apply convertTemperature_returns; now apply findMeasure_unit.
    - destruct (findMeasure_found A m FA) as (units & Um & TA & _).
      destruct (findMeasure_found B m FB) as (units' & Um' & TB & _).
      assert (units' = units) as -> by congruence.
      rewrite Um. change (default [] (Some units)) with units.
      rewrite TA, TB. eexists. reflexivity. }
  split; [apply S |].
  unfold handleConversion.
  destruct (parseConversionQuery query) as [p |]; [| exact I].
  destruct (canConvert (normalizeUnit (fromUnit p)) (normalizeUnit (toUnit p))) eqn:C;
    [| exact I].
  cbn [negb]. unfold convertUnits.
  destruct (S (Num (value p)) _ _ C) as [r ->]. exact I.
Qed.

(** X5.  [canConvert] is symmetric and transitive, and reflexive exactly on the
    names [findMeasure] finds. *)
Theorem canConvert_equivalence (A B C : string) :
  canConvert A B = canConvert B A
  /\ (canConvert A B = true -> canConvert B C = true -> canConvert A C = true)
  /\ (canConvert A A = true <-> findMeasure A <> None).
Proof.
  split; [| split].
  - unfold canConvert, describe.
    destruct (findMeasure A) as [mA |], (findMeasure B) as [mB |]; try reflexivity.
    apply String.eqb_sym.
  - intros AB BC.
    destruct (canConvert_found A B AB) as (m & FA & FB).
    destruct (canConvert_found B C BC) as (m' & FB' & FC).
    assert (m' = m) as -> by congruence.
    unfold canConvert, describe. rewrite FA, FC. apply String.eqb_refl.
  - unfold canConvert, describe.
    destruct (findMeasure A) as [mA |]; cbn [measure].
    + rewrite String.eqb_refl. split; [discriminate | reflexivity].
    + split; [discriminate | intros N; now contradiction N].
Qed.

(** *** [normalizeUnit] *)

Lemma units_fixed :
  forallb (fun p => forallb (fun e => String.eqb (normalizeUnit (fst e)) (fst e)) (snd p))
    conversions = true.
Proof. vm_compute. reflexivity. Qed.

Lemma normalizeUnit_fixes_units (m u : string) :
  unit_of m u -> normalizeUnit u = u.
Proof.
  intros (units & d & Hm & Hu).
  pose proof units_fixed as T. rewrite forallb_forall in T.
  specialize (T _ (assoc_In _ _ _ Hm)). cbn [snd] in T.
  rewrite forallb_forall in T. specialize (T _ (assoc_In _ _ _ Hu)).
  cbn [fst] in T. now apply String.eqb_eq.
Qed.

Lemma aliases_ok : forallb alias_ok aliases = true.
Proof. vm_compute. reflexivity. Qed.

Lemma alias_value (k v : string) :
  In (k, v) aliases ->
  get aliases k = OwnProp v /\ exists m, unit_of m v.
Proof.
  intros H. pose proof aliases_ok as T. rewrite forallb_forall in T.
  specialize (T _ H). unfold alias_ok in T. cbn [fst snd] in T.
  rewrite !andb_true_iff, bool_decide_eq_true in T. destruct T as [[F I] G].
  split.
  - destruct (get aliases k) as [v' | |]; try discriminate.
    apply String.eqb_eq in G. now subst.
  - destruct (findMeasure v) as [m |] eqn:E; [| now contradiction F].
    exists m. apply findMeasure_unit; [exact E |].
    destruct (inherited v); [discriminate | reflexivity].
Qed.

Lemma get_own_plain {A : Type} (l : list (string * A)) (k : string) (v : A) :
  get l k = OwnProp v -> assoc k l = Some v.
Proof.
  unfold get. destruct (assoc k l) as [x |]; [now intros [= ->] |].
  destruct (inherited k); discriminate.
Qed.

(** X6.  An alias of the tables, written in any letter case, is normalized to
    the table's value for it; that value is a unit of the conversions
    table and is itself left unchanged. *)
Theorem normalizeUnit_alias (k v u : string) :
  In (k, v) aliases -> toLowerCase u = k ->
  normalizeUnit u = v /\ (exists m, unit_of m v) /\ normalizeUnit v = v.
Proof.
  intros H L.
  destruct (alias_value k v H) as (_ & m & U).
  split; [| split; [now exists m | now apply (normalizeUnit_fixes_units m)]].
  clear m U.
  unfold normalizeUnit, normalizeTemperatureUnit, lookup_or. rewrite L. clear L.
  unfold aliases, tempMappings, unitMappings in H. cbn [app In] in H.
  repeat (destruct H as [H | H];
          [ injection H as <- <-;
            match goal with
            | |- context [get tempMappings ?s] =>
                let r := eval vm_compute in (get tempMappings s) in
                change (get tempMappings s) with r
            end;
            match goal with
            | |- context [get unitMappings ?s] =>
                let r := eval vm_compute in (get unitMappings s) in
                change (get unitMappings s) with r
            end;
            cbv iota; rewrite ?String.eqb_refl;
            first [ reflexivity
                  | match goal with
                    | |- context [String.eqb ?a u] =>
                        destruct (String.eqb_spec a u) as [<- | ?]; reflexivity
                    end ]
          | ]).
  destruct H.
Qed.

Lemma normalizeUnit_alias_witness :
  normalizeUnit "Kilometres" = "km"
  /\ (exists m, unit_of m "km") /\ normalizeUnit "km" = "km".
Proof.
  apply (normalizeUnit_alias "kilometres" "km" "Kilometres").
  - unfold aliases. apply in_or_app. right. simpl. tauto.
  - reflexivity.
Defined.

Lemma lookup_or_cases (mappings : list (string * string)) (u : string) :
  inherited (toLowerCase u) = None ->
  lookup_or mappings u = u \/ In (toLowerCase u, lookup_or mappings u) mappings.
Proof.
  intros I. unfold lookup_or, get. rewrite I.
  destruct (assoc (toLowerCase u) mappings) as [v |] eqn:E; [| now left].
  right. now apply assoc_In.
Qed.

(** X7.  [normalizeUnit] is idempotent (on a name whose lowercase form names no
    inherited member), and it leaves every unit of the table unchanged. *)
Theorem normalizeUnit_idempotent (u : string) :
  inherited (toLowerCase u) = None ->
  normalizeUnit (normalizeUnit u) = normalizeUnit u
  /\ (forall m, unit_of m u -> normalizeUnit u = u).
Proof.
  intros I. split; [| intros m; apply normalizeUnit_fixes_units].
  assert (normalizeUnit u = u \/ exists k, In (k, normalizeUnit u) aliases) as [E | [k H]].
  { unfold normalizeUnit, normalizeTemperatureUnit.
    destruct (lookup_or_cases tempMappings u I) as [E | H].
    - rewrite E, String.eqb_refl. cbn [negb].
      destruct (lookup_or_cases unitMappings u I) as [E' | H]; [now left |].
      right. exists (toLowerCase u). unfold aliases. apply in_or_app. now right.
    - destruct (String.eqb_spec (lookup_or tempMappings u) u) as [E | N]; cbn [negb].
      + destruct (lookup_or_cases unitMappings u I) as [E' | H']; [now left |].
        right. exists (toLowerCase u). unfold aliases. apply in_or_app. now right.
      + right. exists (toLowerCase u). unfold aliases. apply in_or_app. now left. }
  - now rewrite !E.
  - destruct (alias_value _ _ H) as (_ & m & U).
    now apply (normalizeUnit_fixes_units m).
Qed.

Lemma normalizeUnit_idempotent_witness :
  normalizeUnit (normalizeUnit "Fahrenheit") = normalizeUnit "Fahrenheit"
  /\ (forall m, unit_of m "Fahrenheit" -> normalizeUnit "Fahrenheit" = "Fahrenheit").
Proof. apply (normalizeUnit_idempotent "Fahrenheit"). reflexivity. Defined.

(** *** [list], [measures] and [describe] *)

Lemma assoc_NoDup {A : Type} (l : list (string * A)) (k : string) (v : A) :
  NoDup (map fst l) -> In (k, v) l -> assoc k l = Some v.
Proof.
  induction l as [| [k' v'] l IH]; intros N H; [destruct H |].
  simpl in N. apply NoDup_cons in N as [Nk N]. simpl.
  destruct H as [[= -> ->] | H]; [now rewrite String.eqb_refl |].
  destruct (String.eqb_spec k k') as [-> | _]; [| now apply IH].
  exfalso. apply Nk. apply list_elem_of_In. apply (in_map fst) in H. exact H.
Qed.

Lemma table_keys_distinct :
  NoDup (map fst conversions)
  /\ Forall (fun p => NoDup (map fst (snd p))) conversions.
Proof.
  split.
  - apply (bool_decide_unpack _). vm_compute. exact I.
  - apply (bool_decide_unpack _). vm_compute. exact I.
Qed.

Lemma listUnits_inv (m : string) (e : listed) :
  In e (listUnits m) ->
  listed_measure e = m
  /\ exists units,
       assoc m conversions = Some units
       /\ assoc (abbr e) units = Some (listed_data e).
Proof.
  unfold listUnits. destruct (get conversions m) as [units | |] eqn:G; try (intros []).
  intros H. apply in_map_iff in H as ([u d] & <- & H). cbn [abbr listed_measure listed_data fst snd].
  split; [reflexivity |]. exists units.
  pose proof (get_own_plain _ _ _ G) as Hm. split; [exact Hm |].
  destruct table_keys_distinct as [_ F]. rewrite Forall_forall in F.
  specialize (F _ (proj2 (list_elem_of_In _ _) (assoc_In _ _ _ Hm))). cbn [snd] in F.
  now apply assoc_NoDup.
Qed.

(** X8.  Every unit that [list] returns for a name is described by [describe]
    under that very measure, with the data listed; the name is one of
    [measures()]; and no unit is listed under two measures. *)
Theorem listUnits_described (m : string) (e : listed) :
  In e (listUnits m) ->
  In m measures
  /\ listed_measure e = m
  /\ describe (abbr e)
     = Some {| measure := m; unit := abbr e; data := Some (listed_data e) |}
  /\ (forall m' e', In e' (listUnits m') -> abbr e' = abbr e -> m' = m).
Proof.
  intros H. destruct (listUnits_inv m e H) as (L & units & Hm & Hu).
  assert (unit_of m (abbr e)) as U by (now exists units, (listed_data e)).
  destruct (unit_of_inv _ _ U) as (_ & _ & _ & _ & F & _).
  split; [| split; [exact L | split]].
  - unfold measures. apply assoc_In in Hm. now apply (in_map fst) in Hm.
  - unfold describe. rewrite F, Hm. change (default [] (Some units)) with units.
    now rewrite (get_own _ _ _ Hu).
  - intros m' e' H' E. destruct (listUnits_inv m' e' H') as (_ & units' & Hm' & Hu').
    assert (unit_of m' (abbr e)) as U' by (rewrite <- E; now exists units', (listed_data e')).
    destruct (unit_of_inv _ _ U') as (_ & _ & _ & _ & F' & _). congruence.
Qed.

Lemma listUnits_described_witness :
  describe "gal"
  = Some {| measure := "volume"; unit := "gal"; data := Some (with_ratio "gallon" 3.78541) |}.
Proof.
  destruct (listUnits_described "volume"
              {| abbr := "gal"; listed_measure := "volume";
                 listed_data := with_ratio "gallon" 3.78541 |}) as (_ & _ & D & _).
  - unfold listUnits. simpl. tauto.
  - exact D.
Defined.

(** For a name that is not one of [measures()], [list] returns nothing. *)
Lemma listUnits_other (m : string) : ~ In m measures -> listUnits m = [].
Proof.
  intros N. unfold listUnits.
  destruct (get conversions m) as [units | |] eqn:G; try reflexivity.
  exfalso. apply N. apply get_own_plain, assoc_In in G.
  now apply (in_map fst) in G.
Qed.

(** *** Order *)

Lemma table_positive :
  forallb (fun p => forallb entry_positive (snd p)) conversions = true.
Proof. vm_compute. reflexivity. Qed.

Lemma ratio_in_positive (m u : string) (r : Qc) :
  ratio_in m u = Some r -> (Q2Qc 0 < r)%Qc.
Proof.
  unfold ratio_in. intros H.
  destruct (assoc m conversions) as [units |] eqn:Em; [| discriminate].
  cbn in H. destruct (assoc u units) as [d |] eqn:Eu; [| discriminate].
  cbn in H.
  pose proof table_positive as T. rewrite forallb_forall in T.
  specialize (T _ (assoc_In _ _ _ Em)). cbn [snd] in T.
  rewrite forallb_forall in T. specialize (T _ (assoc_In _ _ _ Eu)).
  unfold entry_positive in T. cbn [snd] in T. rewrite H in T.
  now apply bool_decide_eq_true in T.
Qed.

Ltac nonnegative := unfold Qcle; vm_compute; discriminate.

Ltac monotone :=
  repeat first
    [ assumption
    | apply Qcle_refl
    | apply Qcplus_le_compat
    | apply Qcmult_le_compat_r; [| nonnegative] ].

(** X9.  A conversion preserves order: for two table units of one measure
    (temperature included) a larger value converts to a larger result, or
    an equal one for equal values. *)
Theorem to_order_preserving (x y : Qc) (m A B : string) :
  unit_of m A -> unit_of m B -> (x <= y)%Qc ->
  exists x' y',
    to (Num x) A B = Normal (Num x')
    /\ to (Num y) A B = Normal (Num y')
    /\ (x' <= y')%Qc.
Proof.
  intros HA HB L.
  destruct (String.eqb_spec m "temperature") as [-> | N].
  - rewrite !(to_temperature _ A B HA), !or_zero_num.
    apply temperature_units in HA, HB.
    destruct HA as [-> | [-> | [-> | ->]]], HB as [-> | [-> | [-> | ->]]];
      do 2 eexists; (split; [reflexivity |]); (split; [reflexivity |]);
      unfold Qcdiv, Qcminus; monotone.
  - destruct (to_ratio x m A B N HA HB) as (rA & rB & RA & RB & NA & NB & Tx).
    destruct (to_ratio y m A B N HA HB) as (rA' & rB' & RA' & RB' & _ & _ & Ty).
    assert (rA' = rA) as -> by congruence.
    assert (rB' = rB) as -> by congruence.
    pose proof (ratio_in_positive _ _ _ RA) as PA.
    pose proof (ratio_in_positive _ _ _ RB) as PB.
    do 2 eexists. split; [exact Tx | split; [exact Ty |]].
    apply (Qcmult_lt_0_le_reg_r _ _ rB PB).
    replace (x * rA / rB * rB)%Qc with (x * rA)%Qc by (field; exact NB).
    replace (y * rA / rB * rB)%Qc with (y * rA)%Qc by (field; exact NB).
    apply Qcmult_le_compat_r; [exact L | now apply Qclt_le_weak].
Qed.

Lemma to_order_preserving_witness :
  exists x' y',
    to (Num (Q2Qc (-40))) "F" "K" = Normal (Num x')
    /\ to (Num (Q2Qc 100)) "F" "K" = Normal (Num y')
    /\ (x' <= y')%Qc.
Proof.
  apply (to_order_preserving (Q2Qc (-40)) (Q2Qc 100) "temperature" "F" "K").
  - do 2 eexists. split; reflexivity.
  - do 2 eexists. split; reflexivity.
  - unfold Qcle. vm_compute. discriminate.
Defined.

End ConvertUnitsMore.

(** ** Letter case *)

Module JSCase.
Import JS.

Lemma lower_upper_char (c : ascii) : lower_char (upper_char c) = lower_char c.
Proof. destruct c as [[] [] [] [] [] [] [] []]; reflexivity. Qed.

Lemma upper_lower_char (c : ascii) : upper_char (lower_char c) = upper_char c.
Proof. destruct c as [[] [] [] [] [] [] [] []]; reflexivity. Qed.

Lemma upper_upper_char (c : ascii) : upper_char (upper_char c) = upper_char c.
Proof. destruct c as [[] [] [] [] [] [] [] []]; reflexivity. Qed.

Lemma lower_lower_char (c : ascii) : lower_char (lower_char c) = lower_char c.
Proof. destruct c as [[] [] [] [] [] [] [] []]; reflexivity. Qed.

Lemma map_chars_compose (f g h : ascii -> ascii) (s : string) :
  (forall c, f (g c) = h c) -> map_chars f (map_chars g s) = map_chars h s.
Proof.
  intros H. induction s as [| c r IH]; [reflexivity |].
  cbn [map_chars]. now rewrite H, IH.
Qed.

Lemma toLowerCase_toUpperCase (s : string) :
  toLowerCase (toUpperCase s) = toLowerCase s.
Proof. apply map_chars_compose, lower_upper_char. Qed.

Lemma toUpperCase_toLowerCase (s : string) :
  toUpperCase (toLowerCase s) = toUpperCase s.
Proof. apply map_chars_compose, upper_lower_char. Qed.

Lemma toUpperCase_idempotent (s : string) :
  toUpperCase (toUpperCase s) = toUpperCase s.
Proof. apply map_chars_compose, upper_upper_char. Qed.

Lemma toLowerCase_idempotent (s : string) :
  toLowerCase (toLowerCase s) = toLowerCase s.
Proof. apply map_chars_compose, lower_lower_char. Qed.

(** Strings that agree in lowercase agree in uppercase. *)
Lemma same_upper (a b : string) :
  toLowerCase a = toLowerCase b -> toUpperCase a = toUpperCase b.
Proof.
  intros H. rewrite <- (toUpperCase_toLowerCase a), H. apply toUpperCase_toLowerCase.
Qed.

End JSCase.

(** ** [currencyConverter.js]: further properties *)

Module CurrencyConverterMore.
Import JS JSFacts JSCase CurrencyConverter CurrencyConverterFacts.

(** *** Currency names and codes *)

Lemma mapped_codes :
  forallb (fun p => negb (has_lower (snd p))
                    && match get currencyMappings (toLowerCase (snd p)) with
                       | Undefined => true
                       | _ => false
                       end)
    currencyMappings = true.
Proof. vm_compute. reflexivity. Qed.

Lemma normalizeCurrency_text (c : string) :
  inherited (toLowerCase c) = None ->
  exists code,
    normalizeCurrency c = Text code
    /\ (forall c', toLowerCase c' = toLowerCase c -> normalizeCurrency c' = Text code).
Proof.
  intros I. unfold normalizeCurrency, get. rewrite I.
  destruct (assoc (toLowerCase c) currencyMappings) as [code |] eqn:E.
  - exists code. split; [reflexivity |]. intros c' H. now rewrite H, E.
  - exists (toUpperCase c). split; [reflexivity |].
    intros c' H. rewrite H, E, I. f_equal. now apply same_upper.
Qed.

(** X10.  For a name whose lowercase form names no inherited member,
    [normalizeCurrency] returns a string without lowercase letters; it
    returns the same string for every spelling that differs in letter case
    only, and returns that string unchanged when given it. *)
Theorem normalizeCurrency_canonical (c : string) :
  inherited (toLowerCase c) = None ->
  exists code,
    normalizeCurrency c = Text code
    /\ has_lower code = false
    /\ normalizeCurrency code = Text code
    /\ (forall c', toLowerCase c' = toLowerCase c -> normalizeCurrency c' = Text code).
Proof.
  intros I. unfold normalizeCurrency at 1. unfold get. rewrite I.
  destruct (assoc (toLowerCase c) currencyMappings) as [code |] eqn:E.
  - exists code.
    pose proof mapped_codes as T. rewrite forallb_forall in T.
    specialize (T _ (ConvertUnitsFacts.assoc_In _ _ _ E)). cbn [snd] in T.
    rewrite andb_true_iff, negb_true_iff in T. destruct T as [L G].
    split; [reflexivity | split; [exact L | split]].
    + unfold normalizeCurrency.
      destruct (get currencyMappings (toLowerCase code)); try discriminate.
      f_equal. clear -L. induction code as [| a r IH]; [reflexivity |].
      cbn [has_lower] in L. apply orb_false_iff in L as [La Lr].
      cbn [toUpperCase map_chars]. unfold upper_char at 1. rewrite La.
      f_equal. now apply IH.
    + intros c' H. unfold normalizeCurrency, get. now rewrite H, E.
  - exists (toUpperCase c).
    split; [reflexivity | split; [apply toUpperCase_no_lower | split]].
    + unfold normalizeCurrency, get.
      rewrite toLowerCase_toUpperCase, E, I. f_equal. apply toUpperCase_idempotent.
    + intros c' H. unfold normalizeCurrency, get. rewrite H, E, I.
      f_equal. now apply same_upper.
Qed.

Lemma normalizeCurrency_canonical_witness :
  exists code,
    normalizeCurrency "Rupees" = Text code
    /\ has_lower code = false
    /\ normalizeCurrency code = Text code
    /\ (forall c', toLowerCase c' = toLowerCase "Rupees" -> normalizeCurrency c' = Text code).
Proof. apply (normalizeCurrency_canonical "Rupees"). reflexivity. Defined.

Lemma tokens_supported :
  forallb (fun t =>
             match normalizeCurrency t with
             | Text code =>
                 bool_decide (In code (firstn 10 commonCurrencies))
                 && bool_decide (toLowerCase code ∈ initializeCommonCurrencies)
             | Member _ => false
             end)
    currencyTokens = true.
Proof. vm_compute. reflexivity. Qed.

(** X11.  Every currency token the query patterns accept, in whatever letter
    case, is normalized to one of the ten codes the patterns name, and is
    supported from construction on: the parsed currencies of a query are
    never refused as unsupported. *)
Theorem accepted_tokens_supported (t : string) :
  In (toLowerCase t) currencyTokens ->
  exists code,
    normalizeCurrency t = Text code
    /\ In code (firstn 10 commonCurrencies)
    /\ isCurrencySupported initializeCommonCurrencies t = Normal true
    /\ isCurrencySupported initializeCommonCurrencies code = Normal true.
Proof.
  intros H.
  pose proof tokens_supported as T. rewrite forallb_forall in T.
  specialize (T _ H).
  assert (inherited (toLowerCase t) = None) as I.
  { clear T. simpl in H.
    repeat (destruct H as [H | H]; [rewrite <- H; reflexivity |]). destruct H. }
  destruct (normalizeCurrency_text (toLowerCase t)) as (code & N & C).
  { now rewrite toLowerCase_idempotent. }
  rewrite N in T. rewrite andb_true_iff, !bool_decide_eq_true in T.
  destruct T as [Hc Hs].
  exists code.
  assert (normalizeCurrency code = Text code) as F.
  { clear - Hc. simpl in Hc.
    repeat (destruct Hc as [<- | Hc]; [reflexivity |]). destruct Hc. }
  assert (normalizeCurrency t = Text code) as Nt.
  { apply C. now rewrite toLowerCase_idempotent. }
  split; [exact Nt | split; [exact Hc | split]].
  - unfold isCurrencySupported. rewrite Nt.
    rewrite (bool_decide_eq_true_2 _ Hs). reflexivity.
  - unfold isCurrencySupported. rewrite F.
    rewrite (bool_decide_eq_true_2 _ Hs). reflexivity.
Qed.

Lemma accepted_tokens_supported_witness :
  exists code,
    normalizeCurrency "Pounds" = Text code
    /\ In code (firstn 10 commonCurrencies)
    /\ isCurrencySupported initializeCommonCurrencies "Pounds" = Normal true
    /\ isCurrencySupported initializeCommonCurrencies code = Normal true.
Proof.
  apply (accepted_tokens_supported "Pounds"). simpl. tauto.
Defined.

(** *** The supported set *)

Section Methods.
Variable network : string -> Z -> reply.
Variable fmt : rendering.
Variable parseCurrencyQuery : string -> option parsed.

Lemma isCurrencySupported_mono (s s' : gset string) (c : string) :
  s ⊆ s' ->
  isCurrencySupported s c = Normal true -> isCurrencySupported s' c = Normal true.
Proof.
  intros Sub. unfold isCurrencySupported.
  destruct (normalizeCurrency c) as [n | r]; [| discriminate].
  intros [= H]. f_equal. apply orb_true_iff in H. apply orb_true_iff.
  destruct H as [H | H]; [left | right];
    apply bool_decide_eq_true in H; apply bool_decide_eq_true; set_solver.
Qed.

Lemma loadSupportedCurrencies_run (supported : gset string) (w : world) :
  let r := network (apiBaseUrl ++ "/USD") (clock w) in
  loadSupportedCurrencies network supported w
  = (Normal match answer r with
            | Json (Some rates) =>
                {[ "usd" ]} ∪ (set_map toLowerCase (dom rates) ∪ supported)
            | _ => supported
            end,
     {| cache := cache w; clock := clock w + Z.of_N (latency r);
        trace := (trace w ++ [Fetch (apiBaseUrl ++ "/USD")])%list |}).
Proof.
  intros r. subst r.
  unfold loadSupportedCurrencies, try_catch, bind at 1.
  unfold fetch, bind at 1. cbn [emit cache clock trace].
  destruct (network (apiBaseUrl ++ "/USD") (clock w)) as [resp lat]. cbn [answer latency].
  destruct resp as [m | st tx | m | [rates |]]; reflexivity.
Qed.

(** X12.  [loadSupportedCurrencies] never throws and issues one request, for
    the USD rates; it leaves the rate cache alone; the supported set only
    grows, so whatever was supported stays supported; every code of a
    rates answer becomes supported; without a rates answer the set is
    unchanged. *)
Theorem loadSupportedCurrencies_grows (supported : gset string) (w : world) :
  let run := loadSupportedCurrencies network supported w in
  let resp := answer (network (apiBaseUrl ++ "/USD") (clock w)) in
  exists s',
    fst run = Normal s'
    /\ supported ⊆ s'
    /\ (forall c, isCurrencySupported supported c = Normal true ->
                  isCurrencySupported s' c = Normal true)
    /\ fetches (added w (snd run)) = [Fetch (apiBaseUrl ++ "/USD")]
    /\ cache (snd run) = cache w
    /\ (forall rates code,
          resp = Json (Some rates) -> code ∈ dom rates ->
          inherited (toLowerCase code) = None ->
          isCurrencySupported s' code = Normal true)
    /\ ((forall rates, resp <> Json (Some rates)) -> s' = supported).
Proof.
  intros run resp. subst run. rewrite loadSupportedCurrencies_run. cbv zeta.
  fold resp. cbn [fst snd cache].
  eexists. split; [reflexivity |].
  assert (supported ⊆ match resp with
                      | Json (Some rates) =>
                          {[ "usd" ]} ∪ (set_map toLowerCase (dom rates) ∪ supported)
                      | _ => supported
                      end) as Sub.
  { clear. destruct resp as [m | st tx | m | [rates |]]; set_solver. }
  split; [exact Sub | split; [| split; [| split; [reflexivity | split]]]].
  - intros c. now apply isCurrencySupported_mono.
  - erewrite added_app by reflexivity. reflexivity.
  - intros rates code E Hd I. rewrite E.
    destruct (normalizeCurrency_text code I) as (n & N & _).
    unfold isCurrencySupported. rewrite N. f_equal. apply orb_true_iff. right.
    apply bool_decide_eq_true.
    apply elem_of_union_r, elem_of_union_l, elem_of_map. now exists code.
  - intros H. destruct resp as [m | st tx | m | [rates |]]; try reflexivity.
    now contradiction (H rates).
Qed.

(** A currency that an accepted token is normalized to is supported
    from construction on. *)
Lemma token_code_supported (t code : string) :
  In (toLowerCase t) currencyTokens -> normalizeCurrency t = Text code ->
  isCurrencySupported initializeCommonCurrencies code = Normal true.
Proof.
  intros H N.
  pose proof tokens_supported as T. rewrite forallb_forall in T.
  specialize (T _ H).
  assert (inherited (toLowerCase t) = None) as I.
  { clear T N. simpl in H.
    repeat (destruct H as [H | H]; [rewrite <- H; reflexivity |]). destruct H. }
  destruct (normalizeCurrency_text (toLowerCase t)) as (code' & N' & C).
  { now rewrite toLowerCase_idempotent. }
  rewrite (C t) in N by now rewrite toLowerCase_idempotent.
  injection N as ->.
  rewrite N' in T. rewrite andb_true_iff, !bool_decide_eq_true in T.
  destruct T as [Hc Hs].
  assert (normalizeCurrency code = Text code) as F.
  { clear - Hc. simpl in Hc.
    repeat (destruct Hc as [<- | Hc]; [reflexivity |]). destruct Hc. }
  unfold isCurrencySupported. rewrite F.
  rewrite (bool_decide_eq_true_2 _ Hs). reflexivity.
Qed.

(** X13.  [handleConversion] never refuses what the parser accepts.  When the
    two currencies of the parsed query are what [normalizeCurrency] makes
    of tokens the query patterns accept (as [parseCurrencyQuery] builds
    them), and the supported set holds at least the constructor's
    currencies (as it does after any [loadSupportedCurrencies]), the
    query is handed to [convertCurrency] and [handleConversion] returns
    what that returns: no refusal as unsupported, and no error escapes. *)
Theorem handleConversion_never_refuses
  (supported : gset string) (query : string) (p : parsed) (w : world)
  (tokenFrom tokenTo : string) :
  parseCurrencyQuery query = Some p ->
  In (toLowerCase tokenFrom) currencyTokens ->
  normalizeCurrency tokenFrom = Text (parsedFrom p) ->
  In (toLowerCase tokenTo) currencyTokens ->
  normalizeCurrency tokenTo = Text (parsedTo p) ->
  initializeCommonCurrencies ⊆ supported ->
  exists r,
    convertCurrency network fmt (amount p) (parsedFrom p) (parsedTo p) w
    = (Normal r, snd (convertCurrency network fmt (amount p) (parsedFrom p) (parsedTo p) w))
    /\ handleConversion network fmt parseCurrencyQuery supported query w
       = (Normal (Handled r),
          snd (convertCurrency network fmt (amount p) (parsedFrom p) (parsedTo p) w)).
Proof.
  intros Hp TF NF TT NT Sub.
  pose proof (isCurrencySupported_mono _ _ _ Sub
                (token_code_supported _ _ TF NF)) as Hf.
  pose proof (isCurrencySupported_mono _ _ _ Sub
                (token_code_supported _ _ TT NT)) as Ht.
  destruct (convertCurrency_returns network fmt (amount p) (parsedFrom p) (parsedTo p) w)
    as [r Hr].
  exists r.
  unfold handleConversion. rewrite Hp, Hf, Ht. unfold bind.
  destruct (convertCurrency network fmt (amount p) (parsedFrom p) (parsedTo p) w)
    as [c w'].
  cbn [fst snd] in *. subst c. split; reflexivity.
Qed.

(** A refused currency stops the request before any lookup: the failure
    names both currencies and the world is untouched. *)
Lemma handleConversion_unsupported
  (supported : gset string) (query : string) (p : parsed) (w : world) :
  parseCurrencyQuery query = Some p ->
  isCurrencySupported supported (parsedFrom p) = Normal false
  \/ (isCurrencySupported supported (parsedFrom p) = Normal true
      /\ isCurrencySupported supported (parsedTo p) = Normal false) ->
  handleConversion network fmt parseCurrencyQuery supported query w
  = (Normal (Unsupported
               ("Unsupported currency. From: " ++ parsedFrom p ++ ", To: " ++ parsedTo p)
               query p), w).
Proof.
  intros Hp H. unfold handleConversion. rewrite Hp.
  destruct H as [-> | [-> ->]]; reflexivity.
Qed.

End Methods.

Lemma handleConversion_never_refuses_witness :
  exists r,
    convertCurrency offline plain (Q2Qc 50) "USD" "GBP" (started 0)
    = (Normal r, snd (convertCurrency offline plain (Q2Qc 50) "USD" "GBP" (started 0)))
    /\ handleConversion offline plain
         (fun _ => Some {| amount := Q2Qc 50; parsedFrom := "USD"; parsedTo := "GBP" |})
         initializeCommonCurrencies "50 Dollars to pounds" (started 0)
       = (Normal (Handled r),
          snd (convertCurrency offline plain (Q2Qc 50) "USD" "GBP" (started 0))).
Proof.
  apply (handleConversion_never_refuses offline plain
           (fun _ => Some {| amount := Q2Qc 50; parsedFrom := "USD"; parsedTo := "GBP" |})
           initializeCommonCurrencies "50 Dollars to pounds"
           {| amount := Q2Qc 50; parsedFrom := "USD"; parsedTo := "GBP" |} (started 0)
           "Dollars" "pounds").
  - reflexivity.
  - simpl. tauto.
  - reflexivity.
  - simpl. tauto.
  - reflexivity.
  - reflexivity.
Defined.

(** *** The cache over time *)

Section Lookups.
Variable network : string -> Z -> reply.
Variable fmt : rendering.

Lemma stamped_insert (w : world) (k : string) (r : Qc) (t : Z) :
  stamped w -> clock w <= t ->
  stamped {| cache := <[k := {| rate := r; timestamp := t |}]> (cache w);
             clock := t; trace := trace w |}.
Proof.
  intros S T k' e. cbn [cache clock]. rewrite lookup_insert.
  destruct (decide (k = k')) as [-> | N]; cbn.
  - intros [= <-]. cbn. lia.
  - intros H. specialize (S k' e H). lia.
Qed.

(** X14.  A lookup only adds to the world: the events so far stay, in order,
    the clock does not go back, every cached pair stays cached, and when
    no entry was stamped after the clock reading before, none is after. *)
Theorem getExchangeRate_only_adds (fromCurrency toCurrency : string) (w : world) :
  stamped w ->
  let w' := snd (getExchangeRate network fromCurrency toCurrency w) in
  (exists es, trace w' = (trace w ++ es)%list)
  /\ clock w <= clock w'
  /\ dom (cache w) ⊆ dom (cache w')
  /\ stamped w'
  /\ (forall amount,
       let w'' := snd (convertCurrency network fmt amount fromCurrency toCurrency w) in
       w'' = w \/ w'' = w').
Proof.
  intros S w'.
  assert ((exists es, trace w' = (trace w ++ es)%list)
          /\ clock w <= clock w' /\ dom (cache w) ⊆ dom (cache w') /\ stamped w') as K.
  { subst w'. rewrite getExchangeRate_run. cbv zeta.
    assert (clock w <= arrival network w fromCurrency) as T by (unfold arrival; lia).
    destruct (fresh w (cacheKey fromCurrency toCurrency)) as [c |].
    - cbn [snd trace clock cache]. repeat split; [eexists; reflexivity | lia | | exact S].
      reflexivity.
    - destruct (fetched_rate _ _) as [r |];
        [| destruct (getFallbackRate fromCurrency toCurrency)];
        cbn [snd trace clock cache].
      + repeat split; [eexists; reflexivity | exact T | |].
        * rewrite dom_insert. set_solver.
        * intros k e. cbn [cache clock].
          apply (stamped_insert w (cacheKey fromCurrency toCurrency) r _ S T k e).
      + repeat split; [eexists; reflexivity | exact T | reflexivity |].
        intros k e H. specialize (S k e H). cbn [clock]. lia.
      + repeat split; [eexists; reflexivity | exact T | reflexivity |].
        intros k e H. specialize (S k e H). cbn [clock]. lia. }
  destruct K as (K1 & K2 & K3 & K4).
  split; [exact K1 | split; [exact K2 | split; [exact K3 | split; [exact K4 |]]]].
  intros amount. cbv zeta. rewrite convertCurrency_run.
  destruct (String.eqb _ _); [now left |].
  right. subst w'.
  destruct (getExchangeRate network fromCurrency toCurrency w) as [[r | m] w1];
    reflexivity.
Qed.

(** X15.  What is stored is found again: after a lookup that fetched a rate,
    any lookup of the same pair (in whatever letter case) made on that
    cache less than ten minutes later returns that rate without a
    request. *)
Theorem stored_rate_is_reused
  (fromCurrency toCurrency from' to' : string) (w w2 : world) (r : Qc) :
  fresh w (cacheKey fromCurrency toCurrency) = None ->
  fetched_rate (answer (answered network w fromCurrency)) toCurrency = Some r ->
  let w1 := snd (getExchangeRate network fromCurrency toCurrency w) in
  toLowerCase from' = toLowerCase fromCurrency ->
  toLowerCase to' = toLowerCase toCurrency ->
  cache w2 = cache w1 ->
  clock w1 <= clock w2 < clock w1 + 10 * 60 * 1000 ->
  fst (getExchangeRate network from' to' w2) = Normal r
  /\ fetches (added w2 (snd (getExchangeRate network from' to' w2))) = [].
Proof.
  intros F R w1 Lf Lt C T.
  assert (cacheKey from' to' = cacheKey fromCurrency toCurrency) as K
    by (unfold cacheKey; now rewrite Lf, Lt).
  assert (fresh w2 (cacheKey fromCurrency toCurrency)
          = Some {| rate := r; timestamp := clock w1 |}) as F2.
  { subst w1. revert C T. rewrite getExchangeRate_run. cbv zeta. rewrite F, R.
    cbn [snd cache clock]. intros C T.
    unfold fresh. rewrite C, lookup_insert_eq. cbn [timestamp].
    rewrite (proj2 (Z.ltb_lt _ _)); [reflexivity |]. unfold cacheTimeout. lia. }
  rewrite getExchangeRate_run. cbv zeta. rewrite K, F2. cbn [fst snd rate].
  split; [reflexivity |]. erewrite added_app by reflexivity. reflexivity.
Qed.

(** X16.  The letter case of the two currencies does not matter to a lookup:
    spelled differently in case only, it leaves the same world and
    returns the same rate. *)
Theorem getExchangeRate_ignores_case
  (fromCurrency toCurrency from' to' : string) (w : world) :
  toLowerCase from' = toLowerCase fromCurrency ->
  toLowerCase to' = toLowerCase toCurrency ->
  snd (getExchangeRate network from' to' w)
  = snd (getExchangeRate network fromCurrency toCurrency w)
  /\ (forall r, fst (getExchangeRate network from' to' w) = Normal r
                <-> fst (getExchangeRate network fromCurrency toCurrency w) = Normal r).
Proof.
  intros Lf Lt.
  assert (cacheKey from' to' = cacheKey fromCurrency toCurrency) as K
    by (unfold cacheKey; now rewrite Lf, Lt).
  assert (rateUrl from' = rateUrl fromCurrency) as U
    by (unfold rateUrl; now rewrite (same_upper _ _ Lf)).
  assert (forall resp, fetched_rate resp to' = fetched_rate resp toCurrency) as Fr
    by (intros resp; unfold fetched_rate; now rewrite (same_upper _ _ Lt)).
  assert (getFallbackRate from' to' = getFallbackRate fromCurrency toCurrency) as Fb
    by (unfold getFallbackRate; now rewrite (same_upper _ _ Lf), (same_upper _ _ Lt)).
  rewrite !getExchangeRate_run. cbv zeta.
  unfold arrival, answered. rewrite K, U, Fr, Fb. clear K U Fr Fb.
  destruct (fresh w _) as [c |]; [split; [reflexivity | tauto] |].
  destruct (fetched_rate _ _) as [r |]; [split; [reflexivity | tauto] |].
  destruct (getFallbackRate _ _) as [fr |]; [split; [reflexivity | tauto] |].
  cbn [fst snd]. split; [reflexivity |]. intros r. split; discriminate.
Qed.

(** X17.  After [clearCache] no pair has a usable entry, so the next lookup of
    any pair, whenever it is made, issues a request. *)
Theorem clearCache_forces_request
  (fromCurrency toCurrency : string) (w w2 : world) :
  cache w2 = cache (snd (clearCache w)) ->
  fst (clearCache w) = Normal ()
  /\ fetches (added w2 (snd (getExchangeRate network fromCurrency toCurrency w2)))
     = [Fetch (rateUrl fromCurrency)].
Proof.
  intros C. split; [reflexivity |].
  apply getExchangeRate_requests. unfold fresh. rewrite C. cbn [clearCache snd cache].
  now rewrite lookup_empty.
Qed.

End Lookups.

Lemma getExchangeRate_only_adds_witness :
  clock (started 5) <= clock (snd (getExchangeRate serving "eur" "usd" (started 5)))
  /\ stamped (snd (getExchangeRate serving "eur" "usd" (started 5))).
Proof.
  destruct (getExchangeRate_only_adds serving plain "eur" "usd" (started 5))
    as (_ & C & _ & S & _).
  - intros k e H. vm_compute in H. discriminate.
  - split; [exact C | exact S].
Defined.

Lemma stored_rate_is_reused_witness :
  fst (getExchangeRate serving "EUR" "USD"
         {| cache := cache (snd (getExchangeRate serving "eur" "usd" (started 1000)));
            clock := 301150; trace := [] |})
  = Normal (Q2Qc 1.08).
Proof.
  destruct (stored_rate_is_reused serving "eur" "usd" "EUR" "USD" (started 1000)
              {| cache := cache (snd (getExchangeRate serving "eur" "usd" (started 1000)));
                 clock := 301150; trace := [] |} (Q2Qc 1.08)) as [H _].
  - reflexivity.
  - vm_compute. reflexivity.
  - reflexivity.
  - reflexivity.
  - reflexivity.
  - vm_compute. split; [discriminate | reflexivity].
  - exact H.
Defined.

Lemma getExchangeRate_ignores_case_witness :
  snd (getExchangeRate offline "Usd" "eUR" (started 0))
  = snd (getExchangeRate offline "USD" "EUR" (started 0)).
Proof.
  apply (getExchangeRate_ignores_case offline "USD" "EUR" "Usd" "eUR" (started 0));
    reflexivity.
Defined.


Lemma clearCache_forces_request_witness :
  fetches (added (snd (clearCache (snd (getExchangeRate serving "eur" "usd" (started 0)))))
             (snd (getExchangeRate serving "eur" "usd"
                     (snd (clearCache (snd (getExchangeRate serving "eur" "usd" (started 0))))))))
  = [Fetch (rateUrl "eur")].
Proof.
  apply (clearCache_forces_request serving "eur" "usd"
           (snd (getExchangeRate serving "eur" "usd" (started 0)))).
  reflexivity.
Defined.

End CurrencyConverterMore.

(** ** More on [datetimeHelper.js] *)

Module DateTimeHelperMore.
Import JS JSFacts JSDate JSDateFacts DateTimeHelper DateTimeHelperFacts.

Lemma MonthFromDay_range (d : Z) : 0 <= MonthFromDay d <= 11.
Proof.
  unfold MonthFromDay. cbv zeta.
  repeat match goal with
         | |- context [if ?b then _ else _] => destruct b; [lia |]
         end.
  lia.
Qed.

(** The getters of a date give back its day through the constructor. *)
Lemma Day_fields (t : Z) :
  MakeDay (getFullYear t) (getMonth t) (getDate t) = Day t.
Proof.
  unfold getFullYear, YearFromTime, getMonth, getDate.
  rewrite MakeDay_in_year by apply MonthFromDay_range.
  unfold DateFromDay, DayWithinYear. lia.
Qed.

(** A date lies within its year. *)
Lemma year_bounds (t : Z) :
  DayFromYear (getFullYear t) * msPerDay <= t
  < DayFromYear (getFullYear t + 1) * msPerDay.
Proof.
  unfold getFullYear, YearFromTime.
  pose proof (YearFromDay_bracket (Day t)) as B. revert B.
  unfold Day, msPerDay. generalize (DayFromYear (YearFromDay (t / 86400000))).
  generalize (DayFromYear (YearFromDay (t / 86400000) + 1)).
  intros a b B. floor_arith.
Qed.

Lemma newDate_value (y m d : Z) :
  100 <= y -> 0 <= m <= 11 ->
  newDate y m d = (DayFromYear y + monthStart (isLeap y) m + (d - 1)) * msPerDay.
Proof.
  intros Y M. unfold newDate, MakeDate, MakeTime.
  rewrite fullYear_id, MakeDay_in_year by assumption. lia.
Qed.

Lemma isLeap_next (y : Z) : isLeap y = true -> isLeap (y + 1) = false.
Proof.
  intros L. apply isLeap_spec in L.
  destruct (isLeap (y + 1)) eqn:E; [| reflexivity].
  apply isLeap_spec in E. exfalso. floor_arith.
Qed.

Lemma month_cases (m : Z) :
  0 <= m <= 11 ->
  m = 0 \/ m = 1 \/ m = 2 \/ m = 3 \/ m = 4 \/ m = 5 \/ m = 6
  \/ m = 7 \/ m = 8 \/ m = 9 \/ m = 10 \/ m = 11.
Proof. lia. Qed.

Ltac each_month C :=
  repeat (destruct C as [-> | C]); [.. | subst].

(** A day of the calendar stays inside its year, and the same month and
    day a year later is 365 or 366 days away. *)
Lemma day_in_year (y m d : Z) :
  0 <= m <= 11 -> 1 <= d <= daysInMonth false m ->
  0 <= monthStart (isLeap y) m + (d - 1) < DaysInYear y
  /\ 365 <= DaysInYear y + monthStart (isLeap (y + 1)) m - monthStart (isLeap y) m <= 366.
Proof.
  intros M D. pose proof (isLeap_next y) as N.
  apply month_cases in M. unfold DaysInYear.
  destruct (isLeap y); [rewrite N by reflexivity | destruct (isLeap (y + 1))];
    each_month M; cbn [daysInMonth monthStart] in D |- *; lia.
Qed.

(** The next occurrence of a calendar day is that day, is not in the
    past, and is at most 366 days ahead; on the day itself, any time
    after midnight, it is next year's. *)
Lemma getNextOccurrence_upcoming (now month day : Z) :
  clock_reading now -> 0 <= month <= 11 -> 1 <= day <= daysInMonth false month ->
  let d := getNextOccurrence now (getFullYear now) month day in
  now <= d /\ d - now <= 366 * msPerDay
  /\ getMonth d = month /\ getDate d = day
  /\ (getMonth now = month -> getDate now = day -> TimeWithinDay now <> 0 ->
      getFullYear d = getFullYear now + 1).
Proof.
  intros C M D. pose proof (clock_reading_year now C) as Y.
  set (y := getFullYear now) in *.
  assert (forall leap, 1 <= day <= daysInMonth leap month) as D'.
  { intros [|]; [| exact D]. apply month_cases in M.
    each_month M; cbn [daysInMonth] in D |- *; lia. }
  destruct (newDate_fields y month day M) as (F1 & F2 & F3); [apply D' |].
  destruct (newDate_fields (y + 1) month day M) as (G1 & G2 & G3); [apply D' |].
  rewrite fullYear_id in F1, G1 by lia.
  pose proof (year_bounds now) as B. fold y in B.
  pose proof (DayFromYear_next y) as N.
  destruct (day_in_year y month day M D) as (I1 & I2).
  destruct (day_in_year (y + 1) month day M D) as (J1 & _).
  pose proof (newDate_value y month day ltac:(lia) M) as VA.
  pose proof (newDate_value (y + 1) month day ltac:(lia) M) as VB.
  assert (Day now = MakeDay y (getMonth now) (getDate now)) as DF
    by (subst y; symmetry; apply Day_fields).
  pose proof (DaysInYear_range y) as R.
  cbv zeta. unfold getNextOccurrence.
  destruct (newDate y month day <? now) eqn:E.
  - apply Z.ltb_lt in E.
    split; [| split; [| split; [exact G2 | split; [exact G3 | intros; exact G1]]]].
    + rewrite VB. unfold msPerDay in *. lia.
    + rewrite VB. rewrite VA in E. unfold msPerDay in *. lia.
  - apply Z.ltb_ge in E.
    split; [exact E | split; [| split; [exact F2 | split; [exact F3 |]]]].
    + rewrite VA. unfold msPerDay in *. lia.
    + intros Em Ed T. exfalso. rewrite Em, Ed in DF.
      rewrite MakeDay_in_year in DF by exact M.
      rewrite VA in E.
      replace (DayFromYear y + monthStart (isLeap y) month + (day - 1))
        with (Day now) in E by lia.
      revert T E. unfold TimeWithinDay, Day, msPerDay. clear. intros T E.
      floor_arith.
Qed.

Lemma fixedHolidays_table (now now' : Z) (key : string) (m d : Z) :
  In (key, (m, d)) fixedHolidays ->
  get (specialDates now now') key
  = OwnProp (getNextOccurrence now (getFullYear now) m d)
  /\ 0 <= m <= 11 /\ 1 <= d <= daysInMonth false m.
Proof.
  intros H. cbn in H.
  repeat (destruct H as [[= <- <- <-] | H];
          [split; [reflexivity | cbn [daysInMonth]; lia] |]).
  destruct H.
Qed.

(** X18.  Christmas, Halloween and Valentine's day (names in any letter
    case, surrounding blanks ignored) resolve to that calendar day, never
    to a moment before the clock reading and at most 366 days after it;
    asked on the day itself after midnight, they resolve to next
    year's. *)
Theorem fixed_holidays_upcoming
  (now now' : Z) (dateString : string) (m d : Z) :
  clock_reading now ->
  In (trim (toLowerCase dateString), (m, d)) fixedHolidays ->
  exists t,
    parseSpecialDates now now' dateString = Normal (Some t)
    /\ now <= t /\ t - now <= 366 * msPerDay
    /\ getMonth t = m /\ getDate t = d
    /\ (getMonth now = m -> getDate now = d -> TimeWithinDay now <> 0 ->
        getFullYear t = getFullYear now + 1).
Proof.
  intros C H.
  destruct (fixedHolidays_table now now' _ m d H) as (G & M & D).
  exists (getNextOccurrence now (getFullYear now) m d).
  split; [unfold parseSpecialDates; cbv zeta; now rewrite G |].
  apply (getNextOccurrence_upcoming now m d C M D).
Qed.

Lemma fixed_holidays_upcoming_witness :
  exists t,
    parseSpecialDates (newDate 2026 11 25 + 36000000) (newDate 2026 11 25 + 36000000)
      " Christmas " = Normal (Some t)
    /\ getFullYear t = 2027.
Proof.
  destruct (fixed_holidays_upcoming
              (newDate 2026 11 25 + 36000000) (newDate 2026 11 25 + 36000000)
              " Christmas " 11 25) as (t & P & _ & _ & _ & _ & Y).
  - vm_compute. split; discriminate.
  - left. reflexivity.
  - exists t. split; [exact P |]. apply Y; vm_compute; [reflexivity .. | discriminate].
Defined.

(** *** Names outside the table *)

Lemma lower_char_not_upper (c : ascii) : is_upper (lower_char c) = false.
Proof. destruct c as [[] [] [] [] [] [] [] []]; reflexivity. Qed.

Lemma toLowerCase_no_upper (s : string) : has_upper (toLowerCase s) = false.
Proof.
  induction s as [| c r IH]; [reflexivity |].
  cbn [toLowerCase map_chars has_upper]. rewrite lower_char_not_upper. exact IH.
Qed.

Lemma trimStart_no_upper (s : string) :
  has_upper s = false -> has_upper (trimStart s) = false.
Proof.
  induction s as [| c r IH]; [reflexivity |].
  cbn [trimStart]. destruct (is_space c); [| tauto].
  cbn [has_upper]. intros H. apply orb_false_iff in H. now apply IH.
Qed.

Lemma trimEnd_no_upper (s : string) :
  has_upper s = false -> has_upper (trimEnd s) = false.
Proof.
  induction s as [| c r IH]; [reflexivity |].
  cbn [has_upper]. intros H. apply orb_false_iff in H. destruct H as [Hc Hr].
  specialize (IH Hr). cbn [trimEnd].
  destruct (trimEnd r) as [| c' r'].
  - destruct (is_space c); [reflexivity |]. cbn [has_upper]. now rewrite Hc.
  - cbn [has_upper] in IH |- *. now rewrite Hc, IH.
Qed.

Lemma normalized_no_upper (s : string) : has_upper (trim (toLowerCase s)) = false.
Proof.
  apply trimEnd_no_upper, trimStart_no_upper, toLowerCase_no_upper.
Qed.

(** The members of [Object.prototype] with an all-lowercase name. *)
Lemma inherited_lowercase (k r : string) :
  has_upper k = false -> inherited k = Some r ->
  k = "constructor" \/ k = "__proto__".
Proof.
  unfold inherited, object_prototype_members. cbn [assoc]. intros U.
  repeat match goal with
    | |- context [String.eqb k ?n] =>
        destruct (String.eqb_spec k n) as [E | _];
          [first [ now left | now right
                 | rewrite E in U; vm_compute in U; discriminate U ] |]
    end.
  discriminate.
Qed.

Lemma getThanksgiving_november (year : Z) :
  exists k, 20 <= k <= 25 /\ getThanksgiving year = newDate year 10 k.
Proof.
  rewrite getThanksgiving_day. cbv zeta.
  pose proof (getDay_range (newDate year 10 1)) as R.
  destruct (getDay (newDate year 10 1) =? 0) eqn:E.
  - exists 22. split; [lia | reflexivity].
  - apply Z.eqb_neq in E. eexists. split; [| reflexivity]. lia.
Qed.

Lemma next_year_later (now y m d : Z) :
  100 <= y -> y = getFullYear now + 1 -> 0 <= m <= 11 -> 1 <= d ->
  now <= newDate y m d.
Proof.
  intros Y E M D. rewrite newDate_value by assumption.
  pose proof (year_bounds now) as B. rewrite <- E in B.
  assert (0 <= monthStart (isLeap y) m) as S.
  { apply month_cases in M. destruct (isLeap y);
      each_month M; cbn [monthStart]; lia. }
  unfold msPerDay in *. lia.
Qed.

(** X19.  What [parseSpecialDates] does with every name: the seven names of
    the table resolve to a moment that is not before the clock reading;
    the two all-lowercase members every object inherits make it throw;
    any other name gives [null]. *)
Theorem parseSpecialDates_outcomes (now now' : Z) (dateString : string) :
  clock_reading now -> now <= now' -> getFullYear now' = getFullYear now ->
  let key := trim (toLowerCase dateString) in
  match parseSpecialDates now now' dateString with
  | Normal (Some t) => In key specialNames /\ now <= t
  | Normal None =>
      ~ In key specialNames /\ key <> "constructor" /\ key <> "__proto__"
  | Throw m =>
      (key = "constructor" \/ key = "__proto__")
      /\ m = "result.toDateString is not a function"
  end.
Proof.
  intros C L Y key. pose proof (clock_reading_year now C) as Y0.
  pose proof (normalized_no_upper dateString) as U. fold key in U.
  assert (forall m d, 0 <= m <= 11 -> 1 <= d <= daysInMonth false m ->
                      now <= getNextOccurrence now (getFullYear now) m d) as F
    by (intros m d M D; apply (getNextOccurrence_upcoming now m d C M D)).
  assert (now <= newDate (getFullYear now + 1) 0 1) as N
    by (apply next_year_later; lia).
  assert (now <= getNextThanksgiving now' (getFullYear now)) as T.
  { unfold getNextThanksgiving. cbv zeta.
    destruct (getThanksgiving (getFullYear now) <? now') eqn:E.
    - destruct (getThanksgiving_november (getFullYear now + 1)) as (k & K & ->).
      transitivity now'; [exact L |]. apply next_year_later; lia.
    - apply Z.ltb_ge in E. lia. }
  unfold parseSpecialDates. cbv zeta. fold key. unfold get, specialDates.
  cbv zeta. cbn [assoc]. unfold specialNames.
  repeat match goal with
    | |- context [String.eqb key ?n] =>
        destruct (String.eqb_spec key n) as [-> | ?];
          [split; [cbn; repeat first [left; reflexivity | right]
                  | first [exact N | exact T | apply F; cbn; lia]] |]
    end.
  destruct (inherited key) as [r |] eqn:I.
  - split; [apply (inherited_lowercase key r U I) | reflexivity].
  - split; [cbn; intuition congruence |].
    split; intros ->; vm_compute in I; discriminate I.
Qed.

Lemma parseSpecialDates_outcomes_witness :
  parseSpecialDates (newDate 2026 10 2) (newDate 2026 10 2) "Constructor"
  = Throw "result.toDateString is not a function".
Proof.
  pose proof (parseSpecialDates_outcomes (newDate 2026 10 2) (newDate 2026 10 2)
                "Constructor") as H.
  cbv zeta in H.
  destruct (parseSpecialDates (newDate 2026 10 2) (newDate 2026 10 2) "Constructor")
    as [[t |] | m] eqn:E.
  - vm_compute in E. discriminate E.
  - vm_compute in E. discriminate E.
  - destruct H as [_ ->].
    + vm_compute. split; discriminate.
    + vm_compute. discriminate.
    + reflexivity.
    + reflexivity.
Defined.

(** *** Clock expressions without a marker *)





(** *** Zone names *)

Lemma timezones_fixed :
  forallb (fun kv => zone_fixed (snd kv)) timezones = true.
Proof. vm_compute. reflexivity. Qed.

Lemma zone_fixed_spec (name : string) :
  zone_fixed name = true -> normalizeTimezone name = Zone name.
Proof.
  unfold zone_fixed. destruct (normalizeTimezone name) as [n | r]; [| discriminate].
  intros E. apply String.eqb_eq in E. now rewrite E.
Qed.

(** X21.  [normalizeTimezone] is idempotent: a zone name it returns is
    returned unchanged when it is normalised again, so a result can be fed
    back (the table's zone names are no abbreviations of the table). *)
Theorem normalizeTimezone_idempotent (timezone name : string) :
  normalizeTimezone timezone = Zone name ->
  normalizeTimezone name = Zone name.
Proof.
  intros H. pose proof timezones_fixed as T. rewrite forallb_forall in T.
  unfold normalizeTimezone in H.
  destruct (String.eqb_spec timezone "") as [-> | N].
  - injection H as <-. reflexivity.
  - destruct (get timezones (toLowerCase timezone)) as [v | r |] eqn:G;
      [| discriminate |].
    + injection H as <-. apply zone_fixed_spec.
      apply (T (toLowerCase timezone, v)).
      unfold get in G.
      destruct (assoc (toLowerCase timezone) timezones) as [v' |] eqn:A;
        [| destruct (inherited _); discriminate].
      injection G as ->. clear - A.
      induction timezones as [| [k' v'] l IH]; [discriminate |].
      cbn [assoc] in A.
      destruct (String.eqb_spec (toLowerCase timezone) k') as [<- | _].
      * injection A as <-. now left.
      * right. now apply IH.
    + injection H as <-. unfold normalizeTimezone.
      apply String.eqb_neq in N. now rewrite N, G.
Qed.

Lemma normalizeTimezone_idempotent_witness :
  normalizeTimezone "America/New_York" = Zone "America/New_York".
Proof. apply (normalizeTimezone_idempotent "EST"). reflexivity. Defined.

End DateTimeHelperMore.

(** ** [lib/dayjs.js] and the methods of [DateTimeHelper] that use it *)

Module DayjsFacts.
Import JS JSDate JSDateFacts DateTimeHelper DateTimeHelperMore.

Lemma this_num (z : Z) : this (Q2Qc (inject_Z z)) = inject_Z z.
Proof. cbn [Q2Qc this]. apply Qred_identity. cbn. apply Z.gcd_1_r. Qed.

Lemma lt0_num (z : Z) : Dayjs.lt0 (Dayjs.num z) = (z <? 0).
Proof.
  unfold Dayjs.lt0, Dayjs.num. rewrite this_num.
  unfold Qle_bool. cbn. rewrite Z.mul_1_r.
  destruct (Z.leb_spec 0 z), (Z.ltb_spec z 0); cbn; try reflexivity; lia.
Qed.

Lemma gt0_num (z : Z) : Dayjs.gt0 (Dayjs.num z) = (0 <? z).
Proof.
  unfold Dayjs.gt0, Dayjs.num. rewrite this_num.
  unfold Qle_bool. cbn. rewrite Z.mul_1_r.
  destruct (Z.leb_spec z 0), (Z.ltb_spec 0 z); cbn; try reflexivity; lia.
Qed.

Lemma neg_num (z : Z) : (- Q2Qc (inject_Z z))%Qc = Q2Qc (inject_Z (- z)).
Proof.
  apply Qc_is_canon. unfold Qcopp. rewrite !this_num.
  cbn [Q2Qc this]. rewrite !Qred_correct. reflexivity.
Qed.

Lemma abs_num (z : Z) : Dayjs.abs (Dayjs.num z) = Dayjs.num (Z.abs z).
Proof.
  unfold Dayjs.abs. rewrite lt0_num. unfold Dayjs.num.
  destruct (Z.ltb_spec z 0).
  - rewrite neg_num. now rewrite Z.abs_neq by lia.
  - now rewrite Z.abs_eq by lia.
Qed.

(** A whole number is its own [absFloor]. *)
Lemma absFloor_num (z : Z) : Dayjs.absFloor (Dayjs.num z) = Dayjs.num z.
Proof.
  unfold Dayjs.absFloor. rewrite lt0_num. unfold Dayjs.num at 1 2.
  rewrite this_num, Qceiling_Z, Qfloor_Z. now destruct (z <? 0).
Qed.

Lemma minus_valid (a b : Z) :
  Dayjs.minus (Some a) (Some b) = Dayjs.num (a - b).
Proof. reflexivity. Qed.

Lemma fromTimeValue_valid (u : Z) :
  Z.abs u <= maxTime -> Dayjs.fromTimeValue u = Some u.
Proof.
  intros H. unfold Dayjs.fromTimeValue. now rewrite (proj2 (Z.leb_le _ _) H).
Qed.

Lemma fromTimeValue_invalid (u : Z) :
  maxTime < Z.abs u -> Dayjs.fromTimeValue u = None.
Proof.
  intros H. unfold Dayjs.fromTimeValue. now rewrite (proj2 (Z.leb_gt _ _) H).
Qed.

Lemma spelled_step_by_days :
  forallb Dayjs.stepsByDays spelledUnits = true.
Proof. vm_compute. reflexivity. Qed.

Lemma spelled_diff_none :
  forallb Dayjs.diffFindsNone spelledUnits = true.
Proof. vm_compute. reflexivity. Qed.

Lemma spelled_units (units : string) :
  In units spelledUnits ->
  Dayjs.stepsByDays units = true /\ Dayjs.diffFindsNone units = true.
Proof.
  intros H. split.
  - pose proof spelled_step_by_days as T. rewrite forallb_forall in T. now apply T.
  - pose proof spelled_diff_none as T. rewrite forallb_forall in T. now apply T.
Qed.

Lemma getDay_shift (t k : Z) :
  getDay (t + k * Dayjs.MS_A_DAY) = (getDay t + k) mod 7.
Proof.
  unfold getDay, WeekDay, Day, msPerDay. change Dayjs.MS_A_DAY with 86400000.
  floor_arith.
Qed.

Lemma TimeWithinDay_shift (t k : Z) :
  TimeWithinDay (t + k * Dayjs.MS_A_DAY) = TimeWithinDay t.
Proof.
  unfold TimeWithinDay, msPerDay. change Dayjs.MS_A_DAY with 86400000.
  floor_arith.
Qed.

Lemma Day_shift (t k : Z) : Day (t + k * Dayjs.MS_A_DAY) = Day t + k.
Proof.
  unfold Day, msPerDay. change Dayjs.MS_A_DAY with 86400000. floor_arith.
Qed.

Section Host.
Variable localTZA : Z -> bool -> Z.
Local Abbreviation LocalTime := (Dayjs.LocalTime localTZA).
Local Abbreviation UTC := (Dayjs.UTC localTZA).
Local Abbreviation fromTimeValue := Dayjs.fromTimeValue.

(** What [add] does with a unit name it has no case and no step for. *)
Lemma add_by_days (d : option Z) (number : Z) (units : string) :
  Dayjs.stepsByDays units = true ->
  Dayjs.add localTZA d number units
  = Normal match d with
           | Some t => fromTimeValue (t + number * Dayjs.MS_A_DAY)
           | None => None
           end.
Proof.
  unfold Dayjs.stepsByDays, Dayjs.add. cbv zeta. intros H.
  repeat (apply andb_true_iff in H; destruct H as [H ?]).
  repeat match goal with
         | E : negb _ = true |- _ => apply negb_true_iff in E; rewrite E
         end.
  destruct (get Dayjs.steps (Dayjs.prettyUnit units)); try discriminate.
  destruct d; reflexivity.
Qed.

Lemma monthDiff_returns (a b : option Z) :
  exists n, Dayjs.monthDiff localTZA a b = Normal n.
Proof.
  unfold Dayjs.monthDiff. destruct a as [ta |], b as [tb |];
    [| eexists; reflexivity ..].
  rewrite !add_by_days by reflexivity. eexists. reflexivity.
Qed.

(** What [diff] returns for a unit name its table has no entry for: the
    difference of the two time values. *)
Lemma diff_by_milliseconds (a b : Z) (units : string) :
  Dayjs.diffFindsNone units = true ->
  Dayjs.diff localTZA (Some a) (Some b) units = Normal (Dayjs.num (a - b)).
Proof.
  unfold Dayjs.diffFindsNone, Dayjs.diff. cbv zeta. intros H.
  apply andb_true_iff in H. destruct H as [K I].
  destruct (monthDiff_returns (Some a) (Some b)) as [n ->].
  unfold get. cbn [assoc].
  apply negb_true_iff in K. unfold Dayjs.diffUnits in K. cbn [existsb] in K.
  repeat (apply orb_false_iff in K; destruct K as [? K]).
  repeat match goal with
         | E : String.eqb _ _ = false |- _ => rewrite E; clear E
         end.
  destruct (inherited _); [discriminate |].
  now rewrite minus_valid, absFloor_num.
Qed.

(** [setDate] with the day of the month moved by [k] moves the local
    time by [k] whole days, and turns that local time into a time
    value. *)
Lemma setDate_local (t k : Z) :
  Dayjs.setDate localTZA t (getDate (LocalTime t) + k)
  = fromTimeValue (UTC (LocalTime t + k * Dayjs.MS_A_DAY)).
Proof.
  unfold Dayjs.setDate. cbv zeta. set (local := LocalTime t).
  assert (MakeDay (getFullYear local) (getMonth local) (getDate local + k)
          = Day local + k) as D
    by (rewrite <- (Day_fields local); unfold MakeDay; lia).
  rewrite D.
  assert (MakeDate (Day local + k) (TimeWithinDay local)
          = local + k * Dayjs.MS_A_DAY) as M.
  { unfold MakeDate, Day, TimeWithinDay, msPerDay.
    change Dayjs.MS_A_DAY with 86400000. floor_arith. }
  now rewrite M.
Qed.

(** On a host whose offset never changes, a local time moved by whole
    days is the time value moved by as many milliseconds. *)
Lemma fixed_zone_shift (offset t k : Z) :
  (forall u isUTC, localTZA u isUTC = offset) ->
  UTC (LocalTime t + k) = t + k.
Proof.
  intros F. unfold Dayjs.UTC, Dayjs.LocalTime. rewrite !F. lia.
Qed.

(** X22.  What [add] makes of its unit names.  Every name written out in
    full (hours and months as well as days, singular or plural) steps the
    time value by whole days of 86400000 ms; the short names h, m, s and
    ms step it by hours, minutes, seconds and milliseconds.  The short
    names d and w go through [setDate]: they move the local time by days
    and weeks and turn it back into a time value, which is the same as
    86400000 ms a day on a host whose offset never changes.  The short
    names M and y throw, whatever the instance. *)
Theorem add_unit_names (d : option Z) (number : Z) :
  let by_ms (k : Z) :=
    Normal match d with
           | Some t => fromTimeValue (t + number * k)
           | None => None
           end in
  let by_local_days (k : Z) :=
    Normal match d with
           | Some t => fromTimeValue (UTC (LocalTime t + k * number * 86400000))
           | None => None
           end in
  (forall units, In units spelledUnits ->
                 Dayjs.add localTZA d number units = by_ms 86400000)
  /\ Dayjs.add localTZA d number "h" = by_ms 3600000
  /\ Dayjs.add localTZA d number "m" = by_ms 60000
  /\ Dayjs.add localTZA d number "s" = by_ms 1000
  /\ Dayjs.add localTZA d number "ms" = by_ms 1
  /\ Dayjs.add localTZA d number "d" = by_local_days 1
  /\ Dayjs.add localTZA d number "w" = by_local_days 7
  /\ (forall offset, (forall u isUTC, localTZA u isUTC = offset) ->
                     Dayjs.add localTZA d number "d" = by_ms 86400000
                     /\ Dayjs.add localTZA d number "w" = by_ms 604800000)
  /\ Dayjs.add localTZA d number "M" = Throw "this.init is not a function"
  /\ Dayjs.add localTZA d number "y" = Throw "this.init is not a function".
Proof.
  cbv zeta.
  assert (forall k,
            Dayjs.add localTZA d number (if k =? 1 then "d" else "w")
            = Normal match d with
                     | Some t =>
                         Dayjs.setDate localTZA t
                           (getDate (LocalTime t) + (if k =? 1 then 1 else 7) * number)
                     | None => None
                     end) as S
    by (intros k; destruct (k =? 1); reflexivity).
  pose proof (S 1) as S1. pose proof (S 7) as S7. clear S.
  change (1 =? 1) with true in S1. change (7 =? 1) with false in S7.
  cbv iota in S1, S7.
  assert (Dayjs.add localTZA d number "d"
          = Normal match d with
                   | Some t =>
                       fromTimeValue (UTC (LocalTime t + 1 * number * 86400000))
                   | None => None
                   end) as D1.
  { rewrite S1. destruct d as [t |]; [| reflexivity]. now rewrite setDate_local. }
  assert (Dayjs.add localTZA d number "w"
          = Normal match d with
                   | Some t =>
                       fromTimeValue (UTC (LocalTime t + 7 * number * 86400000))
                   | None => None
                   end) as D7.
  { rewrite S7. destruct d as [t |]; [| reflexivity]. now rewrite setDate_local. }
  split; [| split; [| split; [| split; [| split; [| split; [| split; [| split]]]]]]].
  - intros units H. now rewrite add_by_days by apply (spelled_units units H).
  - destruct d; reflexivity.
  - destruct d; reflexivity.
  - destruct d; reflexivity.
  - destruct d; reflexivity.
  - exact D1.
  - exact D7.
  - intros offset F. rewrite D1, D7. destruct d as [t |]; [| now split].
    rewrite !(fixed_zone_shift offset) by exact F.
    split; do 2 f_equal; lia.
  - split; reflexivity.
Qed.

Lemma add_days (t number : Z) :
  Dayjs.add localTZA (Some t) number "days"
  = Normal (fromTimeValue (t + number * Dayjs.MS_A_DAY)).
Proof. now rewrite add_by_days by reflexivity. Qed.

(** The name of the weekday, as [format] prints it. *)
Lemma format_weekday (t : Z) :
  Dayjs.weekdays !! Z.to_nat (getDay (LocalTime t))
  = Some (Dayjs.format localTZA t "dddd").
Proof.
  change (Dayjs.format localTZA t "dddd")
    with (match Dayjs.weekdays !! Z.to_nat (getDay (LocalTime t)) with
          | Some v => v
          | None => Dayjs.zoneDigits localTZA t
          end ++ "").
  pose proof (getDay_range (LocalTime t)) as R.
  set (w := getDay (LocalTime t)) in *.
  assert (w = 0 \/ w = 1 \/ w = 2 \/ w = 3 \/ w = 4 \/ w = 5 \/ w = 6) as C by lia.
  clearbody w.
  repeat (destruct C as [-> | C]; [reflexivity |]). rewrite C. reflexivity.
Qed.

Section Tools.
Variable fmt : rendering.
Local Abbreviation calculateDateDifference :=
  (calculateDateDifference true localTZA fmt).
Local Abbreviation addSubtractDays := (addSubtractDays true localTZA).
Local Abbreviation findDayOfWeek := (findDayOfWeek true localTZA).
Local Abbreviation dayOffset := (dayOffset true localTZA).
Local Abbreviation format := (Dayjs.format localTZA).
Local Abbreviation dayjs := Dayjs.dayjs.


Lemma addSubtractDays_run (date : Dayjs.input) (days : Z) (operation : string) (t : Z) :
  dayjs date = Some t ->
  let n := if String.eqb operation "subtract" then - days else days in
  addSubtractDays date days operation
  = if Z.abs (t + n * Dayjs.MS_A_DAY) <=? maxTime then
      Shifted
        {| originalDate := t; resultDate := t + n * Dayjs.MS_A_DAY;
           days := days; operation := operation;
           shiftFormatted :=
             format t "MMM DD, YYYY" ++ " "
             ++ (if String.eqb operation "add" then "+" else "-")
             ++ " " ++ pretty days ++ " days = "
             ++ format (t + n * Dayjs.MS_A_DAY) "MMM DD, YYYY" |}
    else ShiftFailed "Invalid time value" date days operation.
Proof.
  intros H n. unfold DateTimeHelper.addSubtractDays. cbn [negb]. rewrite H.
  unfold Dayjs.subtract. rewrite !add_days.
  replace (days * -1) with (- days) by lia.
  assert ((if String.eqb operation "subtract"
           then Normal (fromTimeValue (t + - days * Dayjs.MS_A_DAY))
           else Normal (fromTimeValue (t + days * Dayjs.MS_A_DAY)))
          = Normal (fromTimeValue (t + n * Dayjs.MS_A_DAY))) as E
    by (subst n; now destruct (String.eqb operation "subtract")).
  rewrite E. unfold Dayjs.fromTimeValue.
  destruct (_ <=? _); reflexivity.
Qed.

(** X24.  [addSubtractDays] succeeds exactly when the shifted moment is in
    the range of [Date]; the result then is the moment 86400000 ms per
    day away, and outside the range the call fails with the message of
    the [RangeError] of [toISOString].  The local time of day is kept,
    and the local day moved by the number of days, when the zone offset
    is the same at both moments; across a daylight saving change it is
    not. *)
Theorem addSubtractDays_range
  (date : Dayjs.input) (days : Z) (operation : string) (t : Z) :
  dayjs date = Some t ->
  let n := if String.eqb operation "subtract" then - days else days in
  (Z.abs (t + n * 86400000) <= maxTime ->
   exists r, addSubtractDays date days operation = Shifted r
             /\ originalDate r = t
             /\ resultDate r = t + n * 86400000
             /\ (localTZA (resultDate r) true = localTZA t true ->
                 TimeWithinDay (LocalTime (resultDate r)) = TimeWithinDay (LocalTime t)
                 /\ Day (LocalTime (resultDate r)) = Day (LocalTime t) + n))
  /\ (maxTime < Z.abs (t + n * 86400000) ->
      addSubtractDays date days operation
      = ShiftFailed "Invalid time value" date days operation).
Proof.
  intros H n. pose proof (addSubtractDays_run date days operation t H) as R.
  cbv zeta in R. fold n in R. change Dayjs.MS_A_DAY with 86400000 in R.
  split; intros B.
  - rewrite (proj2 (Z.leb_le _ _) B) in R. eexists. split; [exact R |].
    cbn [originalDate resultDate]. split; [reflexivity | split; [reflexivity |]].
    intros Z0. unfold Dayjs.LocalTime. rewrite Z0.
    replace (t + n * 86400000 + localTZA t true)
      with (t + localTZA t true + n * Dayjs.MS_A_DAY)
      by (change Dayjs.MS_A_DAY with 86400000; lia).
    split; [apply TimeWithinDay_shift | apply Day_shift].
  - rewrite (proj2 (Z.leb_gt _ _) B) in R. exact R.
Qed.

(** X25.  Adding days and subtracting them again from the result gives
    back the date the first call started from. *)
Theorem addSubtractDays_round_trip
  (date : Dayjs.input) (days : Z) (t : Z) (r : dayShift) :
  dayjs date = Some t -> Z.abs t <= maxTime ->
  addSubtractDays date days "add" = Shifted r ->
  exists r', addSubtractDays (Dayjs.ISOString (resultDate r)) days "subtract"
             = Shifted r'
             /\ originalDate r' = resultDate r
             /\ resultDate r' = originalDate r
             /\ resultDate r' = t.
Proof.
  intros H V A. rewrite (addSubtractDays_run date days "add" t H) in A.
  cbv zeta in A. change (String.eqb "add" "subtract") with false in A.
  cbv iota in A.
  destruct (Z.leb_spec (Z.abs (t + days * Dayjs.MS_A_DAY)) maxTime) as [B |];
    [| discriminate].
  injection A as <-. cbn [resultDate originalDate].
  assert (dayjs (Dayjs.ISOString (t + days * Dayjs.MS_A_DAY))
          = Some (t + days * Dayjs.MS_A_DAY)) as P
    by (cbn [Dayjs.dayjs]; now apply fromTimeValue_valid).
  rewrite (addSubtractDays_run _ days "subtract" _ P). cbv zeta.
  change (String.eqb "subtract" "subtract") with true. cbv iota.
  replace (t + days * Dayjs.MS_A_DAY + - days * Dayjs.MS_A_DAY) with t by lia.
  rewrite (proj2 (Z.leb_le _ _) V). eexists. split; [reflexivity |].
  cbn [originalDate resultDate]. repeat split; lia.
Qed.

(** X26.  The answer to a day-offset query: when the shifted moment is in
    the range of [Date], the day is found for the moment 86400000 ms per
    day away from now, its weekday is the local weekday of that moment,
    and its name is the name of that weekday.  When the zone offset is
    the same at both moments, this is today's weekday moved by the number
    of days (forward for a future day, backward for a past one) modulo
    7. *)
Theorem dayOffset_weekday (now : Z) (type : string) (days : Z) (operation : string) :
  let n := if String.eqb operation "subtract" then - days else days in
  Z.abs (now + n * 86400000) <= maxTime ->
  exists r w,
    dayOffset now type days operation = DayAnswered r
    /\ dayInfo r = WeekDayFound w
    /\ answerType r = type
    /\ originalDate (shift r) = now
    /\ date w = resultDate (shift r)
    /\ date w = now + n * 86400000
    /\ dayOfWeek w = getDay (LocalTime (date w))
    /\ Dayjs.weekdays !! Z.to_nat (dayOfWeek w) = Some (dayName w)
    /\ (localTZA (date w) true = localTZA now true ->
        dayOfWeek w = (getDay (LocalTime now) + n) mod 7).
Proof.
  intros n B. unfold DateTimeHelper.dayOffset.
  pose proof (addSubtractDays_run (nowInput true now) days operation now eq_refl) as R.
  cbv zeta in R. fold n in R. change Dayjs.MS_A_DAY with 86400000 in R.
  rewrite (proj2 (Z.leb_le _ _) B) in R. rewrite R. cbn [resultDate].
  unfold DateTimeHelper.findDayOfWeek. cbn [negb Dayjs.dayjs].
  rewrite (fromTimeValue_valid _ B).
  do 2 eexists. split; [reflexivity |]. cbn [dayInfo answerType shift originalDate
                                             resultDate date dayOfWeek dayName].
  split; [reflexivity |]. split; [reflexivity |]. split; [reflexivity |].
  split; [reflexivity |]. split; [reflexivity |]. split; [reflexivity |].
  split; [apply format_weekday |].
  intros Z0. cbv beta iota delta [date dayOfWeek] in Z0 |- *.
  unfold Dayjs.LocalTime. rewrite Z0.
  replace (now + n * 86400000 + localTZA now true)
    with (now + localTZA now true + n * Dayjs.MS_A_DAY)
    by (change Dayjs.MS_A_DAY with 86400000; lia).
  apply getDay_shift.
Qed.

(** X27.  A query for the days until Christmas, Halloween or Valentine's
    day is answered with the difference between the clock reading and
    the next such day (a day at most 366 days after the reading taken for
    it), and the number reported under the unit days is that difference
    in milliseconds. *)
Theorem days_until_holiday {T : Type}
  (parseDateTimeQuery : string -> option parsed)
  (parseDate : string -> option Z)
  (convertTimezone : Z -> string -> string -> T)
  (t0 t1 t2 : Z) (query target : string) (m d : Z) :
  parseDateTimeQuery query = Some (DaysBetween target) ->
  In (trim (toLowerCase target), (m, d)) fixedHolidays ->
  clock_reading t1 ->
  exists r holiday,
    handleDateTimeRequestWith true localTZA fmt
      parseDateTimeQuery parseDate convertTimezone t0 t1 t2 query
    = Normal (DateDifference (Difference r))
    /\ date1 r = t0
    /\ date2 r = UTC holiday
    /\ getMonth holiday = m /\ getDate holiday = d
    /\ t1 <= holiday <= t1 + 366 * 86400000
    /\ differenceUnit r = "days"
    /\ difference r = Dayjs.num (Z.abs (date2 r - date1 r))
    /\ (isInFuture r = true <-> date1 r < date2 r)
    /\ (date1 r <= date2 r -> difference r = Dayjs.num (date2 r - date1 r)).
Proof.
  intros P H C.
  destruct (fixedHolidays_table t1 t2 _ m d H) as (G & M & D).
  destruct (getNextOccurrence_upcoming t1 m d C M D) as (U1 & U2 & U3 & U4 & _).
  set (t := getNextOccurrence t1 (getFullYear t1) m d) in *.
  unfold handleDateTimeRequestWith, handleDateTimeRequest. rewrite P.
  unfold parseSpecialDates. cbv zeta. rewrite G.
  unfold DateTimeHelper.calculateDateDifference.
  cbn [negb nowInput Dayjs.dayjs].
  rewrite diff_by_milliseconds by reflexivity.
  cbv zeta. rewrite abs_num, gt0_num.
  exists {| date1 := t0; date2 := UTC t;
            difference := Dayjs.num (Z.abs (UTC t - t0));
            differenceUnit := "days";
            isInFuture := 0 <? UTC t - t0;
            differenceFormatted :=
              if 0 <? UTC t - t0 then
                "There are " ++ numberToString fmt (Dayjs.num (Z.abs (UTC t - t0)))
                ++ " " ++ "days" ++ " until " ++ format (UTC t) "MMM DD, YYYY"
              else
                format (UTC t) "MMM DD, YYYY" ++ " was "
                ++ numberToString fmt (Dayjs.num (Z.abs (UTC t - t0)))
                ++ " " ++ "days" ++ " ago" |}, t.
  split; [reflexivity |].
  cbn [date1 date2 differenceUnit difference isInFuture].
  unfold msPerDay in U2.
  split; [reflexivity |]. split; [reflexivity |].
  split; [exact U3 |]. split; [exact U4 |]. split; [lia |].
  split; [reflexivity |]. split; [reflexivity |].
  split; [rewrite Z.ltb_lt; lia |].
  intros L. now rewrite Z.abs_eq by lia.
Qed.

End Tools.
End Host.

(** A host on New York time around the end of daylight saving in 2026:
    at 06:00 UTC on 1 November the offset goes from -4 h to -5 h.  At
    00:30 local time that day, one day from now is 23:30 of the same
    local day: the answer is a Sunday, as today. *)
Example tomorrow_in_new_york :
  let now := 1793507400000 in
  getDay (Dayjs.LocalTime newYork2026 now) = 0
  /\ exists r w,
       dayOffset true newYork2026 now "futureDay" 1 "add" = DayAnswered r
       /\ dayInfo r = WeekDayFound w
       /\ dayOfWeek w = 0 /\ dayName w = "Sunday"
       /\ getDate (Dayjs.LocalTime newYork2026 (date w)) = 1
       /\ getHours (Dayjs.LocalTime newYork2026 (date w)) = 23.
Proof.
  cbv zeta. split; [vm_compute; reflexivity |].
  do 2 eexists. split; [vm_compute; reflexivity |].
  split; [reflexivity |]. repeat split; vm_compute; reflexivity.
Qed.

Lemma add_unit_names_witness :
  Dayjs.add newYork2026 (Some 1793507400000) 1 "hours"
  = Normal (Some 1793593800000)
  /\ Dayjs.add newYork2026 (Some 1793507400000) 1 "d"
     = Normal (Some 1793597400000).
Proof.
  destruct (add_unit_names newYork2026 (Some 1793507400000) 1)
    as (H & _ & _ & _ & _ & D & _).
  split.
  - rewrite (H "hours") by (cbn; tauto). reflexivity.
  - rewrite D. vm_compute. reflexivity.
Defined.


Lemma addSubtractDays_range_witness :
  (exists r,
     addSubtractDays true newYork2026 (Dayjs.Instance (Some 0)) 50 "add" = Shifted r
     /\ resultDate r = 4320000000
     /\ Day (Dayjs.LocalTime newYork2026 (resultDate r))
        = Day (Dayjs.LocalTime newYork2026 0) + 50)
  /\ addSubtractDays true newYork2026 (Dayjs.Instance (Some 0)) 100000001 "add"
     = ShiftFailed "Invalid time value" (Dayjs.Instance (Some 0)) 100000001 "add".
Proof.
  split.
  - destruct (addSubtractDays_range newYork2026 (Dayjs.Instance (Some 0)) 50 "add" 0
                eq_refl) as [S _].
    destruct S as (r & A & _ & B & C).
    + vm_compute. discriminate.
    + exists r. split; [exact A | split; [exact B |]].
      apply C. rewrite B. reflexivity.
  - apply (addSubtractDays_range newYork2026 (Dayjs.Instance (Some 0)) 100000001
             "add" 0).
    + reflexivity.
    + vm_compute. reflexivity.
Defined.

Lemma addSubtractDays_round_trip_witness :
  exists r',
    addSubtractDays true newYork2026 (Dayjs.ISOString 4320000000) 50 "subtract"
    = Shifted r'
    /\ resultDate r' = 0.
Proof.
  destruct (addSubtractDays_round_trip newYork2026 (Dayjs.Instance (Some 0)) 50 0
              {| originalDate := 0; resultDate := 4320000000; days := 50;
                 operation := "add";
                 shiftFormatted := "Dec 31, 1969 + 50 days = Feb 19, 1970" |})
    as (r' & A & _ & _ & B).
  - reflexivity.
  - vm_compute. discriminate.
  - vm_compute. reflexivity.
  - exists r'. split; [exact A | exact B].
Defined.

Lemma dayOffset_weekday_witness :
  exists r w,
    dayOffset true newYork2026 1793507400000 "futureDay" 50 "add" = DayAnswered r
    /\ dayInfo r = WeekDayFound w
    /\ dayOfWeek w = getDay (Dayjs.LocalTime newYork2026 (1793507400000 + 4320000000)).
Proof.
  destruct (dayOffset_weekday newYork2026 1793507400000 "futureDay" 50 "add")
    as (r & w & A & B & _ & _ & _ & D & C & _).
  - vm_compute. discriminate.
  - exists r, w. split; [exact A | split; [exact B |]]. rewrite C, D. reflexivity.
Defined.

Lemma days_until_holiday_witness :
  exists r,
    handleDateTimeRequestWith true newYork2026 plain_rendering
      (fun _ => Some (DaysBetween "Christmas")) (fun _ => None) echo
      1793507400000 (newDate 2026 10 1 + 1800000) (newDate 2026 10 1 + 1800000)
      "How many days until Christmas?"
    = Normal (DateDifference (Difference r))
    /\ difference r = Dayjs.num (Z.abs (date2 r - date1 r)).
Proof.
  destruct (days_until_holiday newYork2026 plain_rendering
              (fun _ => Some (DaysBetween "Christmas")) (fun _ => None) echo
              1793507400000 (newDate 2026 10 1 + 1800000) (newDate 2026 10 1 + 1800000)
              "How many days until Christmas?" "Christmas" 11 25)
    as (r & h & A & _ & _ & _ & _ & _ & _ & B & _).
  - reflexivity.
  - left. reflexivity.
  - vm_compute. split; discriminate.
  - exists r. split; [exact A | exact B].
Defined.

End DayjsFacts.

(** ** More on [agent.js]: the three steps *)

Module AgentMore.
Import JS JSCase Agent.

Lemma toLowerCase_app (a b : string) :
  toLowerCase (a ++ b) = toLowerCase a ++ toLowerCase b.
Proof.
  unfold toLowerCase. induction a as [| c r IH]; simpl; [reflexivity |].
  rewrite IH. reflexivity.
Qed.

Lemma prefix_app (k s t : string) :
  String.prefix k s = true -> String.prefix k (s ++ t) = true.
Proof.
  revert s. induction k as [| c k IH]; intros s H;
    [now destruct (s ++ t) |].
  destruct s as [| d s]; [discriminate |].
  change (String d s ++ t) with (String d (s ++ t)).
  cbn [String.prefix] in H |- *.
  destruct (Ascii.ascii_dec c d); [| discriminate]. now apply IH.
Qed.

Lemma includes_app_r (k s t : string) :
  includes k s = true -> includes k (s ++ t) = true.
Proof.
  induction s as [| c r IH]; intros H.
  - cbn in H. rewrite orb_false_r in H.
    destruct k; [| discriminate]. now destruct t.
  - cbn [includes] in H. apply orb_true_iff in H.
    change (String c r ++ t) with (String c (r ++ t)). cbn [includes].
    apply orb_true_iff. destruct H as [H | H].
    + left. apply (prefix_app k (String c r) t H).
    + right. now apply IH.
Qed.

Lemma includes_app_l (k p s : string) :
  includes k s = true -> includes k (p ++ s) = true.
Proof.
  intros H. induction p as [| c r IH]; [exact H |].
  change (String c r ++ s) with (String c (r ++ s)). cbn [includes].
  rewrite IH. apply orb_true_r.
Qed.

Lemma includes_within (k p s t : string) :
  includes k s = true -> includes k (p ++ s ++ t) = true.
Proof. intros H. now apply includes_app_l, includes_app_r. Qed.

Lemma keywords_within (keywords : list string) (p s t : string) :
  existsb (fun keyword => includes keyword (toLowerCase s)) keywords = true ->
  existsb (fun keyword => includes keyword (toLowerCase (p ++ s ++ t))) keywords = true.
Proof.
  rewrite !existsb_exists. intros (k & I & H). exists k. split; [exact I |].
  rewrite !toLowerCase_app. now apply includes_within.
Qed.

(** X28.  The keyword analysis ignores letter case, and what it asks for
    never shrinks when text is put around a query: a tool asked for by a
    query is asked for by every query that contains it. *)
Theorem fallbackAnalysis_monotone (before query after : string) :
  let a := fallbackAnalysis query in
  let b := fallbackAnalysis (before ++ query ++ after) in
  fallbackAnalysis (toUpperCase query) = a
  /\ (needsUnitConversion a = true -> needsUnitConversion b = true)
  /\ (needsCurrencyConversion a = true -> needsCurrencyConversion b = true)
  /\ (needsDateTimeCalculation a = true -> needsDateTimeCalculation b = true).
Proof.
  cbv zeta. split; [| repeat split; apply keywords_within].
  unfold fallbackAnalysis. cbv zeta. now rewrite toLowerCase_toUpperCase.
Qed.

Lemma fallbackAnalysis_monotone_witness :
  needsDateTimeCalculation
    (fallbackAnalysis ("Please tell me: " ++ "How many DAYS until Easter" ++ "?"))
  = true.
Proof.
  apply (fallbackAnalysis_monotone "Please tell me: " "How many DAYS until Easter" "?").
  reflexivity.
Defined.

(** The word pounds is a keyword of units and of currencies: a query
    that mentions it (in any letter case) has both converters called by
    the keyword analysis. *)
Lemma pounds_asks_for_both_converters (query : string) :
  includes "pounds" (toLowerCase query) = true ->
  needsUnitConversion (fallbackAnalysis query) = true
  /\ needsCurrencyConversion (fallbackAnalysis query) = true.
Proof.
  intros H. unfold fallbackAnalysis. cbv zeta.
  cbn [needsUnitConversion needsCurrencyConversion].
  split; apply existsb_exists; exists "pounds"; (split; [cbn; tauto | exact H]).
Qed.

Lemma pounds_asks_for_both_converters_witness :
  needsCurrencyConversion (fallbackAnalysis "Convert 10 Pounds to kg") = true.
Proof.
  apply (pounds_asks_for_both_converters "Convert 10 Pounds to kg"). reflexivity.
Defined.

Section Loop.
Context {J R : Type}.
Variable callLLM : string -> list message -> completion string.
Variable analysisPrompt : string -> string.
Variable responsePrompt : string -> list (string * R) -> string.
Variable parseJSON : string -> completion J.
Variable flag : J -> string -> bool.
Variable success : R -> bool.
Variable formatted : R -> option string.
Variable stringify : R -> string.
Variable unitTool currencyTool dateTimeTool : string -> completion R.

Local Abbreviation analyzeQuery := (analyzeQuery callLLM analysisPrompt parseJSON).
Local Abbreviation executeToolCalls :=
  (executeToolCalls flag unitTool currencyTool dateTimeTool).
Local Abbreviation generateFallbackResponse :=
  (generateFallbackResponse success formatted stringify).
Local Abbreviation generateFinalResponse :=
  (generateFinalResponse callLLM responsePrompt success formatted stringify).
Local Abbreviation processQueryWith :=
  (processQueryWith callLLM analysisPrompt responsePrompt parseJSON flag
     success formatted stringify unitTool currencyTool dateTimeTool).

Lemma callTool_cases (needed : bool) (name : string)
  (tool : string -> completion R) (query : string) (results : list (string * R)) :
  match callTool needed name tool query results with
  | Normal rs =>
      map fst rs = (map fst results ++ (if needed then [name] else []))%list
  | Throw m => needed = true /\ tool query = Throw m
  end.
Proof.
  unfold callTool. destruct needed.
  - destruct (tool query) as [r | m]; [| now split].
    now rewrite map_app.
  - now rewrite app_nil_r.
Qed.

Lemma executeToolCalls_cases (query : string) (a : analysis) :
  match executeToolCalls query a with
  | Normal rs => map fst rs = toolsCalled flag a
  | Throw m =>
      (needsUnit flag a = true /\ unitTool query = Throw m)
      \/ (needsCurrency flag a = true /\ currencyTool query = Throw m)
      \/ (needsDateTime flag a = true /\ dateTimeTool query = Throw m)
  end.
Proof.
  unfold Agent.executeToolCalls, toolsCalled.
  pose proof (callTool_cases (needsUnit flag a) "unit" unitTool query []) as U.
  destruct (callTool (needsUnit flag a) "unit" unitTool query []) as [r1 | m];
    [| now left].
  pose proof (callTool_cases (needsCurrency flag a) "currency" currencyTool query r1) as C.
  destruct (callTool (needsCurrency flag a) "currency" currencyTool query r1) as [r2 | m];
    [| now right; left].
  pose proof (callTool_cases (needsDateTime flag a) "datetime" dateTimeTool query r2) as D.
  destruct (callTool (needsDateTime flag a) "datetime" dateTimeTool query r2) as [r3 | m];
    [| now right; right].
  rewrite D, C, U. cbn [map app]. now rewrite <- app_assoc.
Qed.

Lemma processQueryWith_run (h : list message) (userQuery : string) :
  processQueryWith h userQuery
  = let a := analyzeQuery h userQuery in
    match executeToolCalls userQuery a with
    | Throw m => (errored userQuery m, h)
    | Normal toolResults =>
        let finalResponse := generateFinalResponse h userQuery toolResults in
        let h1 := (h ++ exchange userQuery finalResponse)%list in
        (Answered userQuery a toolResults finalResponse,
         if (10 <? length h1)%nat then slice_last 10 h1 else h1)
    end.
Proof.
  unfold Agent.processQueryWith, processQuery. cbv zeta.
  destruct (executeToolCalls userQuery (analyzeQuery h userQuery)); reflexivity.
Qed.

(** X29.  [processQuery] fails only when a tool that the analysis asked for
    throws: the error it reports is that tool's, and the history is left
    as it was.  A failure of the model never makes it fail.  When it
    answers, the tools were called in the order unit, currency, datetime,
    each one asked for once. *)
Theorem processQuery_fails_only_on_tools (h : list message) (userQuery : string) :
  let a := analyzeQuery h userQuery in
  match processQueryWith h userQuery with
  | (Errored query m finalResponse, h') =>
      query = userQuery /\ h' = h
      /\ finalResponse = "I encountered an error processing your request: " ++ m
      /\ ((needsUnit flag a = true /\ unitTool userQuery = Throw m)
          \/ (needsCurrency flag a = true /\ currencyTool userQuery = Throw m)
          \/ (needsDateTime flag a = true /\ dateTimeTool userQuery = Throw m))
  | (Answered query a' toolResults finalResponse, h') =>
      query = userQuery /\ a' = a
      /\ map fst toolResults = toolsCalled flag a
      /\ finalResponse = generateFinalResponse h userQuery toolResults
  end.
Proof.
  cbv zeta. rewrite processQueryWith_run. cbv zeta.
  pose proof (executeToolCalls_cases userQuery (analyzeQuery h userQuery)) as E.
  destruct (executeToolCalls userQuery (analyzeQuery h userQuery)) as [rs | m].
  - repeat split. exact E.
  - unfold errored. repeat split. exact E.
Qed.

(** X30.  Without the model (every call of it throws, as when no API key
    is configured) a query is still answered when the tools return: the
    analysis is the keyword analysis, the answer is the fallback
    response, which is the apology when no tool succeeded, and the
    exchange enters the history. *)
Theorem processQuery_without_model
  (h : list message) (userQuery : string) (toolResults : list (string * R)) :
  (forall prompt context, exists m, callLLM prompt context = Throw m) ->
  executeToolCalls userQuery (FromKeywords (fallbackAnalysis userQuery))
  = Normal toolResults ->
  let finalResponse := generateFallbackResponse toolResults in
  let h1 := (h ++ exchange userQuery finalResponse)%list in
  processQueryWith h userQuery
  = (Answered userQuery (FromKeywords (fallbackAnalysis userQuery)) toolResults
       finalResponse,
     if (10 <? length h1)%nat then slice_last 10 h1 else h1)
  /\ (Forall (fun tr => success (snd tr) = false) toolResults ->
      finalResponse
      = "I'm sorry, I couldn't process your conversion request. Please check your query format and try again.").
Proof.
  intros D E. cbv zeta. split.
  - rewrite processQueryWith_run. cbv zeta.
    assert (analyzeQuery h userQuery = FromKeywords (fallbackAnalysis userQuery)) as A.
    { unfold Agent.analyzeQuery.
      destruct (D (analysisPrompt userQuery) h) as [m ->]. reflexivity. }
    rewrite A, E. unfold Agent.generateFinalResponse.
    destruct (D (responsePrompt userQuery toolResults) h) as [m ->]. reflexivity.
  - intros F. unfold Agent.generateFallbackResponse. cbv zeta.
    replace (List.filter (fun tr => success (snd tr)) toolResults)
      with (@nil (string * R)); [reflexivity |].
    clear - F. induction F as [| tr l H _ IH]; [reflexivity |].
    cbn [List.filter]. now rewrite H.
Qed.

End Loop.

Lemma processQuery_without_model_witness :
  fst (processQueryWith (J := unit) (R := bool * string)
         (fun _ _ => Throw "API key not configured. Please update .env file and rebuild.")
         (fun q => q) (fun q _ => q) (fun _ => Throw "no JSON") (fun _ _ => false)
         fst (fun r => Some (snd r)) snd
         (fun _ => Normal (true, "5 miles = 8.05 km"))
         (fun _ => Normal (false, "")) (fun _ => Normal (false, ""))
         [] "convert 5 miles to km")
  = Answered "convert 5 miles to km"
      (FromKeywords (fallbackAnalysis "convert 5 miles to km"))
      [("unit", (true, "5 miles = 8.05 km"))] "5 miles = 8.05 km".
Proof.
  destruct (processQuery_without_model (J := unit) (R := bool * string)
         (fun _ _ => Throw "API key not configured. Please update .env file and rebuild.")
         (fun q => q) (fun q _ => q) (fun _ => Throw "no JSON") (fun _ _ => false)
         fst (fun r => Some (snd r)) snd
         (fun _ => Normal (true, "5 miles = 8.05 km"))
         (fun _ => Normal (false, "")) (fun _ => Normal (false, ""))
         [] "convert 5 miles to km" [("unit", (true, "5 miles = 8.05 km"))])
    as [H _].
  - intros prompt context. eexists. reflexivity.
  - reflexivity.
  - rewrite H. reflexivity.
Defined.

End AgentMore.
